(** * Daily Settlement Ledger

    A shallow embedding of the ledger store ([database.py]), of the
    command-line menus that call it ([ledger.py]) and of the inline cell
    editor of the grid ([ledger_gui.py]), with the properties of the
    store contract and of the editing state machine.

    Conventions of the model.
    - A Python [str] is a Rocq [string]; a character stands for the code
      point of the same number (U+0000 to U+00FF).
    - A Python [float] is a primitive binary64 [float]; [Optional[float]]
      is [option float], [None] being SQL's NULL. What SQLite keeps of a
      float bound to a REAL column, and Python's [float()], [str()] and
      number formatting, are parameters of the model.
    - The SQLite table is the list of its rows in rowid order, together
      with the counter kept for the AUTOINCREMENT key.
    - [CURRENT_TIMESTAMP] is an input of each statement: the reading
      [now] of the clock, in whole seconds.
    - A method of the store is given twice: as what its statement does
      once it runs ([update_entry], ...), and as the call, which may
      raise before that ([update_entry_call], ...). *)

From Stdlib Require Import ZArith List String Ascii Bool Lia Floats DecimalString.
From Stdlib Require Import Sorted Permutation.
Import ListNotations.
Local Open Scope string_scope.
Local Open Scope Z_scope.

(** ** Python and SQL primitives used by the sources *)

Module Py.

(** [str.isspace] on one character, for the code points up to U+00FF:
    tab to carriage return, the four separators U+001C to U+001F,
    space, next line, no-break space. *)
Definition isspace (c : ascii) : bool :=
  let n := N_of_ascii c in
  ((9 <=? n) && (n <=? 13) || (28 <=? n) && (n <=? 32)
   || (n =? 133) || (n =? 160))%N.

Fixpoint lstrip (s : string) : string :=
  match s with
  | String c s' => if isspace c then lstrip s' else s
  | EmptyString => EmptyString
  end.

Fixpoint rstrip (s : string) : string :=
  match s with
  | String c s' =>
      match rstrip s' with
      | EmptyString => if isspace c then EmptyString else String c EmptyString
      | r => String c r
      end
  | EmptyString => EmptyString
  end.

(** [s.strip()] *)
Definition strip (s : string) : string := rstrip (lstrip s).

(** [s.replace(c, '')] for a one-character [c]. *)
Fixpoint remove (c : ascii) (s : string) : string :=
  match s with
  | String d s' => if Ascii.eqb c d then remove c s' else String d (remove c s')
  | EmptyString => EmptyString
  end.

(** Truth value of a string: [not s] holds of the empty string only. *)
Definition truthy (s : string) : bool :=
  match s with EmptyString => false | _ => true end.

(** [s.lower()], for the code points up to U+00FF: the 26 ASCII capitals
    and the Latin-1 capitals U+00C0 to U+00DE, the sign U+00D7 apart,
    move up by 32. *)
Definition lower_char (c : ascii) : ascii :=
  let n := N_of_ascii c in
  if ((65 <=? n) && (n <=? 90)
      || (192 <=? n) && (n <=? 222) && negb (n =? 215))%N
  then ascii_of_N (n + 32) else c.

Fixpoint lower (s : string) : string :=
  match s with
  | String c s' => String (lower_char c) (lower s')
  | EmptyString => EmptyString
  end.

(** [len(s.encode('utf-8'))], the number of bytes [sqlite3] binds for
    [s]: one for a code point below U+0080, two up to U+00FF. *)
Fixpoint utf8_length (s : string) : Z :=
  match s with
  | String c s' => (if (N_of_ascii c <? 128)%N then 1 else 2) + utf8_length s'
  | EmptyString => 0
  end.

End Py.

Module Sql.

(** SQLite folds case in [LIKE] for the 26 ASCII letters only. *)
Definition tolower (c : ascii) : ascii :=
  let n := N_of_ascii c in
  if ((65 <=? n) && (n <=? 90))%N then ascii_of_N (n + 32) else c.

Definition like_char (c d : ascii) : bool :=
  Ascii.eqb c d
  || (Ascii.eqb (tolower c) (tolower d)
      && (N_of_ascii c <? 128)%N && (N_of_ascii d <? 128)%N).

(** The comparison of [LIKE] without ESCAPE clause: [%] stands for any
    run of characters, [_] for exactly one character, any other
    character for itself up to ASCII case. *)
Fixpoint patternCompare (p : string) : string -> bool :=
  match p with
  | EmptyString => fun s => negb (Py.truthy s)
  | String c p' =>
      if Ascii.eqb c "%" then
        fix any_run (s : string) : bool :=
          patternCompare p' s
          || match s with
             | String _ s' => any_run s'
             | EmptyString => false
             end
      else if Ascii.eqb c "_" then
        fun s => match s with
                 | String _ s' => patternCompare p' s'
                 | EmptyString => false
                 end
      else
        fun s => match s with
                 | String d s' => like_char c d && patternCompare p' s'
                 | EmptyString => false
                 end
  end.

(** The comparison reads both of its arguments as C strings: what
    follows the first U+0000 of the pattern or of the text is not
    looked at. *)
Fixpoint c_string (s : string) : string :=
  match s with
  | String c s' =>
      if Ascii.eqb c Ascii.zero then EmptyString else String c (c_string s')
  | EmptyString => EmptyString
  end.

(** [s LIKE p] *)
Definition like (p s : string) : bool :=
  patternCompare (c_string p) (c_string s).

(** SQLITE_MAX_LIKE_PATTERN_LENGTH: a pattern of more bytes makes every
    evaluation of [LIKE] fail with 'LIKE or GLOB pattern too complex'. *)
Definition max_like_pattern_length : Z := 50000.

End Sql.

(** ** The store: [database.py] *)

(** The eight REAL columns of table [settlement_ledger]. *)
Inductive real_column : Set :=
| col_previous_balance | col_previous_total
| col_seller_1 | col_seller_2 | col_seller_3 | col_seller_4
| col_today_total | col_today_balance.

Definition real_column_eqb (a b : real_column) : bool :=
  match a, b with
  | col_previous_balance, col_previous_balance
  | col_previous_total, col_previous_total
  | col_seller_1, col_seller_1 | col_seller_2, col_seller_2
  | col_seller_3, col_seller_3 | col_seller_4, col_seller_4
  | col_today_total, col_today_total
  | col_today_balance, col_today_balance => true
  | _, _ => false
  end.

(** One row, in the column order of the SELECT statements. *)
Record row : Type := mkRow {
  id : Z;
  name : string;
  previous_balance : option float;
  previous_total : option float;
  seller_1 : option float;
  seller_2 : option float;
  seller_3 : option float;
  seller_4 : option float;
  today_total : option float;
  today_balance : option float;
  created_at : Z;
  updated_at : Z
}.

Definition real_of (c : real_column) (r : row) : option float :=
  match c with
  | col_previous_balance => previous_balance r
  | col_previous_total => previous_total r
  | col_seller_1 => seller_1 r
  | col_seller_2 => seller_2 r
  | col_seller_3 => seller_3 r
  | col_seller_4 => seller_4 r
  | col_today_total => today_total r
  | col_today_balance => today_balance r
  end.

(** The state behind a [SettlementLedgerDB]: the rows of the table in
    rowid order and the [sqlite_sequence] entry of the table, the largest
    key AUTOINCREMENT has handed out. *)
Record database : Type := mkDb {
  table : list row;
  sqlite_sequence : Z
}.

(** [_initialize_database] on a fresh file. *)
Definition empty_database : database := {| table := []; sqlite_sequence := 0 |}.

(** One item of a SET clause. *)
Inductive assignment : Type :=
| set_name (v : string)
| set_real (c : real_column) (v : option float)
| set_updated_at (now : Z).

Definition assign (a : assignment) (r : row) : row :=
  match a with
  | set_name v =>
      mkRow (id r) v (previous_balance r) (previous_total r) (seller_1 r)
        (seller_2 r) (seller_3 r) (seller_4 r) (today_total r)
        (today_balance r) (created_at r) (updated_at r)
  | set_real c v =>
      mkRow (id r) (name r)
        (if real_column_eqb c col_previous_balance then v else previous_balance r)
        (if real_column_eqb c col_previous_total then v else previous_total r)
        (if real_column_eqb c col_seller_1 then v else seller_1 r)
        (if real_column_eqb c col_seller_2 then v else seller_2 r)
        (if real_column_eqb c col_seller_3 then v else seller_3 r)
        (if real_column_eqb c col_seller_4 then v else seller_4 r)
        (if real_column_eqb c col_today_total then v else today_total r)
        (if real_column_eqb c col_today_balance then v else today_balance r)
        (created_at r) (updated_at r)
  | set_updated_at now =>
      mkRow (id r) (name r) (previous_balance r) (previous_total r)
        (seller_1 r) (seller_2 r) (seller_3 r) (seller_4 r) (today_total r)
        (today_balance r) (created_at r) now
  end.

(** [UPDATE settlement_ledger SET ... WHERE id = ?]: the new table and
    the statement's [rowcount]. *)
Fixpoint sql_update (set : list assignment) (entry_id : Z) (t : list row)
  : list row * Z :=
  match t with
  | [] => ([], 0)
  | r :: t' =>
      let (u, n) := sql_update set entry_id t' in
      if id r =? entry_id
      then (fold_left (fun r a => assign a r) set r :: u, n + 1)
      else (r :: u, n)
  end.

(** [DELETE FROM settlement_ledger WHERE id = ?] *)
Fixpoint sql_delete (entry_id : Z) (t : list row) : list row * Z :=
  match t with
  | [] => ([], 0)
  | r :: t' =>
      let (u, n) := sql_delete entry_id t' in
      if id r =? entry_id then (u, n + 1) else (r :: u, n)
  end.

(** [ORDER BY updated_at DESC]; rows with equal stamps keep their rowid
    order (SQL leaves the order of ties open, and no property below
    depends on it). *)
Fixpoint insert_desc (r : row) (l : list row) : list row :=
  match l with
  | [] => [r]
  | x :: l' =>
      if updated_at x <=? updated_at r then r :: l else x :: insert_desc r l'
  end.

Definition order_by_updated_at_desc (l : list row) : list row :=
  fold_right insert_desc [] l.

(** The integers [sqlite3] can bind. *)
Definition sqlite_integer (z : Z) : bool :=
  (-9223372036854775808 <=? z) && (z <=? 9223372036854775807).

(** The exceptions of [sqlite3] that the calls of the store can raise. *)
Inductive store_error : Set := OverflowError | OperationalError.

(** What a call of a method gives: the value it returns, or the
    exception that leaves it. *)
Inductive reply (A : Type) : Type :=
| answered (a : A)
| fails (e : store_error).

Arguments answered {A} a.
Arguments fails {A} e.

Section Ledger.

(** What a REAL column holds once SQLite has bound a Python float to
    it ([None] where the engine stores NULL for it). The conversion
    belongs to the engine, not to the repository. *)
Variable sql_real : float -> option float.

(** Python's [float(s)] on a string ([None]: ValueError), [str(x)] on
    a float, and the format [f"${x:,.2f}"]. *)
Variable py_float : string -> option float.
Variable py_str : float -> string.
Variable format_money : float -> string.

(** [_convert_to_ph_time] of [ledger_gui.py]: the Manila-time text of
    a stored stamp. Only displayed, never read back. *)
Variable _convert_to_ph_time : Z -> string.

Definition stored (v : option float) : option float :=
  match v with
  | Some x => sql_real x
  | None => None
  end.

Definition add_entry (d : database) (now : Z) (name : string)
    (previous_balance previous_total seller_1 seller_2 seller_3 seller_4
       today_total today_balance : option float) : database * Z :=
  let lastrowid := sqlite_sequence d + 1 in
  ({| table := (table d ++
               [mkRow lastrowid name (stored previous_balance)
                  (stored previous_total) (stored seller_1) (stored seller_2)
                  (stored seller_3) (stored seller_4) (stored today_total)
                  (stored today_balance) now now])%list;
      sqlite_sequence := lastrowid |},
   lastrowid).

Definition get_entry (d : database) (entry_id : Z) : option row :=
  find (fun r => id r =? entry_id) (table d).

Definition get_all_entries (d : database) : list row :=
  order_by_updated_at_desc (table d).

(** The [updates]/[params] pair of [update_entry]: one SET item for
    every argument that [is not None]. *)
Definition provided_name (name : option string) : list assignment :=
  match name with
  | Some v => [set_name v]
  | None => []
  end.

Definition provided_real (c : real_column) (v : option float)
  : list assignment :=
  match v with
  | Some x => [set_real c (sql_real x)]
  | None => []
  end.

Definition provided (name : option string)
    (previous_balance previous_total seller_1 seller_2 seller_3 seller_4
       today_total today_balance : option float) : list assignment :=
  (provided_name name
   ++ provided_real col_previous_balance previous_balance
   ++ provided_real col_previous_total previous_total
   ++ provided_real col_seller_1 seller_1
   ++ provided_real col_seller_2 seller_2
   ++ provided_real col_seller_3 seller_3
   ++ provided_real col_seller_4 seller_4
   ++ provided_real col_today_total today_total
   ++ provided_real col_today_balance today_balance)%list.

Definition update_entry (d : database) (now : Z) (entry_id : Z)
    (name : option string)
    (previous_balance previous_total seller_1 seller_2 seller_3 seller_4
       today_total today_balance : option float) : database * bool :=
  let updates :=
    provided name previous_balance previous_total seller_1 seller_2 seller_3
      seller_4 today_total today_balance in
  match updates with
  | [] => (d, false)
  | _ =>
      let updates := (updates ++ [set_updated_at now])%list in
      let (t, rowcount) := sql_update updates entry_id (table d) in
      ({| table := t; sqlite_sequence := sqlite_sequence d |}, 0 <? rowcount)
  end.

Definition update_entry_complete (d : database) (now : Z) (entry_id : Z)
    (name : string)
    (previous_balance previous_total seller_1 seller_2 seller_3 seller_4
       today_total today_balance : option float) : database * bool :=
  let (t, rowcount) :=
    sql_update
      [set_name name;
       set_real col_previous_balance (stored previous_balance);
       set_real col_previous_total (stored previous_total);
       set_real col_seller_1 (stored seller_1);
       set_real col_seller_2 (stored seller_2);
       set_real col_seller_3 (stored seller_3);
       set_real col_seller_4 (stored seller_4);
       set_real col_today_total (stored today_total);
       set_real col_today_balance (stored today_balance);
       set_updated_at now]
      entry_id (table d) in
  ({| table := t; sqlite_sequence := sqlite_sequence d |}, 0 <? rowcount).

Definition delete_entry (d : database) (entry_id : Z) : database * bool :=
  let (t, rowcount) := sql_delete entry_id (table d) in
  ({| table := t; sqlite_sequence := sqlite_sequence d |}, 0 <? rowcount).

(** [WHERE name LIKE '%' || name || '%' ORDER BY updated_at DESC] *)
Definition search_by_name (d : database) (name' : string) : list row :=
  order_by_updated_at_desc
    (filter (fun r => Sql.like ("%" ++ name' ++ "%") (name r)) (table d)).

(** *** The calls that raise

    The definitions above give what each statement does once its
    parameters are bound and the statement runs to its end. Two calls
    of [sqlite3] do not get that far. A Python [int] outside the signed
    64-bit range cannot be bound: [execute] raises OverflowError
    before the statement runs. A [LIKE] whose pattern is longer than
    SQLite's limit fails on the first row it is evaluated on, and
    [execute] raises OperationalError. In both cases no row has been
    written: the store is as it was. *)

(** [db.get_entry(entry_id)], for every Python integer. *)
Definition get_entry_call (d : database) (entry_id : Z) : reply (option row) :=
  if sqlite_integer entry_id then answered (get_entry d entry_id)
  else fails OverflowError.

(** [db.update_entry(entry_id, ...)], for every Python integer: with no
    field to set it returns [False] before anything is bound. *)
Definition update_entry_call (d : database) (now : Z) (entry_id : Z)
    (name : option string)
    (previous_balance previous_total seller_1 seller_2 seller_3 seller_4
       today_total today_balance : option float) : database * reply bool :=
  match provided name previous_balance previous_total seller_1 seller_2
          seller_3 seller_4 today_total today_balance with
  | [] => (d, answered false)
  | _ =>
      if sqlite_integer entry_id then
        let (d', updated) :=
          update_entry d now entry_id name previous_balance previous_total
            seller_1 seller_2 seller_3 seller_4 today_total today_balance in
        (d', answered updated)
      else (d, fails OverflowError)
  end.

(** [db.update_entry_complete(entry_id, ...)], for every Python
    integer. *)
Definition update_entry_complete_call (d : database) (now : Z) (entry_id : Z)
    (name : string)
    (previous_balance previous_total seller_1 seller_2 seller_3 seller_4
       today_total today_balance : option float) : database * reply bool :=
  if sqlite_integer entry_id then
    let (d', updated) :=
      update_entry_complete d now entry_id name previous_balance
        previous_total seller_1 seller_2 seller_3 seller_4 today_total
        today_balance in
    (d', answered updated)
  else (d, fails OverflowError).

(** [db.delete_entry(entry_id)], for every Python integer. *)
Definition delete_entry_call (d : database) (entry_id : Z)
  : database * reply bool :=
  if sqlite_integer entry_id then
    let (d', deleted) := delete_entry d entry_id in (d', answered deleted)
  else (d, fails OverflowError).

(** [db.search_by_name(name)], for every text: the pattern bound is
    [f"%{name}%"], and [LIKE] is evaluated when the table has a row. *)
Definition search_by_name_call (d : database) (name' : string)
  : reply (list row) :=
  let evaluated := match table d with [] => false | _ :: _ => true end in
  if evaluated
     && (Sql.max_like_pattern_length <? Py.utf8_length ("%" ++ name' ++ "%"))
  then fails OperationalError
  else answered (search_by_name d name').



(** ** The command-line menu that creates entries: [ledger.py] *)

(** [get_float_input(prompt)] reads lines of [stdin] until one is empty
    or a number; [None] stands for the EOFError of [input()] on an
    exhausted stream. The result carries the lines still unread. *)
Fixpoint get_float_input (stdin : list string)
  : option (option float * list string) :=
  match stdin with
  | [] => None
  | line :: rest =>
      let value := Py.strip line in
      if negb (Py.truthy value) then Some (None, rest)
      else match py_float value with
           | Some x => Some (Some x, rest)
           | None => get_float_input rest
           end
  end.

Inductive menu_outcome : Type :=
| name_is_required
| entry_added (entry_id : Z)
| eof_error.

(** [add_entry_menu(db)]: the name, then the eight amounts, then the
    insertion. *)
Definition add_entry_menu (d : database) (now : Z) (stdin : list string)
  : database * menu_outcome :=
  match stdin with
  | [] => (d, eof_error)
  | line :: stdin =>
      let name := Py.strip line in
      if negb (Py.truthy name) then (d, name_is_required)
      else
        match get_float_input stdin with
        | None => (d, eof_error)
        | Some (previous_balance, stdin) =>
        match get_float_input stdin with
        | None => (d, eof_error)
        | Some (previous_total, stdin) =>
        match get_float_input stdin with
        | None => (d, eof_error)
        | Some (seller_1, stdin) =>
        match get_float_input stdin with
        | None => (d, eof_error)
        | Some (seller_2, stdin) =>
        match get_float_input stdin with
        | None => (d, eof_error)
        | Some (seller_3, stdin) =>
        match get_float_input stdin with
        | None => (d, eof_error)
        | Some (seller_4, stdin) =>
        match get_float_input stdin with
        | None => (d, eof_error)
        | Some (today_total, stdin) =>
        match get_float_input stdin with
        | None => (d, eof_error)
        | Some (today_balance, _) =>
            let (d', entry_id) :=
              add_entry d now name previous_balance previous_total seller_1
                seller_2 seller_3 seller_4 today_total today_balance in
            (d', entry_added entry_id)
        end end end end end end end end
  end.

(** Python's [int(s)] on a string ([None]: ValueError). *)
Variable py_int : string -> option Z.

(** How [update_entry_menu] ends; the last two are the exceptions that
    escape it (OverflowError from the lookup, EOFError from [input]). *)
Inductive update_menu_outcome : Type :=
| update_invalid_id
| update_not_found
| entry_updated
| update_failed
| update_overflow
| update_eof.

(** [update_entry_menu(db)]: the key, the lookup, the new name and the
    eight amounts (an empty answer keeps the field), then one
    [update_entry] with the fields that were answered. *)
Definition update_entry_menu (d : database) (now : Z) (stdin : list string)
  : database * update_menu_outcome :=
  match stdin with
  | [] => (d, update_eof)
  | line :: stdin =>
      match py_int line with
      | None => (d, update_invalid_id)
      | Some entry_id =>
          if negb (sqlite_integer entry_id) then (d, update_overflow) else
          match get_entry d entry_id with
          | None => (d, update_not_found)
          | Some _ =>
              match stdin with
              | [] => (d, update_eof)
              | line :: stdin =>
                  let name := Py.strip line in
                  let name := if Py.truthy name then Some name else None in
                  match get_float_input stdin with
                  | None => (d, update_eof)
                  | Some (previous_balance, stdin) =>
                  match get_float_input stdin with
                  | None => (d, update_eof)
                  | Some (previous_total, stdin) =>
                  match get_float_input stdin with
                  | None => (d, update_eof)
                  | Some (seller_1, stdin) =>
                  match get_float_input stdin with
                  | None => (d, update_eof)
                  | Some (seller_2, stdin) =>
                  match get_float_input stdin with
                  | None => (d, update_eof)
                  | Some (seller_3, stdin) =>
                  match get_float_input stdin with
                  | None => (d, update_eof)
                  | Some (seller_4, stdin) =>
                  match get_float_input stdin with
                  | None => (d, update_eof)
                  | Some (today_total, stdin) =>
                  match get_float_input stdin with
                  | None => (d, update_eof)
                  | Some (today_balance, _) =>
                      let (d', updated) :=
                        update_entry d now entry_id name previous_balance
                          previous_total seller_1 seller_2 seller_3 seller_4
                          today_total today_balance in
                      (d', if updated then entry_updated else update_failed)
                  end end end end end end end end
              end
          end
      end
  end.

Inductive delete_menu_outcome : Type :=
| delete_invalid_id
| delete_not_found
| entry_deleted
| delete_failed
| delete_cancelled
| delete_overflow
| delete_eof.

(** [delete_entry_menu(db)]: the key, the lookup, the confirmation. *)
Definition delete_entry_menu (d : database) (stdin : list string)
  : database * delete_menu_outcome :=
  match stdin with
  | [] => (d, delete_eof)
  | line :: stdin =>
      match py_int line with
      | None => (d, delete_invalid_id)
      | Some entry_id =>
          if negb (sqlite_integer entry_id) then (d, delete_overflow) else
          match get_entry d entry_id with
          | None => (d, delete_not_found)
          | Some _ =>
              match stdin with
              | [] => (d, delete_eof)
              | line :: _ =>
                  let confirm := Py.lower (Py.strip line) in
                  if (confirm =? "yes")%string then
                    let (d', deleted) := delete_entry d entry_id in
                    (d', if deleted then entry_deleted else delete_failed)
                  else (d, delete_cancelled)
              end
          end
      end
  end.

(** *** The menu loop *)

(** A function that reads [stdin]: its value and the lines left, or
    [None] for the EOFError of [input()]. [get_float_input] is one. *)
Definition cli (A : Type) : Type := list string -> option (A * list string).

Definition cli_ret {A : Type} (a : A) : cli A := fun stdin => Some (a, stdin).

Definition cli_bind {A B : Type} (c : cli A) (k : A -> cli B) : cli B :=
  fun stdin =>
    match c stdin with
    | Some (a, rest) => k a rest
    | None => None
    end.

Notation "x <~ c ;; k" := (cli_bind c (fun x => k))
  (at level 61, c at next level, right associativity).

(** [input(prompt)] *)
Definition input : cli string :=
  fun stdin =>
    match stdin with
    | [] => None
    | line :: rest => Some (line, rest)
    end.

(** The three menus that write, as [main_menu] calls them: the same
    steps, with the lines they leave unread. Each writes as its last
    step, so that an EOFError leaves the store as it was. *)
Definition add_entry_menu_reading (d : database) (now : Z)
  : cli (database * menu_outcome) :=
  line <~ input ;;
  let name := Py.strip line in
  if negb (Py.truthy name) then cli_ret (d, name_is_required)
  else
    previous_balance <~ get_float_input ;;
    previous_total <~ get_float_input ;;
    seller_1 <~ get_float_input ;;
    seller_2 <~ get_float_input ;;
    seller_3 <~ get_float_input ;;
    seller_4 <~ get_float_input ;;
    today_total <~ get_float_input ;;
    today_balance <~ get_float_input ;;
    let (d', entry_id) :=
      add_entry d now name previous_balance previous_total seller_1
        seller_2 seller_3 seller_4 today_total today_balance in
    cli_ret (d', entry_added entry_id).

Definition update_entry_menu_reading (d : database) (now : Z)
  : cli (database * update_menu_outcome) :=
  line <~ input ;;
  match py_int line with
  | None => cli_ret (d, update_invalid_id)
  | Some entry_id =>
      if negb (sqlite_integer entry_id) then cli_ret (d, update_overflow) else
      match get_entry d entry_id with
      | None => cli_ret (d, update_not_found)
      | Some _ =>
          line <~ input ;;
          let name := Py.strip line in
          let name := if Py.truthy name then Some name else None in
          previous_balance <~ get_float_input ;;
          previous_total <~ get_float_input ;;
          seller_1 <~ get_float_input ;;
          seller_2 <~ get_float_input ;;
          seller_3 <~ get_float_input ;;
          seller_4 <~ get_float_input ;;
          today_total <~ get_float_input ;;
          today_balance <~ get_float_input ;;
          let (d', updated) :=
            update_entry d now entry_id name previous_balance
              previous_total seller_1 seller_2 seller_3 seller_4
              today_total today_balance in
          cli_ret (d', if updated then entry_updated else update_failed)
      end
  end.

Definition delete_entry_menu_reading (d : database)
  : cli (database * delete_menu_outcome) :=
  line <~ input ;;
  match py_int line with
  | None => cli_ret (d, delete_invalid_id)
  | Some entry_id =>
      if negb (sqlite_integer entry_id) then cli_ret (d, delete_overflow) else
      match get_entry d entry_id with
      | None => cli_ret (d, delete_not_found)
      | Some _ =>
          line <~ input ;;
          let confirm := Py.lower (Py.strip line) in
          if (confirm =? "yes")%string then
            let (d', deleted) := delete_entry d entry_id in
            cli_ret (d', if deleted then entry_deleted else delete_failed)
          else cli_ret (d, delete_cancelled)
      end
  end.

(** [view_entry_menu(db)]: what is displayed, if the key was an integer
    that [sqlite3] can bind. *)
Inductive view_menu_outcome : Type :=
| view_invalid_id
| view_overflow
| viewed (entry : option row).

Definition view_entry_menu (d : database) : cli view_menu_outcome :=
  line <~ input ;;
  match py_int line with
  | None => cli_ret view_invalid_id
  | Some entry_id =>
      if negb (sqlite_integer entry_id) then cli_ret view_overflow
      else cli_ret (viewed (get_entry d entry_id))
  end.

(** [search_entry_menu(db)]: what is displayed, or the exception of
    the search, which the menu does not catch. *)
Inductive search_menu_outcome : Type :=
| search_term_required
| search_found (entries : list row)
| search_found_nothing
| search_raised (e : store_error).

Definition search_entry_menu (d : database) : cli search_menu_outcome :=
  line <~ input ;;
  let search_term := Py.strip line in
  if negb (Py.truthy search_term) then cli_ret search_term_required
  else
    match search_by_name_call d search_term with
    | fails e => cli_ret (search_raised e)
    | answered [] => cli_ret search_found_nothing
    | answered entries => cli_ret (search_found entries)
    end.

(** How a run of [main_menu] ends: option 7, or an exception that
    escapes the loop (EOFError from [input], OverflowError from a
    lookup, OperationalError from a search). *)
Inductive session_end : Set :=
| session_exit
| session_eof
| session_overflow
| session_operational_error.

(** [main_menu(db)]: [fuel] bounds the number of choices read (every
    choice takes a line, see [main_menu_ends]); [clock n] is the clock
    reading during the [n]-th choice. [None]: out of fuel. *)
Fixpoint main_menu (fuel : nat) (clock : nat -> Z) (n : nat) (d : database)
    (stdin : list string) : option (database * session_end) :=
  match fuel with
  | O => None
  | S fuel' =>
      match input stdin with
      | None => Some (d, session_eof)
      | Some (line, stdin) =>
          let choice := Py.strip line in
          if (choice =? "1")%string then
            match add_entry_menu_reading d (clock n) stdin with
            | None => Some (d, session_eof)
            | Some ((d', _), stdin) => main_menu fuel' clock (S n) d' stdin
            end
          else if (choice =? "2")%string then
            main_menu fuel' clock (S n) d stdin
          else if (choice =? "3")%string then
            match view_entry_menu d stdin with
            | None => Some (d, session_eof)
            | Some (view_overflow, _) => Some (d, session_overflow)
            | Some (_, stdin) => main_menu fuel' clock (S n) d stdin
            end
          else if (choice =? "4")%string then
            match update_entry_menu_reading d (clock n) stdin with
            | None => Some (d, session_eof)
            | Some ((d', update_overflow), _) => Some (d', session_overflow)
            | Some ((d', _), stdin) => main_menu fuel' clock (S n) d' stdin
            end
          else if (choice =? "5")%string then
            match delete_entry_menu_reading d stdin with
            | None => Some (d, session_eof)
            | Some ((d', delete_overflow), _) => Some (d', session_overflow)
            | Some ((d', _), stdin) => main_menu fuel' clock (S n) d' stdin
            end
          else if (choice =? "6")%string then
            match search_entry_menu d stdin with
            | None => Some (d, session_eof)
            | Some (search_raised OverflowError, _) =>
                Some (d, session_overflow)
            | Some (search_raised OperationalError, _) =>
                Some (d, session_operational_error)
            | Some (_, stdin) => main_menu fuel' clock (S n) d stdin
            end
          else if (choice =? "7")%string then Some (d, session_exit)
          else main_menu fuel' clock (S n) d stdin
      end
  end.

(** ** The grid and its inline editor: [ledger_gui.py] *)

(** *** [EntryDialog] *)

(** The nine text variables of the form. *)
Record form : Type := mkForm {
  name_var : string;
  prev_balance_var : string;
  prev_total_var : string;
  seller1_var : string;
  seller2_var : string;
  seller3_var : string;
  seller4_var : string;
  today_total_var : string;
  today_balance_var : string
}.

(** The [result] dictionary of the dialog, keyed like the parameters of
    the store's methods. *)
Record entry_data : Type := mkData {
  data_name : string;
  data_previous_balance : option float;
  data_previous_total : option float;
  data_seller_1 : option float;
  data_seller_2 : option float;
  data_seller_3 : option float;
  data_seller_4 : option float;
  data_today_total : option float;
  data_today_balance : option float
}.

Definition _parse_float (value : string) : option float :=
  let value := Py.strip value in
  if negb (Py.truthy value) then None else py_float value.

(** What [EntryDialog._save] leaves in [self.result]: [None] when the
    name is refused. The error box of a refusal is a step of
    [wait_window] below. *)
Definition _save (f : form) : option entry_data :=
  let name := Py.strip (name_var f) in
  if negb (Py.truthy name) then None
  else Some (mkData name
               (_parse_float (prev_balance_var f))
               (_parse_float (prev_total_var f))
               (_parse_float (seller1_var f))
               (_parse_float (seller2_var f))
               (_parse_float (seller3_var f))
               (_parse_float (seller4_var f))
               (_parse_float (today_total_var f))
               (_parse_float (today_balance_var f))).

(** What the user does with an open dialog. *)
Inductive dialog_action : Type :=
| press_save (f : form)
| press_cancel.

(** What [EntryDialog.show] returns: the dialog runs until a save is
    accepted or the window goes away, and yields [self.result]. *)
Fixpoint show (script : list dialog_action) : option entry_data :=
  match script with
  | [] => None
  | press_cancel :: _ => None
  | press_save f :: script' =>
      match _save f with
      | Some result => Some result
      | None => show script'
      end
  end.

(** *** The state of [SettlementLedgerGUI] *)

(** A value of a Treeview row: the ID column is an integer, every other
    column a text. *)
Inductive cell : Type :=
| cell_int (z : Z)
| cell_str (s : string).

(** A row of the Treeview: its item identifier and its [values], the
    entry id followed by the ten displayed texts. *)
Record item : Type := mkItem {
  iid : nat;
  value_id : Z;
  value_texts : list string
}.

(** [item_values[i]] *)
Definition values_nth (it : item) (i : nat) : option cell :=
  match i with
  | O => Some (cell_int (value_id it))
  | S j => option_map cell_str (nth_error (value_texts it) j)
  end.

(** Keyword arguments of one [update_entry] call: [{field_name: value}]. *)
Inductive py_value : Type :=
| a_str (s : string)
| a_float (v : option float).

(** The calls made on [self.db], in order. *)
Inductive store_call : Type :=
| call_add_entry (result : entry_data)
| call_get_entry (entry_id : Z)
| call_get_all_entries
| call_update_entry (entry_id : Z) (field_name : string) (value : py_value)
| call_update_entry_complete (entry_id : Z) (result : entry_data)
| call_delete_entry (entry_id : Z)
| call_search_by_name (name : string).

(** The database handle: the store, the calls made so far, and for the
    calls to come whether they raise [sqlite3.Error] ([true]: the next
    call fails). *)
Record handle : Type := mkHandle {
  db : database;
  calls : list store_call;
  faults : list bool
}.

(** The Treeview: its rows in display order, the number of the next
    item identifier, the selected rows, and the rows whose cells are off
    screen (their bounding box is empty). *)
Record treeview : Type := mkTree {
  items : list item;
  next_iid : nat;
  selection : list nat;
  hidden : list nat
}.

(** Who holds the input focus: an inline editor or another widget. *)
Inductive widget : Type :=
| inline_entry (w : nat)
| other_widget.

Inductive box_kind : Set := showerror | showwarning | showinfo | askyesno.

(** The toolkit side: the live inline [ttk.Entry] widgets with their
    text, the focus, the callbacks waiting in [after_idle], the message
    boxes shown, the status bar and the search box. *)
Record toolkit : Type := mkTk {
  entries : list (nat * string);
  next_widget : nat;
  focus : option widget;
  idle : nat;
  boxes : list (box_kind * string);
  status_var : string;
  search_var : string
}.

(** The four editing attributes of the window, and the history of the
    assignments to [editing_entry] as pairs (old value, new value). *)
Record editing : Type := mkEditing {
  editing_entry : option nat;
  editing_item : option nat;
  editing_column : option string;
  editing_column_index : option nat;
  writes : list (option nat * option nat)
}.

Record gui : Type := mkGui {
  handle_of : handle;
  tree : treeview;
  tk : toolkit;
  edit : editing
}.

Definition with_handle (h : handle) (s : gui) : gui :=
  mkGui h (tree s) (tk s) (edit s).
Definition with_tree (t : treeview) (s : gui) : gui :=
  mkGui (handle_of s) t (tk s) (edit s).
Definition with_tk (t : toolkit) (s : gui) : gui :=
  mkGui (handle_of s) (tree s) t (edit s).
Definition with_edit (e : editing) (s : gui) : gui :=
  mkGui (handle_of s) (tree s) (tk s) e.

(** [__init__] on a store [d]: nothing is being edited. The table is
    filled by the first [_refresh_table]. *)
Definition initial_gui (d : database) : gui :=
  mkGui (mkHandle d [] [])
        (mkTree [] 0 [] [])
        (mkTk [] 0 None 0 [] "Ready" "")
        (mkEditing None None None None []).

(** *** Handlers as state transformers that may raise *)

Inductive exn : Set := TclError | AttributeError | TypeError | sqlite3_Error.

Inductive outcome (A : Type) : Type :=
| returned (a : A)
| raised (e : exn).
Arguments returned {A} a.
Arguments raised {A} e.

Definition M (A : Type) : Type := gui -> outcome A * gui.

Definition ret {A : Type} (a : A) : M A := fun s => (returned a, s).

Definition raise {A : Type} (e : exn) : M A := fun s => (raised e, s).

Definition bindM {A B : Type} (c : M A) (k : A -> M B) : M B :=
  fun s =>
    match c s with
    | (returned a, s') => k a s'
    | (raised e, s') => (raised e, s')
    end.

(** [try: c except ...: h] *)
Definition try_except {A : Type} (c : M A) (h : exn -> M A) : M A :=
  fun s =>
    match c s with
    | (raised e, s') => h e s'
    | r => r
    end.

Definition gets {A : Type} (f : gui -> A) : M A := fun s => (returned (f s), s).

Definition modify (f : gui -> gui) : M unit := fun s => (returned tt, f s).

Notation "x <- c ;; k" := (bindM c (fun x => k))
  (at level 61, c at next level, right associativity).
Notation "c ;; k" := (bindM c (fun _ => k))
  (at level 61, right associativity).

(** A handler called by the event loop: an exception that escapes it is
    reported and the loop goes on with the state reached. *)
Definition run (c : M unit) (s : gui) : gui := snd (c s).

(** *** The store, the Treeview and the widgets as seen by the handlers *)

(** One call on [self.db]: it is recorded, and it raises when the next
    fault flag says so, leaving the store as it was. *)
Definition store_do {A : Type} (c : store_call)
    (f : database -> database * A) : M A :=
  fun s =>
    let h := handle_of s in
    match faults h with
    | true :: rest =>
        (raised sqlite3_Error,
         with_handle (mkHandle (db h) (calls h ++ [c]) rest) s)
    | _ =>
        let (d, a) := f (db h) in
        (returned a, with_handle (mkHandle d (calls h ++ [c]) (tl (faults h))) s)
    end.

(** The parameter of [update_entry] a keyword names: the name
    ([Some None]), one of the eight amounts, or none at all. *)
Definition parameter_of (field_name : string) : option (option real_column) :=
  if (field_name =? "name")%string then Some None
  else if (field_name =? "previous_balance")%string then Some (Some col_previous_balance)
  else if (field_name =? "previous_total")%string then Some (Some col_previous_total)
  else if (field_name =? "seller_1")%string then Some (Some col_seller_1)
  else if (field_name =? "seller_2")%string then Some (Some col_seller_2)
  else if (field_name =? "seller_3")%string then Some (Some col_seller_3)
  else if (field_name =? "seller_4")%string then Some (Some col_seller_4)
  else if (field_name =? "today_total")%string then Some (Some col_today_total)
  else if (field_name =? "today_balance")%string then Some (Some col_today_balance)
  else None.

(** The argument a call [update_entry(entry_id, **{c: v})] passes for the
    amount [c']: [v] for [c' = c], the default [None] otherwise. *)
Definition keyword (c : real_column) (v : option float) (c' : real_column)
  : option float :=
  if real_column_eqb c c' then v else None.

(** [self.db.update_entry(entry_id, **{field_name: value})]. A keyword
    that is no parameter raises TypeError; so does, in this model, a
    value of the other type than the parameter's annotation (the editor
    never builds one, see [finish_builds_typed_keyword]). *)
Definition db_update_entry (now entry_id : Z) (field_name : string)
    (value : py_value) : M bool :=
  let c := call_update_entry entry_id field_name value in
  match parameter_of field_name, value with
  | Some None, a_str v =>
      store_do c (fun d =>
        update_entry d now entry_id (Some v) None None None None None None None None)
  | Some None, a_float None =>
      store_do c (fun d =>
        update_entry d now entry_id None None None None None None None None None)
  | Some (Some col), a_float v =>
      store_do c (fun d =>
        update_entry d now entry_id None
          (keyword col v col_previous_balance) (keyword col v col_previous_total)
          (keyword col v col_seller_1) (keyword col v col_seller_2)
          (keyword col v col_seller_3) (keyword col v col_seller_4)
          (keyword col v col_today_total) (keyword col v col_today_balance))
  | _, _ => raise TypeError
  end.

Definition db_update_entry_complete (now entry_id : Z) (r : entry_data)
  : M bool :=
  store_do (call_update_entry_complete entry_id r) (fun d =>
    update_entry_complete d now entry_id (data_name r)
      (data_previous_balance r) (data_previous_total r) (data_seller_1 r)
      (data_seller_2 r) (data_seller_3 r) (data_seller_4 r)
      (data_today_total r) (data_today_balance r)).

(** [self.db.add_entry] on the keywords of [result] *)
Definition db_add_entry (now : Z) (r : entry_data) : M Z :=
  store_do (call_add_entry r) (fun d =>
    add_entry d now (data_name r)
      (data_previous_balance r) (data_previous_total r) (data_seller_1 r)
      (data_seller_2 r) (data_seller_3 r) (data_seller_4 r)
      (data_today_total r) (data_today_balance r)).

Definition db_get_entry (entry_id : Z) : M (option row) :=
  store_do (call_get_entry entry_id) (fun d => (d, get_entry d entry_id)).

Definition db_get_all_entries : M (list row) :=
  store_do call_get_all_entries (fun d => (d, get_all_entries d)).

Definition db_search_by_name (name : string) : M (list row) :=
  store_do (call_search_by_name name) (fun d => (d, search_by_name d name)).

Definition db_delete_entry (entry_id : Z) : M bool :=
  store_do (call_delete_entry entry_id) (fun d => delete_entry d entry_id).

(** [self.tree.item(i, ...)]: TclError when the item is not in the tree. *)
Definition tree_item (i : option nat) : M item :=
  fun s =>
    match i with
    | Some i =>
        match find (fun it => (iid it =? i)%nat) (items (tree s)) with
        | Some it => (returned it, s)
        | None => (raised TclError, s)
        end
    | None => (raised TclError, s)
    end.

(** [self.tree.bbox(i, column=...)]: empty ([false]) for a cell that is
    not on screen. *)
Definition tree_bbox (i : nat) : M bool :=
  _ <- tree_item (Some i) ;;
  gets (fun s => negb (existsb (Nat.eqb i) (hidden (tree s)))).

(** [for item in self.tree.get_children(): self.tree.delete(item)] *)
Definition tree_delete_children : M unit :=
  modify (fun s =>
    with_tree (mkTree [] (next_iid (tree s)) [] (hidden (tree s))) s).

(** [self.tree.insert('', tk.END, values=...)] *)
Definition tree_insert (entry_id : Z) (texts : list string) : M unit :=
  modify (fun s =>
    let t := tree s in
    with_tree (mkTree (items t ++ [mkItem (next_iid t) entry_id texts])
                 (S (next_iid t)) (selection t) (hidden t)) s).

Definition has_entry (w : nat) (t : toolkit) : bool :=
  existsb (fun e => (fst e =? w)%nat) (entries t).

Definition set_entries (l : list (nat * string)) (t : toolkit) : toolkit :=
  mkTk l (next_widget t) (focus t) (idle t) (boxes t) (status_var t) (search_var t).

Definition set_focus (f : option widget) (t : toolkit) : toolkit :=
  mkTk (entries t) (next_widget t) f (idle t) (boxes t) (status_var t) (search_var t).

Definition set_idle (n : nat) (t : toolkit) : toolkit :=
  mkTk (entries t) (next_widget t) (focus t) n (boxes t) (status_var t)
    (search_var t).

(** [ttk.Entry(self.tree_frame)] *)
Definition entry_new : M nat :=
  fun s =>
    let t := tk s in
    (returned (next_widget t),
     with_tk (mkTk (entries t ++ [(next_widget t, "")]) (S (next_widget t))
                (focus t) (idle t) (boxes t) (status_var t) (search_var t)) s).

Definition on_entry {A : Type} (w : nat) (c : M A) : M A :=
  fun s => if has_entry w (tk s) then c s else (raised TclError, s).

(** [entry.insert(0, text)] on the new, empty widget (the selection and
    the placement that follow change nothing the model keeps). *)
Definition entry_insert (w : nat) (text : string) : M unit :=
  on_entry w (modify (fun s =>
    with_tk (set_entries
               (map (fun e => if (fst e =? w)%nat then (w, text) else e)
                  (entries (tk s))) (tk s)) s)).

(** [entry.focus()] *)
Definition entry_focus (w : nat) : M unit :=
  on_entry w (modify (fun s => with_tk (set_focus (Some (inline_entry w)) (tk s)) s)).

(** [entry.get()] *)
Definition entry_get (w : nat) : M string :=
  on_entry w (gets (fun s =>
    match find (fun e => (fst e =? w)%nat) (entries (tk s)) with
    | Some e => snd e
    | None => ""
    end)).

(** [entry.destroy()]: the widget goes, and the focus with it if it had
    it. *)
Definition entry_destroy (w : nat) : M unit :=
  on_entry w (modify (fun s =>
    let t := tk s in
    with_tk (mkTk (filter (fun e => negb (fst e =? w)%nat) (entries t))
               (next_widget t)
               (match focus t with
                | Some (inline_entry w') =>
                    if (w' =? w)%nat then Some other_widget else focus t
                | f => f
                end)
               (idle t) (boxes t) (status_var t) (search_var t)) s)).

(** [w.focus_get()] *)
Definition focus_get (w : nat) : M (option widget) :=
  on_entry w (gets (fun s => focus (tk s))).

(** [self.root.after_idle(self._check_focus_out)] *)
Definition after_idle : M unit :=
  modify (fun s => with_tk (set_idle (S (idle (tk s))) (tk s)) s).

Definition messagebox (kind : box_kind) (message : string) : M unit :=
  modify (fun s =>
    let t := tk s in
    with_tk (mkTk (entries t) (next_widget t) (focus t) (idle t)
               (boxes t ++ [(kind, message)]) (status_var t) (search_var t)) s).

(** [self.status_var.set(text)] *)
Definition status_set (text : string) : M unit :=
  modify (fun s =>
    let t := tk s in
    with_tk (mkTk (entries t) (next_widget t) (focus t) (idle t) (boxes t)
               text (search_var t)) s).

Definition set_editing_entry (v : option nat) : M unit :=
  modify (fun s =>
    let e := edit s in
    with_edit (mkEditing v (editing_item e) (editing_column e)
                 (editing_column_index e)
                 (writes e ++ [(editing_entry e, v)])) s).

Definition set_editing_item (v : option nat) : M unit :=
  modify (fun s =>
    let e := edit s in
    with_edit (mkEditing (editing_entry e) v (editing_column e)
                 (editing_column_index e) (writes e)) s).

Definition set_editing_column (v : option string) : M unit :=
  modify (fun s =>
    let e := edit s in
    with_edit (mkEditing (editing_entry e) (editing_item e) v
                 (editing_column_index e) (writes e)) s).

(** The attribute [editing_column_index] exists only while [Some]. *)
Definition set_editing_column_index (v : option nat) : M unit :=
  modify (fun s =>
    let e := edit s in
    with_edit (mkEditing (editing_entry e) (editing_item e) (editing_column e)
                 v (writes e)) s).

Definition str_nat (n : nat) : string := NilZero.string_of_uint (Nat.to_uint n).

Definition str_int (z : Z) : string := NilZero.string_of_int (Z.to_int z).

(** [str(e)] of a caught exception; the text is the library's. *)
Variable str_exn : exn -> string.

(** *** The handlers of [SettlementLedgerGUI] *)

Definition columns : list string :=
  ["ID"; "Date (PH time)"; "Name"; "Prev Balance"; "Prev Total"; "Seller 1";
   "Seller 2"; "Seller 3"; "Seller 4"; "Today Total"; "Today Balance"].

Definition column_to_field : list (string * string) :=
  [("Name", "name");
   ("Prev Balance", "previous_balance");
   ("Prev Total", "previous_total");
   ("Seller 1", "seller_1");
   ("Seller 2", "seller_2");
   ("Seller 3", "seller_3");
   ("Seller 4", "seller_4");
   ("Today Total", "today_total");
   ("Today Balance", "today_balance")].

Definition non_editable_columns : list string := ["ID"; "Date (PH time)"].

Definition currency_columns : list string :=
  ["Prev Balance"; "Prev Total"; "Seller 1"; "Seller 2"; "Seller 3";
   "Seller 4"; "Today Total"; "Today Balance"].

(** [x in l] *)
Definition member (x : string) (l : list string) : bool :=
  existsb (String.eqb x) l.

(** [d.get(k)] *)
Definition dict_get (d : list (string * string)) (k : option string)
  : option string :=
  match k with
  | Some k => option_map snd (find (fun e => String.eqb (fst e) k) d)
  | None => None
  end.

Definition _format_currency (value : option float) : string :=
  match value with
  | None => ""
  | Some v => format_money v
  end.

Definition _parse_currency (value_str : string) : option float :=
  if negb (Py.truthy value_str) || (Py.strip value_str =? "")%string then None
  else
    let cleaned :=
      Py.strip (Py.remove "," (Py.remove "$" (Py.strip value_str))) in
    if (cleaned =? "")%string then None else py_float cleaned.

(** The ten texts shown after the ID for a row of the store. *)
Definition display (entry : row) : list string :=
  [_convert_to_ph_time (created_at entry);
   name entry;
   _format_currency (previous_balance entry);
   _format_currency (previous_total entry);
   _format_currency (seller_1 entry);
   _format_currency (seller_2 entry);
   _format_currency (seller_3 entry);
   _format_currency (seller_4 entry);
   _format_currency (today_total entry);
   _format_currency (today_balance entry)].

Fixpoint insert_entries (entries : list row) : M unit :=
  match entries with
  | [] => ret tt
  | entry :: entries' =>
      tree_insert (id entry) (display entry) ;; insert_entries entries'
  end.

Definition _refresh_table : M unit :=
  tree_delete_children ;;
  entries <- db_get_all_entries ;;
  insert_entries entries ;;
  status_set ("Total entries: " ++ str_nat (List.length entries)).

Definition _search_entries : M unit :=
  search_term <- gets (fun s => Py.strip (search_var (tk s))) ;;
  tree_delete_children ;;
  entries <- (if Py.truthy search_term then db_search_by_name search_term
              else db_get_all_entries) ;;
  insert_entries entries ;;
  status_set ("Found " ++ str_nat (List.length entries) ++ " entries").

Definition _get_selected_entry_id : M (option Z) :=
  selection <- gets (fun s => selection (tree s)) ;;
  match selection with
  | [] => ret None
  | i :: _ => it <- tree_item (Some i) ;; ret (Some (value_id it))
  end.

Definition _cancel_inline_edit : M unit :=
  e <- gets (fun s => editing_entry (edit s)) ;;
  match e with
  | Some w =>
      try_except (entry_destroy w)
        (fun e => match e with TclError => ret tt | _ => raise e end) ;;
      set_editing_entry None ;;
      set_editing_item None ;;
      set_editing_column None ;;
      set_editing_column_index None
  | None => ret tt
  end.

Definition _delete_entry (answer : bool) : M unit :=
  e <- gets (fun s => editing_entry (edit s)) ;;
  (match e with Some _ => _cancel_inline_edit | None => ret tt end) ;;
  entry_id <- _get_selected_entry_id ;;
  match entry_id with
  | None => messagebox showwarning "Please select an entry to delete."
  | Some 0 => messagebox showwarning "Please select an entry to delete."
  | Some entry_id =>
      entry <- db_get_entry entry_id ;;
      match entry with
      | None => messagebox showerror "Entry not found!"
      | Some entry =>
          messagebox askyesno
            ("Are you sure you want to delete entry '" ++ name entry
             ++ "' (ID: " ++ str_int entry_id ++ ")?") ;;
          if answer then
            try_except
              (_ <- db_delete_entry entry_id ;;
               _refresh_table ;;
               status_set "Entry deleted successfully" ;;
               messagebox showinfo "Entry deleted successfully!")
              (fun e =>
                 messagebox showerror ("Failed to delete entry: " ++ str_exn e))
          else ret tt
      end
  end.

(** [_parse_currency] on a cell value: the integer of the ID column is
    falsy when zero and has no [strip] otherwise. *)
Definition parse_cell (current_value : cell) : M (option float) :=
  match current_value with
  | cell_str value_str => ret (_parse_currency value_str)
  | cell_int 0 => ret None
  | cell_int _ => raise AttributeError
  end.

Definition _start_inline_edit (item : nat) (column_name : string)
    (column_index : nat) : M unit :=
  item_values <- tree_item (Some item) ;;
  match values_nth item_values column_index with
  | None => ret tt
  | Some current_value =>
      bbox <- tree_bbox item ;;
      if negb bbox then ret tt
      else
        entry <- entry_new ;;
        entry_value <-
          (if member column_name currency_columns then
             parsed <- parse_cell current_value ;;
             ret (match parsed with Some x => py_str x | None => "" end)
           else
             ret (match current_value with
                  | cell_str v => v
                  | cell_int 0 => ""
                  | cell_int z => str_int z
                  end)) ;;
        entry_insert entry entry_value ;;
        entry_focus entry ;;
        set_editing_entry (Some entry) ;;
        set_editing_item (Some item) ;;
        set_editing_column (Some column_name) ;;
        set_editing_column_index (Some column_index)
  end.

(** The [try] block that ends [_finish_inline_edit], with its handler:
    one [update_entry] with the one changed field, the refresh, and on
    any exception the error box and the same cell opened again. *)
Definition update_the_database (now entry_id : Z) (field_name : string)
    (editing_item : nat) (editing_column : string)
    (editing_column_index : nat) (update_value : py_value) : M unit :=
  try_except
    (_ <- db_update_entry now entry_id field_name update_value ;;
     _refresh_table ;;
     status_set (editing_column ++ " updated successfully"))
    (fun e =>
       messagebox showerror
         ("Failed to update " ++ editing_column ++ ": " ++ str_exn e) ;;
       try_except
         (_start_inline_edit editing_item editing_column editing_column_index)
         (fun _ => ret tt)).

(** [_finish_inline_edit] from the lookup of the entry id on, once the
    typed text is read and the editor is gone. *)
Definition save_inline_value (now : Z) (editing_item : option nat)
    (editing_column : option string) (editing_column_index : nat)
    (new_value : string) : M unit :=
  item_values <- tree_item editing_item ;;
  let entry_id := value_id item_values in
  match dict_get column_to_field editing_column, editing_item,
        editing_column with
  | Some field_name, Some editing_item, Some editing_column =>
      if member editing_column currency_columns then
        update_the_database now entry_id field_name editing_item
          editing_column editing_column_index
          (a_float (_parse_currency new_value))
      else if negb (Py.truthy new_value) then
        messagebox showerror (editing_column ++ " cannot be empty!") ;;
        _start_inline_edit editing_item editing_column editing_column_index
      else
        update_the_database now entry_id field_name editing_item
          editing_column editing_column_index (a_str new_value)
  | _, _, _ => ret tt
  end.

Definition _finish_inline_edit (now : Z) : M unit :=
  e <- gets (fun s => editing_entry (edit s)) ;;
  match e with
  | None => ret tt
  | Some entry_widget =>
      editing_item <- gets (fun s => editing_item (edit s)) ;;
      editing_column <- gets (fun s => editing_column (edit s)) ;;
      index <- gets (fun s => editing_column_index (edit s)) ;;
      match index with
      | None => raise AttributeError
      | Some editing_column_index =>
          got <- try_except
                   (text <- entry_get entry_widget ;; ret (Some (Py.strip text)))
                   (fun e => match e with
                             | TclError => _cancel_inline_edit ;; ret None
                             | _ => raise e
                             end) ;;
          match got with
          | None => ret tt
          | Some new_value =>
              _cancel_inline_edit ;;
              save_inline_value now editing_item editing_column
                editing_column_index new_value
          end
      end
  end.

Definition _check_focus_out (now : Z) : M unit :=
  e <- gets (fun s => editing_entry (edit s)) ;;
  match e with
  | Some w =>
      try_except
        (f <- focus_get w ;;
         match f with
         | Some (inline_entry w') =>
             if (w' =? w)%nat then ret tt else _finish_inline_edit now
         | _ => _finish_inline_edit now
         end)
        (fun e => match e with
                  | TclError => set_editing_entry None
                  | _ => raise e
                  end)
  | None => ret tt
  end.

(** The oldest callback waiting in [after_idle], if any, is taken off
    the queue and called. The window queues no callback but
    [_check_focus_out]. *)
Definition run_idle (now : Z) : M unit :=
  n <- gets (fun s => idle (tk s)) ;;
  match n with
  | S n' =>
      modify (fun s => with_tk (set_idle n' (tk s)) s) ;;
      _check_focus_out now
  | O => ret tt
  end.

(** [self.dialog.update_idletasks()] in [EntryDialog.__init__]: the
    callbacks that wait in [after_idle] are called, oldest first. An
    exception of a callback is reported by Tkinter and the next
    callback is called. *)
Fixpoint call_idle (now : Z) (n : nat) : M unit :=
  match n with
  | O => ret tt
  | S n' => try_except (run_idle now) (fun _ => ret tt) ;; call_idle now n'
  end.

Definition update_idletasks (now : Z) : M unit :=
  n <- gets (fun s => idle (tk s)) ;;
  call_idle now n.

(** [self.dialog.wait_window()]: every save that [_save] refuses shows
    its error box and leaves the dialog open. *)
Fixpoint wait_window (script : list dialog_action) : M unit :=
  match script with
  | press_save f :: script' =>
      match _save f with
      | None => messagebox showerror "Name is required!" ;; wait_window script'
      | Some _ => ret tt
      end
  | _ => ret tt
  end.

(** [EntryDialog(self.root, title, entry_data).show()]: the dialog is
    built, which calls the waiting idle callbacks, then it runs. The
    clock reading is the one of the handler that builds the dialog. *)
Definition EntryDialog (now : Z) (script : list dialog_action)
  : M (option entry_data) :=
  update_idletasks now ;;
  wait_window script ;;
  ret (show script).

Definition _add_entry (now : Z) (script : list dialog_action) : M unit :=
  result <- EntryDialog now script ;;
  match result with
  | Some result =>
      try_except
        (_ <- db_add_entry now result ;;
         _refresh_table ;;
         status_set "Entry added successfully" ;;
         messagebox showinfo "Entry added successfully!")
        (fun e => messagebox showerror ("Failed to add entry: " ++ str_exn e))
  | None => ret tt
  end.

Definition _edit_entry (now : Z) (script : list dialog_action) : M unit :=
  entry_id <- _get_selected_entry_id ;;
  match entry_id with
  | None => messagebox showwarning "Please select an entry to edit."
  | Some 0 => messagebox showwarning "Please select an entry to edit."
  | Some entry_id =>
      entry <- db_get_entry entry_id ;;
      match entry with
      | None => messagebox showerror "Entry not found!"
      | Some _ =>
          result <- EntryDialog now script ;;
          match result with
          | Some result =>
              try_except
                (_ <- db_update_entry_complete now entry_id result ;;
                 _refresh_table ;;
                 status_set "Entry updated successfully" ;;
                 messagebox showinfo "Entry updated successfully!")
                (fun e =>
                   messagebox showerror ("Failed to update entry: " ++ str_exn e))
          | None => ret tt
          end
      end
  end.

(** What a double click hits: the region, the row ([None] for no row)
    and the number [n] of the display column [#n] ([None] for none). *)
Record click : Type := mkClick {
  region : string;
  row_at : option nat;
  column_at : option nat
}.

Definition _on_tree_double_click (now : Z) (event : click)
    (script : list dialog_action) : M unit :=
  e <- gets (fun s => editing_entry (edit s)) ;;
  (match e with Some _ => _cancel_inline_edit | None => ret tt end) ;;
  if negb (region event =? "cell")%string then ret tt
  else
    match row_at event, column_at event with
    | Some item, Some n =>
        let column_index := Z.of_nat n - 1 in
        if (column_index <? 0) || (Z.of_nat (List.length columns) <=? column_index)
        then ret tt
        else
          match nth_error columns (Z.to_nat column_index) with
          | Some column_name =>
              if member column_name non_editable_columns then
                if (column_name =? "ID")%string then _edit_entry now script
                else ret tt
              else _start_inline_edit item column_name (Z.to_nat column_index)
          | None => ret tt
          end
    | _, _ => ret tt
    end.

Definition _handle_return_key (now : Z) (script : list dialog_action) : M unit :=
  e <- gets (fun s => editing_entry (edit s)) ;;
  match e with
  | None => _edit_entry now script
  | Some _ => ret tt
  end.

(** *** Events and the event loop *)

(** What reaches the window: the bound events with what the user will
    answer in the dialogs they open, and the moves of the environment
    (typing, focus, selection, scrolling, the health of the store). A
    handler runs to its end before the next turn of the loop: a modal
    dialog or message box it opens returns the user's answer, and the
    events the toolkit handles while the box is up are not modelled. *)
Inductive event : Type :=
| tree_double_click (event : click) (script : list dialog_action)
| entry_return
| escape_key
| entry_focus_out
| root_return (script : list dialog_action)
| delete_pressed (answer : bool)
| add_pressed (script : list dialog_action)
| edit_pressed (script : list dialog_action)
| refresh_pressed
| search_changed (text : string)
| user_types (w : nat) (text : string)
| focus_moves (f : option widget)
| row_selected (i : nat)
| view_scrolled (hidden : list nat)
| store_health (faults : list bool).

Definition handler (now : Z) (e : event) : M unit :=
  match e with
  | tree_double_click event script => _on_tree_double_click now event script
  | entry_return => _finish_inline_edit now
  | escape_key => _cancel_inline_edit
  | entry_focus_out => after_idle
  | root_return script => _handle_return_key now script
  | delete_pressed answer => _delete_entry answer
  | add_pressed script => _add_entry now script
  | edit_pressed script => _edit_entry now script
  | refresh_pressed => _refresh_table
  | search_changed text =>
      modify (fun s =>
        let t := tk s in
        with_tk (mkTk (entries t) (next_widget t) (focus t) (idle t) (boxes t)
                   (status_var t) text) s) ;;
      _search_entries
  | user_types w text =>
      try_except (entry_insert w text) (fun _ => ret tt)
  | focus_moves f => modify (fun s => with_tk (set_focus f (tk s)) s)
  | row_selected i =>
      try_except
        (_ <- tree_item (Some i) ;;
         modify (fun s =>
           let t := tree s in
           with_tree (mkTree (items t) (next_iid t) [i] (hidden t)) s))
        (fun _ => ret tt)
  | view_scrolled h =>
      modify (fun s =>
        let t := tree s in
        with_tree (mkTree (items t) (next_iid t) (selection t) h) s)
  | store_health f =>
      modify (fun s =>
        let h := handle_of s in
        with_handle (mkHandle (db h) (calls h) f) s)
  end.

Definition dispatch (now : Z) (e : event) (s : gui) : gui :=
  run (handler now e) s.

(** The window after [__init__] on a store [d]. *)
Definition startup (d : database) : gui := run _refresh_table (initial_gui d).

(** A turn of the event loop: an event is delivered, or, the loop being
    idle, the oldest callback of [after_idle] is called. *)
Inductive turn : Type :=
| deliver (e : event)
| idle_callback.

Definition take_turn (now : Z) (t : turn) (s : gui) : gui :=
  match t with
  | deliver e => dispatch now e s
  | idle_callback => run (run_idle now) s
  end.

(** The window after a sequence of turns, each at its clock reading. *)
Definition after_turns (d : database) (trace : list (Z * turn)) : gui :=
  fold_left (fun s t => take_turn (fst t) (snd t) s) trace (startup d).

(** *** Vocabulary of the properties *)

(** The store's keys are distinct, positive and at most the counter:
    what every sequence of store operations keeps, starting from the
    empty table. *)
Definition well_formed (d : database) : Prop :=
  NoDup (map id (table d))
  /\ 0 <= sqlite_sequence d
  /\ Forall (fun r => 0 < id r <= sqlite_sequence d) (table d).

(** The argument given for an amount among the eight optional ones. *)
Definition argument (c : real_column)
    (previous_balance previous_total seller_1 seller_2 seller_3 seller_4
       today_total today_balance : option float) : option float :=
  match c with
  | col_previous_balance => previous_balance
  | col_previous_total => previous_total
  | col_seller_1 => seller_1
  | col_seller_2 => seller_2
  | col_seller_3 => seller_3
  | col_seller_4 => seller_4
  | col_today_total => today_total
  | col_today_balance => today_balance
  end.

(** A name that is empty or made of whitespace only. *)
Fixpoint blank (s : string) : bool :=
  match s with
  | String c s' => Py.isspace c && blank s'
  | EmptyString => true
  end.

(** The specification's reading of the search: [needle] occurs in [hay]
    at some position, letters compared without regard to (ASCII) case. *)
Fixpoint prefix_nocase (needle hay : string) : bool :=
  match needle, hay with
  | EmptyString, _ => true
  | String c needle', String d hay' =>
      Ascii.eqb (Sql.tolower c) (Sql.tolower d) && prefix_nocase needle' hay'
  | String _ _, EmptyString => false
  end.

Fixpoint contains_nocase (needle hay : string) : bool :=
  prefix_nocase needle hay
  || match hay with
     | String _ hay' => contains_nocase needle hay'
     | EmptyString => false
     end.

(** A search text without the two characters [LIKE] reads as patterns. *)
Fixpoint no_wildcard (s : string) : bool :=
  match s with
  | String c s' =>
      negb (Ascii.eqb c "%") && negb (Ascii.eqb c "_") && no_wildcard s'
  | EmptyString => true
  end.

(** Most recently updated first. *)
(** No U+0000 in the string. *)
Fixpoint no_nul (s : string) : bool :=
  match s with
  | String c s' => negb (Ascii.eqb c Ascii.zero) && no_nul s'
  | EmptyString => true
  end.

Definition newest_first (l : list row) : Prop :=
  StronglySorted (fun a b => updated_at b <= updated_at a) l.

(** The inline editors that exist, and the one the window refers to. *)
Definition live_editors (s : gui) : list nat := map fst (entries (tk s)).

Definition referenced (s : gui) : list nat :=
  match editing_entry (edit s) with
  | Some w => [w]
  | None => []
  end.

(** An assignment to [editing_entry] that follows the state machine:
    from no editor to an editor (Idle to Editing), from an editor to
    none (Editing to Idle), or [None] written over [None]. What it must
    never do is write an editor over an editor. *)
Definition documented (write : option nat * option nat) : bool :=
  match write with
  | (Some _, Some _) => false
  | _ => true
  end.

(** The single-editor invariant: the live inline editors are exactly the
    referenced one (so there is at most one), it was created by this
    window, it sits on the column its index names, and every assignment
    to the reference so far was a documented one. *)
Definition single_editor (s : gui) : Prop :=
  live_editors s = referenced s
  /\ (forall w, In w (live_editors s) -> (w < next_widget (tk s))%nat)
  /\ (forall w, editing_entry (edit s) = Some w ->
        exists item c i,
          editing_item (edit s) = Some item
          /\ editing_column (edit s) = Some c
          /\ editing_column_index (edit s) = Some i
          /\ nth_error columns i = Some c)
  /\ forallb documented (writes (edit s)) = true.

(** No inline editor exists and none is referenced. *)
Definition no_editor (s : gui) : Prop :=
  live_editors s = []
  /\ editing_entry (edit s) = None
  /\ forallb documented (writes (edit s)) = true.

(** The focus is on the inline editor [w]. *)
Definition holds_focus (w : nat) (f : option widget) : bool :=
  match f with
  | Some (inline_entry w') => (w' =? w)%nat
  | _ => false
  end.

(** The text typed in the inline editor [w]. *)
Definition typed_text (w : nat) (s : gui) : string :=
  match find (fun e => (fst e =? w)%nat) (entries (tk s)) with
  | Some e => snd e
  | None => ""
  end.

(** A ledger with one record, whose first seller amount is 10. *)
Definition bob : row :=
  mkRow 1 "Bob" None None (Some 10%float) None None None None None 5 5.

Definition ledger_with_bob : database := {| table := [bob]; sqlite_sequence := 1 |}.

(** The user opens the cell Seller 1 of the first row, empties it and
    presses Return. *)
Definition clearing_seller_1 : list (Z * turn) :=
  [(7, deliver (tree_double_click (mkClick "cell" (Some 0%nat) (Some 6%nat)) []));
   (8, deliver (user_types 0 ""));
   (9, deliver entry_return)].

(** A ledger whose only record is named rob. *)
Definition rob : row := mkRow 1 "rob" None None None None None None None None 5 5.

Definition ledger_with_rob : database := {| table := [rob]; sqlite_sequence := 1 |}.

(** A REAL conversion that keeps every float, for the concrete runs. *)
Definition as_given (x : float) : option float := Some x.

(** A ledger with three records, updated at 7, 9 and 8. *)
Definition three_shops : database :=
  {| table :=
       [mkRow 1 "Bob's Store" None None None None None None None None 1 7;
        mkRow 2 "bobby" None None None None None None None None 2 9;
        mkRow 3 "rob" None None None None None None None None 3 8];
     sqlite_sequence := 3 |}.

(** What the invariant looks at. *)
Definition editor_view (s : gui) : list nat * nat * editing :=
  (live_editors s, next_widget (tk s), edit s).

(** A command that leaves a component [view] of the window alone,
    however it ends. *)
Definition preserves {B A : Type} (view : gui -> B) (c : M A) : Prop :=
  forall s, view (snd (c s)) = view s.

(** From a state in [P], a run of [c] that returns ends in [Q] and a
    run that raises ends in [E]. *)
Definition leads {A : Type} (P : gui -> Prop) (c : M A) (Q E : gui -> Prop)
  : Prop :=
  forall s, P s ->
    match fst (c s) with
    | returned _ => Q (snd (c s))
    | raised _ => E (snd (c s))
    end.

(** A call of one of the four methods that write to the store, with
    the clock reading of its statement and the amounts it is given. *)
Inductive store_op : Type :=
| op_add_entry (now : Z) (name : string)
    (amounts : real_column -> option float)
| op_update_entry (now entry_id : Z) (name : option string)
    (amounts : real_column -> option float)
| op_update_entry_complete (now entry_id : Z) (name : string)
    (amounts : real_column -> option float)
| op_delete_entry (entry_id : Z).

Definition apply_op (d : database) (o : store_op) : database :=
  match o with
  | op_add_entry now name0 a =>
      fst (add_entry d now name0 (a col_previous_balance)
             (a col_previous_total) (a col_seller_1) (a col_seller_2)
             (a col_seller_3) (a col_seller_4) (a col_today_total)
             (a col_today_balance))
  | op_update_entry now entry_id name0 a =>
      fst (update_entry d now entry_id name0 (a col_previous_balance)
             (a col_previous_total) (a col_seller_1) (a col_seller_2)
             (a col_seller_3) (a col_seller_4) (a col_today_total)
             (a col_today_balance))
  | op_update_entry_complete now entry_id name0 a =>
      fst (update_entry_complete d now entry_id name0
             (a col_previous_balance) (a col_previous_total) (a col_seller_1)
             (a col_seller_2) (a col_seller_3) (a col_seller_4)
             (a col_today_total) (a col_today_balance))
  | op_delete_entry entry_id => fst (delete_entry d entry_id)
  end.

(** The store after a sequence of writing calls. *)
Definition after_ops (d : database) (ops : list store_op) : database :=
  fold_left apply_op ops d.

(** An amount as the menus read it: nothing, or a number typed on one of
    the lines. *)
Definition typed_on (stdin : list string) (v : option float) : Prop :=
  v = None
  \/ exists line x,
       In line stdin /\ py_float (Py.strip line) = Some x /\ v = Some x.

(** The rows [_refresh_table] and [_search_entries] build from a list of
    records, with item identifiers counted from [first]. *)
Fixpoint rows_of (first : nat) (entries : list row) : list item :=
  match entries with
  | [] => []
  | entry :: entries' =>
      mkItem first (id entry) (display entry) :: rows_of (S first) entries'
  end.

(** What the grid and the store have in common. *)
Definition grid_view (s : gui) : list item * nat * database :=
  (items (tree s), next_iid (tree s), db (handle_of s)).

(** A row of the grid shows a record of the store [d]: its key and the
    texts of its fields as they are now. *)
Definition shows (d : database) (it : item) : Prop :=
  exists r, In r (table d) /\ value_id it = id r /\ value_texts it = display r.

(** Every row of the grid shows a record of the store as it is now, and
    the rows have distinct item identifiers, all handed out already. *)
Definition grid_is_current (s : gui) : Prop :=
  Forall (shows (db (handle_of s))) (items (tree s))
  /\ NoDup (map iid (items (tree s)))
  /\ Forall (fun it => (iid it < next_iid (tree s))%nat) (items (tree s)).

(** Every record has a name. *)
Definition named (d : database) : Prop :=
  Forall (fun r => name r <> "") (table d).

(** A window whose store satisfies [K] and whose grid is current; and a
    window whose store satisfies [K], whatever the grid shows. *)
Definition sound (K : database -> Prop) (s : gui) : Prop :=
  K (db (handle_of s)) /\ grid_is_current s.

Definition written (K : database -> Prop) (s : gui) : Prop :=
  K (db (handle_of s)).

(** The keys are well formed and every record has a name. *)
Definition keyed_and_named (d : database) : Prop := well_formed d /\ named d.

(** The events that cannot write on the store from the state [s]: those
    whose handler makes no call that writes. A dialog closed without an
    accepted save is one, unless a focus check can commit while the
    dialog is open: the Add and Edit buttons while an editor is
    referenced are left out (a double click and Return on the window
    build the dialog without an editor). *)
Definition writes_nothing (e : event) (s : gui) : bool :=
  match e with
  | tree_double_click _ script | root_return script =>
      match show script with
      | Some _ => false
      | None => true
      end
  | add_pressed script | edit_pressed script =>
      match show script, editing_entry (edit s) with
      | None, None => true
      | _, _ => false
      end
  | entry_return | delete_pressed true => false
  | _ => true
  end.

(** The store holds [d] and no editor is referenced: a focus check that
    is called has nothing to commit. *)
Definition quiet (d : database) (s : gui) : Prop :=
  db (handle_of s) = d /\ editing_entry (edit s) = None.

Definition quiet_view (s : gui) : database * option nat :=
  (db (handle_of s), editing_entry (edit s)).

(** The amount behind a column of the grid, through the window's
    [column_to_field] and the parameters of [update_entry]. *)
Definition amount_of (c : string) : option real_column :=
  match dict_get column_to_field (Some c) with
  | Some field_name =>
      match parameter_of field_name with
      | Some (Some col) => Some col
      | _ => None
      end
  | None => None
  end.

(** What a successful inline commit at [now] on the record [r] under
    [key] leaves, [r'] being the record afterwards: the stamps, the
    other records, no editor, the grid filled from the new listing, no
    message box, the status text. *)
Definition committed (now : Z) (c : string) (key : Z) (r r' : row)
    (s s' : gui) : Prop :=
  get_entry (db (handle_of s')) key = Some r'
  /\ created_at r' = created_at r
  /\ updated_at r' = now
  /\ (forall j, j <> key ->
        get_entry (db (handle_of s')) j = get_entry (db (handle_of s)) j)
  /\ no_editor s'
  /\ items (tree s')
     = rows_of (next_iid (tree s)) (get_all_entries (db (handle_of s')))
  /\ boxes (tk s') = boxes (tk s)
  /\ status_var (tk s') = c ++ " updated successfully".

(** The store after the partial update the inline editor asks for when
    [text] is committed in column [c] of the record under [key]. *)
Definition inline_update (d : database) (now key : Z) (c text : string)
  : database :=
  match amount_of c with
  | Some col =>
      let v := _parse_currency text in
      fst (update_entry d now key None
             (keyword col v col_previous_balance)
             (keyword col v col_previous_total) (keyword col v col_seller_1)
             (keyword col v col_seller_2) (keyword col v col_seller_3)
             (keyword col v col_seller_4) (keyword col v col_today_total)
             (keyword col v col_today_balance))
  | None =>
      fst (update_entry d now key (Some text)
             None None None None None None None None)
  end.

(** The key in the first selected row of the grid, if that row exists. *)
Definition selected_key (s : gui) : option Z :=
  match selection (tree s) with
  | [] => None
  | i :: _ =>
      option_map value_id
        (find (fun it => (iid it =? i)%nat) (items (tree s)))
  end.

(** The amounts of a dialog's result, by column. *)
Definition data_amount (c : real_column) (result : entry_data) : option float :=
  argument c (data_previous_balance result) (data_previous_total result)
    (data_seller_1 result) (data_seller_2 result) (data_seller_3 result)
    (data_seller_4 result) (data_today_total result)
    (data_today_balance result).

(** Stand-ins for the library functions in the concrete runs: a [float]
    that reads the text 12.5 and nothing else, and a [str] and a format
    that answer one text for every number. *)
Definition sample_float (s : string) : option float :=
  if (s =? "12.5")%string then Some 12.5%float else None.

Definition sample_text (x : float) : string := "10.0".

Definition no_text {A : Type} (x : A) : string := "".

Definition sample_int (s : string) : option Z :=
  if (s =? "1")%string then Some 1 else None.

(** Seller 1 of the first row is open and 12.5 is typed; the Name cell
    of the first row is open and Ann is typed; the first row is
    selected. *)
Definition typing_seller_1 : list (Z * turn) :=
  [(7, deliver (tree_double_click (mkClick "cell" (Some 0%nat) (Some 6%nat)) []));
   (8, deliver (user_types 0 "12.5"))].

Definition typing_name : list (Z * turn) :=
  [(7, deliver (tree_double_click (mkClick "cell" (Some 0%nat) (Some 3%nat)) []));
   (8, deliver (user_types 0 " Ann "))].

Definition selecting_first_row : list (Z * turn) :=
  [(7, deliver (row_selected 0))].

(** A form with a name and one amount, and the dialog saved with it. *)
Definition ann_form : form := mkForm " Ann " "" "" "12.5" "" "" "" "" "".

Definition saving_ann : list dialog_action := [press_save ann_form].

(** A reader that leaves an end of its input unread. *)
Definition reads_forward {A : Type} (c : cli A) : Prop :=
  forall stdin a rest,
    c stdin = Some (a, rest) -> exists read, stdin = (read ++ rest)%list.

(** A session at the menu: Ann is added with 12.5 as first seller
    amount, the first seller amount of record 1 is set to 12.5 after a
    mistyped answer, record 1 is deleted, and the menu is left. *)
Definition sample_session : list string :=
  ["1"; " Ann "; ""; ""; "12.5"; ""; ""; ""; ""; "";
   "4"; "1"; ""; ""; ""; "x"; "12.5"; ""; ""; ""; ""; "";
   "5"; "1"; " YES ";
   "7"].

(** What was typed in a session that ended with [e]. *)
Definition typed_for (e : session_end) (stdin : list string) : Prop :=
  match e with
  | session_exit => exists line, In line stdin /\ Py.strip line = "7"
  | session_eof => True
  | session_overflow =>
      exists line entry_id,
        In line stdin /\ py_int line = Some entry_id
        /\ sqlite_integer entry_id = false
  | session_operational_error =>
      exists line, In line stdin /\ 49998 < Py.utf8_length (Py.strip line)
  end.

(** The events whose handler may build the entry dialog. *)
Definition builds_dialog (e : event) : bool :=
  match e with
  | tree_double_click _ _ | root_return _ | add_pressed _ | edit_pressed _ =>
      true
  | _ => false
  end.

(** The error boxes of the saves that the dialog refused before it
    returned. *)
Fixpoint refusals (script : list dialog_action) : list (box_kind * string) :=
  match script with
  | press_save f :: script' =>
      match _save f with
      | None => (showerror, "Name is required!") :: refusals script'
      | Some _ => []
      end
  | _ => []
  end.

(** The window once the message boxes [l] have been shown. *)
Definition shown (l : list (box_kind * string)) (s : gui) : gui :=
  let t := tk s in
  with_tk (mkTk (entries t) (next_widget t) (focus t) (idle t)
             (boxes t ++ l) (status_var t) (search_var t)) s.

(** What SQLite keeps of a float bound to a REAL column, for the runs
    that need it: NULL for a NaN, 0.0 for -0.0, the float itself
    otherwise. *)
Definition sqlite_real (x : float) : option float :=
  if PrimFloat.is_nan x then None
  else if PrimFloat.eqb x 0 then Some 0%float
  else Some x.

(** [float()] on the texts of the runs, nan included. *)
Definition sample_float_nan (s : string) : option float :=
  if (s =? "nan")%string then Some nan else sample_float s.

(** A search term of 49999 bytes. *)
Definition long_term : string := N.iter 49999 (String "a") "".

(** * Properties of the store *)

(** ** Rows under UPDATE and DELETE *)

Lemma assign_id (a : assignment) (r : row) : id (assign a r) = id r.
Proof. destruct a; reflexivity. Qed.

Lemma assign_created_at (a : assignment) (r : row) :
  created_at (assign a r) = created_at r.
Proof. destruct a; reflexivity. Qed.

Lemma assign_all_id (set : list assignment) (r : row) :
  id (fold_left (fun r a => assign a r) set r) = id r.
Proof.
  revert r. induction set as [|a set IH]; intros r; simpl; [reflexivity|].
  rewrite IH. apply assign_id.
Qed.

Lemma assign_all_created_at (set : list assignment) (r : row) :
  created_at (fold_left (fun r a => assign a r) set r) = created_at r.
Proof.
  revert r. induction set as [|a set IH]; intros r; simpl; [reflexivity|].
  rewrite IH. apply assign_created_at.
Qed.

Lemma sql_update_table (set : list assignment) (i : Z) (t : list row) :
  fst (sql_update set i t)
  = map (fun r => if id r =? i
                  then fold_left (fun r a => assign a r) set r else r) t.
Proof.
  induction t as [|r t IH]; simpl; [reflexivity|].
  destruct (sql_update set i t) as [u n]. simpl in IH. subst u.
  destruct (id r =? i); reflexivity.
Qed.

Lemma sql_update_rowcount (set : list assignment) (i : Z) (t : list row) :
  0 <= snd (sql_update set i t)
  /\ (0 <? snd (sql_update set i t)) = existsb (fun r => id r =? i) t.
Proof.
  induction t as [|r t [IH1 IH2]]; simpl; [split; [lia|reflexivity]|].
  destruct (sql_update set i t) as [u n]. simpl in *.
  destruct (id r =? i); simpl; split; try lia; try assumption.
Qed.

Lemma sql_update_ids (set : list assignment) (i : Z) (t : list row) :
  map id (fst (sql_update set i t)) = map id t.
Proof.
  rewrite sql_update_table, map_map. apply map_ext. intros r.
  destruct (id r =? i); [apply assign_all_id|reflexivity].
Qed.

Lemma sql_update_absent (set : list assignment) (i : Z) (t : list row) :
  existsb (fun r => id r =? i) t = false -> sql_update set i t = (t, 0).
Proof.
  induction t as [|r t IH]; simpl; [reflexivity|]. intros H.
  apply orb_false_iff in H. destruct H as [Hr Ht].
  rewrite (IH Ht), Hr. reflexivity.
Qed.

Lemma find_existsb (i : Z) (t : list row) :
  existsb (fun r => id r =? i) t
  = match find (fun r => id r =? i) t with Some _ => true | None => false end.
Proof.
  induction t as [|r t IH]; simpl; [reflexivity|].
  destruct (id r =? i); [reflexivity|exact IH].
Qed.

(** Looking a key up after an UPDATE that keeps the keys. *)
Lemma find_after_update (u : row -> row) (i j : Z) (t : list row) :
  (forall r, id (u r) = id r) ->
  find (fun r => id r =? j) (map (fun r => if id r =? i then u r else r) t)
  = if j =? i then option_map u (find (fun r => id r =? j) t)
    else find (fun r => id r =? j) t.
Proof.
  intros Hu. induction t as [|r t IH]; simpl.
  - destruct (j =? i); reflexivity.
  - destruct (id r =? i) eqn:Hi.
    + rewrite Hu. destruct (id r =? j) eqn:Hj.
      * apply Z.eqb_eq in Hi, Hj. subst.
        rewrite Z.eqb_refl. reflexivity.
      * exact IH.
    + destruct (id r =? j) eqn:Hj; [|exact IH].
      apply Z.eqb_eq in Hj. rewrite <- Hj, Hi. reflexivity.
Qed.

(** What the SET items of [update_entry] make of a row. *)
Lemma provided_row (now : Z) (name0 : option string)
    (pb pt s1 s2 s3 s4 tt tb : option float) (r : row) :
  let r' := fold_left (fun r a => assign a r)
              (provided name0 pb pt s1 s2 s3 s4 tt tb ++ [set_updated_at now])%list
              r in
  name r' = match name0 with Some v => v | None => name r end
  /\ updated_at r' = now
  /\ forall c, real_of c r'
               = match argument c pb pt s1 s2 s3 s4 tt tb with
                 | Some v => sql_real v
                 | None => real_of c r
                 end.
Proof.
  unfold provided.
  destruct name0, pb, pt, s1, s2, s3, s4, tt, tb; simpl;
    (split; [reflexivity|split; [reflexivity|intros []; reflexivity]]).
Qed.

Lemma provided_nil (name0 : option string)
    (pb pt s1 s2 s3 s4 tt tb : option float) :
  provided name0 pb pt s1 s2 s3 s4 tt tb = []
  <-> name0 = None /\ forall c, argument c pb pt s1 s2 s3 s4 tt tb = None.
Proof.
  split.
  - unfold provided.
    destruct name0, pb, pt, s1, s2, s3, s4, tt, tb; simpl;
      try discriminate; intros _; split; [reflexivity|intros []; reflexivity].
  - intros [-> H].
    pose proof (H col_previous_balance) as H1.
    pose proof (H col_previous_total) as H2.
    pose proof (H col_seller_1) as H3. pose proof (H col_seller_2) as H4.
    pose proof (H col_seller_3) as H5. pose proof (H col_seller_4) as H6.
    pose proof (H col_today_total) as H7.
    pose proof (H col_today_balance) as H8.
    simpl in *. subst. reflexivity.
Qed.

Lemma update_entry_runs (d : database) (now entry_id : Z)
    (name0 : option string) (pb pt s1 s2 s3 s4 tt tb : option float) :
  provided name0 pb pt s1 s2 s3 s4 tt tb <> [] ->
  update_entry d now entry_id name0 pb pt s1 s2 s3 s4 tt tb
  = (let set := (provided name0 pb pt s1 s2 s3 s4 tt tb
                 ++ [set_updated_at now])%list in
     ({| table := fst (sql_update set entry_id (table d));
         sqlite_sequence := sqlite_sequence d |},
      0 <? snd (sql_update set entry_id (table d)))).
Proof.
  intros Hne. unfold update_entry.
  destruct (provided name0 pb pt s1 s2 s3 s4 tt tb) as [|a l] eqn:E;
    [contradiction|].
  cbv zeta. destruct (sql_update _ entry_id (table d)); reflexivity.
Qed.

(** ** Partial update *)

Lemma update_entry_on_existing
    (d : database) (now entry_id : Z) (name0 : option string)
    (pb pt s1 s2 s3 s4 tt tb : option float) (r : row) :
  get_entry d entry_id = Some r ->
  (name0 <> None \/ exists c, argument c pb pt s1 s2 s3 s4 tt tb <> None) ->
  exists d' r',
    update_entry d now entry_id name0 pb pt s1 s2 s3 s4 tt tb = (d', true)
    /\ get_entry d' entry_id = Some r'
    /\ id r' = id r
    /\ created_at r' = created_at r
    /\ updated_at r' = now
    /\ name r' = match name0 with Some v => v | None => name r end
    /\ (forall c, real_of c r'
                  = match argument c pb pt s1 s2 s3 s4 tt tb with
                    | Some v => sql_real v
                    | None => real_of c r
                    end)
    /\ (forall j, j <> entry_id -> get_entry d' j = get_entry d j)
    /\ map id (table d') = map id (table d)
    /\ sqlite_sequence d' = sqlite_sequence d.
Proof.
  intros Hr Hsome.
  assert (Hne : provided name0 pb pt s1 s2 s3 s4 tt tb <> []).
  { intros E. apply provided_nil in E. destruct E as [E1 E2].
    destruct Hsome as [H|[c H]]; [exact (H E1)|exact (H (E2 c))]. }
  rewrite (update_entry_runs d now entry_id _ _ _ _ _ _ _ _ _ Hne). cbv zeta.
  set (set := (provided name0 pb pt s1 s2 s3 s4 tt tb ++ [set_updated_at now])%list).
  destruct (sql_update_rowcount set entry_id (table d)) as [_ Hcount].
  rewrite find_existsb in Hcount. unfold get_entry in Hr. rewrite Hr in Hcount.
  destruct (provided_row now name0 pb pt s1 s2 s3 s4 tt tb r) as (Hn & Hu & Hc).
  fold set in Hn, Hu, Hc.
  eexists. exists (fold_left (fun r a => assign a r) set r).
  split; [rewrite Hcount; reflexivity|].
  unfold get_entry; simpl. rewrite sql_update_table.
  split.
  { rewrite find_after_update by (intros; apply assign_all_id).
    rewrite Z.eqb_refl, Hr. reflexivity. }
  split; [apply assign_all_id|].
  split; [apply assign_all_created_at|].
  split; [exact Hu|]. split; [exact Hn|]. split; [exact Hc|].
  split.
  { intros j Hj. rewrite find_after_update by (intros; apply assign_all_id).
    destruct (j =? entry_id) eqn:E; [apply Z.eqb_eq in E; contradiction|].
    reflexivity. }
  split; [|reflexivity].
  rewrite <- sql_update_table. apply sql_update_ids.
Qed.

(** C4. For an existing record and a mapping that supplies at least one
    field, [update_entry] succeeds; afterwards the record holds, in
    every supplied field, the supplied value as SQLite stores it, and
    the clock reading in [updated_at]; every field the mapping leaves
    out (the key and [created_at] included) holds exactly its prior
    value; the other records and the key counter are untouched. A field
    is supplied when its argument is not [None]. *)
Theorem update_entry_changes_only_supplied_fields
    (d : database) (now entry_id : Z) (name0 : option string)
    (pb pt s1 s2 s3 s4 tt tb : option float) (r : row) :
  get_entry d entry_id = Some r ->
  (name0 <> None \/ exists c, argument c pb pt s1 s2 s3 s4 tt tb <> None) ->
  exists d' r',
    update_entry d now entry_id name0 pb pt s1 s2 s3 s4 tt tb = (d', true)
    /\ get_entry d' entry_id = Some r'
    /\ id r' = id r
    /\ created_at r' = created_at r
    /\ updated_at r' = now
    /\ name r' = match name0 with Some v => v | None => name r end
    /\ (forall c, real_of c r'
                  = match argument c pb pt s1 s2 s3 s4 tt tb with
                    | Some v => sql_real v
                    | None => real_of c r
                    end)
    /\ (forall j, j <> entry_id -> get_entry d' j = get_entry d j)
    /\ map id (table d') = map id (table d)
    /\ sqlite_sequence d' = sqlite_sequence d.
Proof. apply update_entry_on_existing. Qed.

Lemma update_entry_false
    (d : database) (now entry_id : Z) (name0 : option string)
    (pb pt s1 s2 s3 s4 tt tb : option float) :
  let result := update_entry d now entry_id name0 pb pt s1 s2 s3 s4 tt tb in
  (snd result = false
   <-> get_entry d entry_id = None
       \/ (name0 = None
           /\ forall c, argument c pb pt s1 s2 s3 s4 tt tb = None))
  /\ (snd result = false -> fst result = d).
Proof.
  cbv zeta.
  destruct (provided name0 pb pt s1 s2 s3 s4 tt tb) as [|a l] eqn:E.
  - assert (Hres : update_entry d now entry_id name0 pb pt s1 s2 s3 s4 tt tb
                   = (d, false)).
    { unfold update_entry. rewrite E. reflexivity. }
    rewrite Hres. simpl. apply provided_nil in E.
    split; [split; auto|reflexivity].
  - assert (Hne : provided name0 pb pt s1 s2 s3 s4 tt tb <> [])
      by (rewrite E; discriminate).
    rewrite (update_entry_runs d now entry_id _ _ _ _ _ _ _ _ _ Hne).
    cbv zeta. simpl.
    set (set := (provided name0 pb pt s1 s2 s3 s4 tt tb ++ [set_updated_at now])%list).
    destruct (sql_update_rowcount set entry_id (table d)) as [_ Hcount].
    rewrite Hcount, find_existsb. unfold get_entry.
    destruct (find (fun r => id r =? entry_id) (table d)) as [r|] eqn:Hf.
    + split; [|discriminate]. split; [discriminate|].
      intros [H|H]; [discriminate|]. apply provided_nil in H. contradiction.
    + split; [split; auto|]. intros _.
      assert (Habs : existsb (fun r => id r =? entry_id) (table d) = false)
        by (rewrite find_existsb, Hf; reflexivity).
      rewrite (sql_update_absent set entry_id (table d) Habs).
      destruct d; reflexivity.
Qed.

(** C5, as the code has it. A call of [update_entry] answers [False]
    exactly when the mapping supplies no field, or the key is an
    integer that [sqlite3] can bind and no record has it. When the
    mapping supplies a field and the key is outside the signed 64-bit
    range, no record has the key either, but the call does not answer:
    it raises OverflowError. In both cases the store is the one it was
    given: no field and no [updated_at] has moved. In every other case
    the call answers [True]. *)
Theorem update_entry_fails_iff_absent_or_empty
    (d : database) (now entry_id : Z) (name0 : option string)
    (pb pt s1 s2 s3 s4 tt tb : option float) :
  let empty :=
    name0 = None /\ forall c, argument c pb pt s1 s2 s3 s4 tt tb = None in
  let result :=
    update_entry_call d now entry_id name0 pb pt s1 s2 s3 s4 tt tb in
  (snd result = answered false
   <-> empty \/ (sqlite_integer entry_id = true
                 /\ get_entry d entry_id = None))
  /\ (snd result = fails OverflowError
      <-> ~ empty /\ sqlite_integer entry_id = false)
  /\ (snd result = answered true
      <-> ~ empty /\ sqlite_integer entry_id = true
         /\ get_entry d entry_id <> None)
  /\ (snd result <> answered true -> fst result = d).
Proof.
  cbv zeta. unfold update_entry_call.
  pose proof (provided_nil name0 pb pt s1 s2 s3 s4 tt tb) as Hnil.
  destruct (update_entry_false d now entry_id name0 pb pt s1 s2 s3 s4 tt tb)
    as [Hiff Hsame].
  destruct (provided name0 pb pt s1 s2 s3 s4 tt tb) as [|a l].
  - assert (Hempty : name0 = None
                     /\ forall c, argument c pb pt s1 s2 s3 s4 tt tb = None)
      by (apply Hnil; reflexivity).
    simpl. split; [split; auto|].
    split; [split; [discriminate|intros [H _]; contradiction]|].
    split; [split; [discriminate|intros [H _]; contradiction]|reflexivity].
  - assert (Hsome : ~ (name0 = None
                       /\ forall c, argument c pb pt s1 s2 s3 s4 tt tb = None))
      by (intros H; apply Hnil in H; discriminate).
    destruct (sqlite_integer entry_id) eqn:Hkey.
    + destruct (update_entry d now entry_id name0 pb pt s1 s2 s3 s4 tt tb)
        as [d' updated].
      simpl fst in *. simpl snd in *. destruct updated.
      * assert (Hr : get_entry d entry_id <> None).
        { intros H. destruct Hiff as [_ Hiff].
          specialize (Hiff (or_introl H)). discriminate. }
        split.
        { split; [discriminate|].
          intros [H|[_ H]]; contradiction. }
        split; [split; [discriminate|intros [_ H]; discriminate]|].
        split; [|intros H; exfalso; apply H; reflexivity].
        split; [|reflexivity]. intros _. split; [exact Hsome|].
        split; [reflexivity|exact Hr].
      * assert (Hr : get_entry d entry_id = None).
        { destruct Hiff as [Hiff _].
          destruct (Hiff eq_refl) as [H|H]; [exact H|contradiction]. }
        split.
        { split; [|reflexivity]. intros _. right. split; [reflexivity|exact Hr]. }
        split; [split; [discriminate|intros [_ H]; discriminate]|].
        split; [|intros _; apply Hsame; reflexivity].
        split; [discriminate|]. intros (_ & _ & H). contradiction.
    + simpl. split.
      { split; [discriminate|].
        intros [H|[H _]]; [contradiction|discriminate]. }
      split; [split; [intros _; split; [exact Hsome|reflexivity]|reflexivity]|].
      split; [|reflexivity].
      split; [discriminate|intros (_ & H & _); discriminate].
Qed.

(** ** Full replace *)

Lemma update_entry_complete_runs (d : database) (now entry_id : Z)
    (name0 : string) (pb pt s1 s2 s3 s4 tt tb : option float) :
  update_entry_complete d now entry_id name0 pb pt s1 s2 s3 s4 tt tb
  = (let set :=
       [set_name name0;
        set_real col_previous_balance (stored pb);
        set_real col_previous_total (stored pt);
        set_real col_seller_1 (stored s1);
        set_real col_seller_2 (stored s2);
        set_real col_seller_3 (stored s3);
        set_real col_seller_4 (stored s4);
        set_real col_today_total (stored tt);
        set_real col_today_balance (stored tb);
        set_updated_at now] in
     ({| table := fst (sql_update set entry_id (table d));
         sqlite_sequence := sqlite_sequence d |},
      0 <? snd (sql_update set entry_id (table d)))).
Proof.
  unfold update_entry_complete. cbv zeta.
  destruct (sql_update _ entry_id (table d)); reflexivity.
Qed.

Lemma update_entry_complete_on_existing
    (d : database) (now entry_id : Z) (name0 : string)
    (pb pt s1 s2 s3 s4 tt tb : option float) (r : row) :
  get_entry d entry_id = Some r ->
  exists d' r',
    update_entry_complete d now entry_id name0 pb pt s1 s2 s3 s4 tt tb
    = (d', true)
    /\ get_entry d' entry_id = Some r'
    /\ id r' = id r
    /\ created_at r' = created_at r
    /\ updated_at r' = now
    /\ name r' = name0
    /\ (forall c, real_of c r' = stored (argument c pb pt s1 s2 s3 s4 tt tb))
    /\ (forall j, j <> entry_id -> get_entry d' j = get_entry d j)
    /\ map id (table d') = map id (table d)
    /\ sqlite_sequence d' = sqlite_sequence d.
Proof.
  intros Hr. rewrite update_entry_complete_runs. cbv zeta.
  match goal with |- context [sql_update ?l _ _] => set (set := l) end.
  destruct (sql_update_rowcount set entry_id (table d)) as [_ Hcount].
  rewrite find_existsb in Hcount. unfold get_entry in Hr. rewrite Hr in Hcount.
  eexists. exists (fold_left (fun r a => assign a r) set r).
  split; [rewrite Hcount; reflexivity|].
  unfold get_entry; simpl table. rewrite sql_update_table.
  split.
  { rewrite find_after_update by (intros; apply assign_all_id).
    rewrite Z.eqb_refl, Hr. reflexivity. }
  split; [apply assign_all_id|].
  split; [apply assign_all_created_at|].
  split; [reflexivity|]. split; [reflexivity|].
  split; [intros []; reflexivity|].
  split.
  { intros j Hj. rewrite find_after_update by (intros; apply assign_all_id).
    destruct (j =? entry_id) eqn:E; [apply Z.eqb_eq in E; contradiction|].
    reflexivity. }
  split; [|reflexivity].
  rewrite <- sql_update_table. apply sql_update_ids.
Qed.

Lemma update_entry_complete_on_absent
    (d : database) (now entry_id : Z) (name0 : string)
    (pb pt s1 s2 s3 s4 tt tb : option float) :
  get_entry d entry_id = None ->
  update_entry_complete d now entry_id name0 pb pt s1 s2 s3 s4 tt tb
  = (d, false).
Proof.
  intros Hr. unfold update_entry_complete.
  assert (Habs : existsb (fun r => id r =? entry_id) (table d) = false)
    by (rewrite find_existsb; unfold get_entry in Hr; rewrite Hr; reflexivity).
  rewrite (sql_update_absent _ entry_id (table d) Habs).
  destruct d; reflexivity.
Qed.

(** C6, as the code has it. The key of a record is an integer that
    [sqlite3] can bind. On such a record a call of
    [update_entry_complete] answers [True] and rewrites the name and
    the eight amounts from its arguments, each in its own column: an
    amount given as a number holds what SQLite stores for that number,
    and an amount given as [None] is NULL afterwards whatever it held
    before; the key and [created_at] stay, [updated_at] is the clock
    reading, and the other records are untouched. On a bindable key
    that no record has, the call answers [False] and returns the store
    unchanged. On a key outside the signed 64-bit range, which no
    record has either, the call does not answer: it raises
    OverflowError, the store unchanged. *)
Theorem update_entry_complete_rewrites_every_field
    (d : database) (now entry_id : Z) (name0 : string)
    (pb pt s1 s2 s3 s4 tt tb : option float) :
  let result :=
    update_entry_complete_call d now entry_id name0 pb pt s1 s2 s3 s4 tt tb in
  (forall r, sqlite_integer entry_id = true ->
     get_entry d entry_id = Some r ->
     exists r',
       snd result = answered true
       /\ get_entry (fst result) entry_id = Some r'
       /\ id r' = id r
       /\ name r' = name0
       /\ previous_balance r'
          = match pb with Some x => sql_real x | None => None end
       /\ previous_total r'
          = match pt with Some x => sql_real x | None => None end
       /\ seller_1 r' = match s1 with Some x => sql_real x | None => None end
       /\ seller_2 r' = match s2 with Some x => sql_real x | None => None end
       /\ seller_3 r' = match s3 with Some x => sql_real x | None => None end
       /\ seller_4 r' = match s4 with Some x => sql_real x | None => None end
       /\ today_total r'
          = match tt with Some x => sql_real x | None => None end
       /\ today_balance r'
          = match tb with Some x => sql_real x | None => None end
       /\ updated_at r' = now
       /\ created_at r' = created_at r
       /\ (forall j, j <> entry_id ->
             get_entry (fst result) j = get_entry d j)
       /\ map id (table (fst result)) = map id (table d)
       /\ sqlite_sequence (fst result) = sqlite_sequence d)
  /\ (sqlite_integer entry_id = true -> get_entry d entry_id = None ->
      result = (d, answered false))
  /\ (sqlite_integer entry_id = false -> result = (d, fails OverflowError)).
Proof.
  cbv zeta. unfold update_entry_complete_call.
  destruct (sqlite_integer entry_id) eqn:Hkey.
  - split; [|split; [|discriminate]].
    + intros r _ Hr.
      destruct (update_entry_complete_on_existing d now entry_id name0
                  pb pt s1 s2 s3 s4 tt tb r Hr)
        as (d' & r' & H1 & H2 & H3 & H4 & H5 & H6 & H7 & H8 & H9 & H10).
      rewrite H1. simpl fst. simpl snd. exists r'.
      split; [reflexivity|]. split; [exact H2|]. split; [exact H3|].
      split; [exact H6|].
      pose proof (H7 col_previous_balance) as A1.
      pose proof (H7 col_previous_total) as A2.
      pose proof (H7 col_seller_1) as A3. pose proof (H7 col_seller_2) as A4.
      pose proof (H7 col_seller_3) as A5. pose proof (H7 col_seller_4) as A6.
      pose proof (H7 col_today_total) as A7.
      pose proof (H7 col_today_balance) as A8.
      unfold stored in *. simpl in A1, A2, A3, A4, A5, A6, A7, A8.
      repeat (split; [assumption|]). assumption.
    + intros _ Hr.
      rewrite (update_entry_complete_on_absent d now entry_id name0
                 pb pt s1 s2 s3 s4 tt tb Hr).
      reflexivity.
  - split; [intros r H; discriminate|]. split; [discriminate|reflexivity].
Qed.

(** ** Create *)

Lemma strip_blank (s : string) : blank s = true <-> Py.strip s = "".
Proof.
  unfold Py.strip. split.
  - intros H. replace (Py.lstrip s) with ""; [reflexivity|].
    induction s as [|c s IH]; simpl in *; [reflexivity|].
    apply andb_true_iff in H. destruct H as [Hc Hs]. rewrite Hc. auto.
  - assert (Hr : forall x, Py.rstrip x = "" -> blank x = true).
    { induction x as [|c x IH]; simpl; [reflexivity|].
      destruct (Py.rstrip x); [|discriminate].
      destruct (Py.isspace c); [auto|discriminate]. }
    intros H. apply Hr in H. clear Hr.
    induction s as [|c s IH]; simpl in *; [reflexivity|].
    destruct (Py.isspace c) eqn:Hc; [auto|].
    simpl in H. rewrite Hc in H. discriminate.
Qed.

Lemma find_fresh (i : Z) (t : list row) (r : row) :
  ~ In i (map id t) -> id r = i ->
  find (fun x => id x =? i) (t ++ [r]) = Some r.
Proof.
  intros Hfresh Hid. induction t as [|x t IH]; simpl.
  - rewrite Hid, Z.eqb_refl. reflexivity.
  - destruct (id x =? i) eqn:E.
    + apply Z.eqb_eq in E. exfalso. apply Hfresh. left. exact E.
    + apply IH. intros H. apply Hfresh. right. exact H.
Qed.

Lemma find_old (i j : Z) (t : list row) (r : row) :
  id r = i -> j <> i ->
  find (fun x => id x =? j) (t ++ [r]) = find (fun x => id x =? j) t.
Proof.
  intros Hid Hj. induction t as [|x t IH]; simpl.
  - rewrite Hid. destruct (i =? j) eqn:E; [|reflexivity].
    apply Z.eqb_eq in E. congruence.
  - destruct (id x =? j); [reflexivity|exact IH].
Qed.

Lemma add_entry_on_well_formed
    (d : database) (now : Z) (name0 : string)
    (pb pt s1 s2 s3 s4 tt tb : option float) :
  well_formed d ->
  let new_id := sqlite_sequence d + 1 in
  let r := mkRow new_id name0 (stored pb) (stored pt) (stored s1) (stored s2)
             (stored s3) (stored s4) (stored tt) (stored tb) now now in
  let d' := {| table := table d ++ [r]; sqlite_sequence := new_id |} in
  add_entry d now name0 pb pt s1 s2 s3 s4 tt tb = (d', new_id)
  /\ ~ In new_id (map id (table d))
  /\ get_entry d' new_id = Some r
  /\ (forall j, j <> new_id -> get_entry d' j = get_entry d j)
  /\ well_formed d'.
Proof.
  intros (Hnodup & Hseq & Hrange). cbv zeta.
  assert (Hfresh : ~ In (sqlite_sequence d + 1) (map id (table d))).
  { intros H. apply in_map_iff in H. destruct H as (x & Hx & Hin).
    rewrite Forall_forall in Hrange. specialize (Hrange x Hin). lia. }
  split; [reflexivity|]. split; [exact Hfresh|].
  split; [apply find_fresh; [exact Hfresh|reflexivity]|].
  split; [intros j Hj;
          apply find_old with (i := sqlite_sequence d + 1);
          [reflexivity|exact Hj]|].
  split; [|split]; simpl.
  - rewrite map_app. simpl. apply NoDup_app; [exact Hnodup| |].
    + constructor; [intros []|constructor].
    + intros x Hx [<-|[]]. exact (Hfresh Hx).
  - lia.
  - apply Forall_app. split.
    + eapply Forall_impl; [|exact Hrange]. simpl. intros x Hx. lia.
    + constructor; [|constructor]. simpl. lia.
Qed.

Lemma add_entry_menu_refuses_blank (d : database) (now : Z)
    (line : string) (stdin : list string) :
  blank line = true ->
  add_entry_menu d now (line :: stdin) = (d, name_is_required).
Proof.
  intros H. apply strip_blank in H. unfold add_entry_menu.
  rewrite H. reflexivity.
Qed.

Lemma save_refuses_blank (f : form) : blank (name_var f) = true -> _save f = None.
Proof.
  intros H. apply strip_blank in H. unfold _save. rewrite H. reflexivity.
Qed.

Lemma show_name_not_empty (script : list dialog_action) (result : entry_data) :
  show script = Some result -> data_name result <> "".
Proof.
  induction script as [|[f|] script IH]; simpl; try discriminate.
  unfold _save. destruct (Py.strip (name_var f)) as [|c n] eqn:E; simpl.
  - exact IH.
  - intros H. inversion H. simpl. discriminate.
Qed.

(** C2, as the code has it. [add_entry] itself checks nothing: for every
    name, the empty and the whitespace-only ones included, and every
    choice of optional amounts, it appends one record under a key that
    no record had, with [created_at] equal to [updated_at], the given
    name, and NULL in every amount that was not given. The refusal of a
    blank name is the callers': the menu that creates entries and the
    dialog's save strip the name and, when nothing is left, insert
    nothing. *)
Theorem add_entry_inserts_any_name
    (d : database) (now : Z) (name0 : string)
    (pb pt s1 s2 s3 s4 tt tb : option float) :
  well_formed d ->
  let result := add_entry d now name0 pb pt s1 s2 s3 s4 tt tb in
  (exists r,
     table (fst result) = (table d ++ [r])%list
     /\ get_entry (fst result) (snd result) = Some r
     /\ id r = snd result
     /\ name r = name0
     /\ created_at r = updated_at r
     /\ forall c, argument c pb pt s1 s2 s3 s4 tt tb = None ->
                  real_of c r = None)
  /\ ~ In (snd result) (map id (table d))
  /\ (forall line stdin, blank line = true ->
        add_entry_menu d now (line :: stdin) = (d, name_is_required))
  /\ (forall f, blank (name_var f) = true -> _save f = None).
Proof.
  intros Hwf. cbv zeta.
  destruct (add_entry_on_well_formed d now name0 pb pt s1 s2 s3 s4 tt tb Hwf)
    as (Hadd & Hfresh & Hget & _ & _).
  rewrite Hadd. simpl fst. simpl snd.
  split; [|split; [exact Hfresh|split]].
  - eexists. split; [reflexivity|]. split; [exact Hget|].
    repeat (split; [reflexivity|]).
    intros [] Hc; simpl in *; rewrite Hc; reflexivity.
  - intros line stdin. apply add_entry_menu_refuses_blank.
  - exact save_refuses_blank.
Qed.

(** C3, as the code has it. The store keeps the name it is given: after
    a successful [add_entry] or [update_entry_complete] the record's
    name is the caller's argument, hence not empty whenever the caller
    passes a name that is not empty; and the names that come out of the
    entry dialog are never empty. *)
Theorem stored_name_is_the_callers
    (d : database) (now entry_id : Z) (name0 : string)
    (pb pt s1 s2 s3 s4 tt tb : option float) :
  well_formed d ->
  name0 <> "" ->
  (let result := add_entry d now name0 pb pt s1 s2 s3 s4 tt tb in
   exists r, get_entry (fst result) (snd result) = Some r
             /\ name r = name0 /\ name r <> "")
  /\ (forall d',
        update_entry_complete d now entry_id name0 pb pt s1 s2 s3 s4 tt tb
        = (d', true) ->
        exists r, get_entry d' entry_id = Some r
                  /\ name r = name0 /\ name r <> "")
  /\ (forall script result, show script = Some result ->
        data_name result <> "").
Proof.
  intros Hwf Hname. split; [|split].
  - cbv zeta.
    destruct (add_entry_on_well_formed d now name0 pb pt s1 s2 s3 s4 tt tb Hwf)
      as (Hadd & _ & Hget & _ & _).
    rewrite Hadd. simpl fst. simpl snd.
    eexists. split; [exact Hget|]. split; [reflexivity|exact Hname].
  - intros d' H.
    destruct (get_entry d entry_id) as [r|] eqn:Hr.
    + destruct (update_entry_complete_on_existing d now entry_id name0
                  pb pt s1 s2 s3 s4 tt tb r Hr)
        as (d'' & r' & H1 & H2 & _ & _ & _ & H6 & _).
      rewrite H in H1. inversion H1; subst d''.
      exists r'. split; [exact H2|]. split; [exact H6|].
      rewrite H6. exact Hname.
    + rewrite (update_entry_complete_on_absent d now entry_id name0
                 pb pt s1 s2 s3 s4 tt tb Hr) in H.
      discriminate.
  - exact show_name_not_empty.
Qed.

(** ** Keys *)

Lemma empty_database_well_formed : well_formed empty_database.
Proof. repeat split; simpl; try lia; constructor. Qed.

Lemma well_formed_same_keys (d d' : database) :
  map id (table d') = map id (table d) ->
  sqlite_sequence d' = sqlite_sequence d ->
  well_formed d -> well_formed d'.
Proof.
  intros Hids Hseq (Hn & H0 & Hr). unfold well_formed.
  rewrite Hids, Hseq. repeat split; try assumption.
  apply Forall_forall. intros r Hin.
  assert (Hi : In (id r) (map id (table d)))
    by (rewrite <- Hids; apply in_map; exact Hin).
  apply in_map_iff in Hi. destruct Hi as (x & Hx & Hin').
  rewrite Forall_forall in Hr. rewrite <- Hx. apply Hr, Hin'.
Qed.

Lemma update_entry_well_formed (d : database) (now entry_id : Z)
    (name0 : option string) (pb pt s1 s2 s3 s4 tt tb : option float) :
  well_formed d ->
  well_formed (fst (update_entry d now entry_id name0 pb pt s1 s2 s3 s4 tt tb)).
Proof.
  intros Hwf.
  destruct (provided name0 pb pt s1 s2 s3 s4 tt tb) as [|a l] eqn:E.
  - unfold update_entry. rewrite E. exact Hwf.
  - assert (Hne : provided name0 pb pt s1 s2 s3 s4 tt tb <> [])
      by (rewrite E; discriminate).
    rewrite (update_entry_runs d now entry_id _ _ _ _ _ _ _ _ _ Hne).
    apply (well_formed_same_keys d); [apply sql_update_ids|reflexivity|exact Hwf].
Qed.

Lemma update_entry_complete_well_formed (d : database) (now entry_id : Z)
    (name0 : string) (pb pt s1 s2 s3 s4 tt tb : option float) :
  well_formed d ->
  well_formed
    (fst (update_entry_complete d now entry_id name0 pb pt s1 s2 s3 s4 tt tb)).
Proof.
  intros Hwf. rewrite update_entry_complete_runs.
  apply (well_formed_same_keys d); [apply sql_update_ids|reflexivity|exact Hwf].
Qed.

Lemma sql_delete_table (i : Z) (t : list row) :
  fst (sql_delete i t) = filter (fun r => negb (id r =? i)) t.
Proof.
  induction t as [|r t IH]; simpl; [reflexivity|].
  destruct (sql_delete i t) as [u n]. simpl in IH. subst u.
  destruct (id r =? i); reflexivity.
Qed.

Lemma delete_entry_well_formed (d : database) (entry_id : Z) :
  well_formed d -> well_formed (fst (delete_entry d entry_id)).
Proof.
  intros (Hn & H0 & Hr). unfold delete_entry.
  pose proof (sql_delete_table entry_id (table d)) as Ht.
  destruct (sql_delete entry_id (table d)) as [u n]. simpl in *. subst u.
  repeat split; simpl; [|exact H0|].
  - clear Hr. induction (table d) as [|r t IH]; simpl; [constructor|].
    inversion Hn as [|? ? Hnot Hrest]; subst.
    destruct (negb (id r =? entry_id)); simpl; [|apply IH, Hrest].
    constructor; [|apply IH, Hrest].
    intros Hin. apply Hnot. apply in_map_iff in Hin.
    destruct Hin as (x & Hx & Hin). apply filter_In in Hin.
    rewrite <- Hx. apply in_map, Hin.
  - apply Forall_forall. intros r Hin. apply filter_In in Hin.
    rewrite Forall_forall in Hr. apply Hr, Hin.
Qed.

(** ** Search and listing *)

Lemma insert_desc_perm (r : row) (l : list row) :
  Permutation (insert_desc r l) (r :: l).
Proof.
  induction l as [|x l IH]; simpl; [reflexivity|].
  destruct (updated_at x <=? updated_at r); [reflexivity|].
  rewrite IH. apply perm_swap.
Qed.

Lemma order_by_perm (l : list row) :
  Permutation (order_by_updated_at_desc l) l.
Proof.
  induction l as [|r l IH]; simpl; [reflexivity|].
  rewrite insert_desc_perm. constructor. exact IH.
Qed.

Lemma insert_desc_sorted (r : row) (l : list row) :
  newest_first l -> newest_first (insert_desc r l).
Proof.
  unfold newest_first. induction l as [|x l IH]; intros Hs; simpl.
  - constructor; constructor.
  - inversion Hs as [|? ? Hl Hx]; subst.
    destruct (updated_at x <=? updated_at r) eqn:E.
    + apply Z.leb_le in E. constructor; [exact Hs|].
      constructor; [exact E|].
      eapply Forall_impl; [|exact Hx]. simpl. intros; lia.
    + apply Z.leb_gt in E. constructor; [apply IH; exact Hl|].
      eapply Permutation_Forall.
      * symmetry. apply insert_desc_perm.
      * constructor; [lia|exact Hx].
Qed.

Lemma order_by_sorted (l : list row) : newest_first (order_by_updated_at_desc l).
Proof.
  induction l as [|r l IH]; simpl; [constructor|].
  apply insert_desc_sorted. exact IH.
Qed.

(** The rows [search_by_name] returns are the rows of the table whose
    name the LIKE pattern accepts, most recently updated first. *)
Lemma search_by_name_rows (d : database) (text : string) :
  Permutation (search_by_name d text)
    (filter (fun r => Sql.like ("%" ++ text ++ "%") (name r)) (table d))
  /\ newest_first (search_by_name d text).
Proof.
  split; [apply order_by_perm|apply order_by_sorted].
Qed.

Lemma for_all_characters (P : ascii -> bool) :
  forallb P (map ascii_of_nat (seq 0 256)) = true -> forall c, P c = true.
Proof.
  intros H c. rewrite forallb_forall in H. apply H.
  apply in_map_iff. exists (nat_of_ascii c).
  split; [apply ascii_nat_embedding|].
  apply in_seq. pose proof (nat_ascii_bounded c). lia.
Qed.

Lemma like_char_fold (c d : ascii) :
  Sql.like_char c d = Ascii.eqb (Sql.tolower c) (Sql.tolower d).
Proof.
  apply eqb_prop.
  revert d. apply for_all_characters. revert c.
  apply (for_all_characters
           (fun c => forallb
                       (fun d => Bool.eqb (Sql.like_char c d)
                                   (Ascii.eqb (Sql.tolower c) (Sql.tolower d)))
                       (map ascii_of_nat (seq 0 256)))).
  vm_compute. reflexivity.
Qed.

Lemma like_any_run (p h : string) :
  Sql.patternCompare (String "%" p) h
  = Sql.patternCompare p h
    || match h with
       | String _ h' => Sql.patternCompare (String "%" p) h'
       | EmptyString => false
       end.
Proof. destruct h; reflexivity. Qed.

Lemma like_percent (h : string) : Sql.patternCompare "%" h = true.
Proof.
  induction h as [|c h IH]; [reflexivity|].
  rewrite like_any_run, IH. apply orb_true_r.
Qed.

Lemma like_prefix (needle h : string) :
  no_wildcard needle = true ->
  Sql.patternCompare (needle ++ "%") h = prefix_nocase needle h.
Proof.
  revert h. induction needle as [|c needle IH]; intros h Hn.
  - simpl append. rewrite like_percent. destruct h; reflexivity.
  - simpl in Hn. apply andb_true_iff in Hn. destruct Hn as [Hn Hrest].
    apply andb_true_iff in Hn. destruct Hn as [Hp Hu].
    apply negb_true_iff in Hp, Hu.
    simpl. rewrite Hp, Hu. destruct h as [|e h]; [reflexivity|].
    rewrite like_char_fold, (IH h Hrest). reflexivity.
Qed.

Lemma like_contains (needle h : string) :
  no_wildcard needle = true ->
  Sql.patternCompare ("%" ++ needle ++ "%") h = contains_nocase needle h.
Proof.
  intros Hn. induction h as [|c h IH].
  - simpl append. rewrite like_any_run, (like_prefix needle "" Hn).
    simpl. reflexivity.
  - simpl append in *. rewrite like_any_run, (like_prefix needle _ Hn), IH.
    reflexivity.
Qed.

Lemma c_string_no_nul (s : string) : no_nul s = true -> Sql.c_string s = s.
Proof.
  induction s as [|c s IH]; simpl; [reflexivity|]. intros H.
  apply andb_true_iff in H. destruct H as [Hc Hs].
  apply negb_true_iff in Hc. rewrite Hc, (IH Hs). reflexivity.
Qed.

Lemma no_nul_app (s t : string) :
  no_nul (s ++ t) = no_nul s && no_nul t.
Proof.
  induction s as [|c s IH]; simpl; [reflexivity|].
  rewrite IH. apply andb_assoc.
Qed.

(** The pattern of a search for a text without U+0000 is read whole. *)
Lemma like_search_pattern (text h : string) :
  no_wildcard text = true -> no_nul text = true ->
  Sql.like ("%" ++ text ++ "%") h = contains_nocase text (Sql.c_string h).
Proof.
  intros Hw Hn. unfold Sql.like. rewrite c_string_no_nul.
  - apply like_contains, Hw.
  - change (no_nul (String "%" (text ++ "%")) = true). simpl.
    rewrite no_nul_app, Hn. reflexivity.
Qed.

Lemma utf8_length_app (s t : string) :
  Py.utf8_length (s ++ t) = Py.utf8_length s + Py.utf8_length t.
Proof.
  induction s as [|c s IH]; simpl; [reflexivity|]. rewrite IH. lia.
Qed.

Lemma search_pattern_length (text : string) :
  Py.utf8_length ("%" ++ text ++ "%") = Py.utf8_length text + 2.
Proof.
  rewrite !utf8_length_app. change (Py.utf8_length "%") with 1. lia.
Qed.

(** Where the search does what the specification says. For a text that
    holds neither [%] nor [_] nor U+0000, a call of [search_by_name]
    that returns gives the records whose name, read up to its first
    U+0000 if it has one, contains the text, ASCII case ignored, most
    recently updated first. The call returns whenever the table is
    empty or the text takes at most 49998 bytes; on a longer text and a
    table that is not empty it raises OperationalError. *)
Theorem search_by_name_without_wildcards (d : database) (text : string) :
  no_wildcard text = true ->
  no_nul text = true ->
  match search_by_name_call d text with
  | answered entries =>
      (table d = [] \/ Py.utf8_length text <= 49998)
      /\ Permutation entries
           (filter (fun r => contains_nocase text (Sql.c_string (name r)))
              (table d))
      /\ newest_first entries
  | fails e =>
      e = OperationalError /\ table d <> [] /\ 49998 < Py.utf8_length text
  end.
Proof.
  intros Hw Hn. unfold search_by_name_call. cbv zeta.
  rewrite search_pattern_length. unfold Sql.max_like_pattern_length.
  assert (Hrows : Permutation (search_by_name d text)
             (filter (fun r => contains_nocase text (Sql.c_string (name r)))
                (table d))
           /\ newest_first (search_by_name d text)).
  { destruct (search_by_name_rows d text) as [Hp Hs].
    split; [|exact Hs].
    rewrite Hp. erewrite filter_ext; [reflexivity|].
    intros r. simpl. apply like_search_pattern; assumption. }
  destruct (table d) as [|r t] eqn:Ht; simpl andb.
  - split; [left; reflexivity|exact Hrows].
  - destruct (50000 <? Py.utf8_length text + 2) eqn:E.
    + apply Z.ltb_lt in E. split; [reflexivity|]. split; [discriminate|lia].
    + apply Z.ltb_ge in E. split; [right; lia|exact Hrows].
Qed.

(** * Properties of the inline editor *)

(** ** Commands that leave a part of the window alone *)

Section Frames.

Context {B : Type} (view : gui -> B).

Lemma preserves_ret {A : Type} (a : A) : preserves view (ret a).
Proof. intros s. reflexivity. Qed.

Lemma preserves_raise {A : Type} (e : exn) : preserves view (@raise A e).
Proof. intros s. reflexivity. Qed.

Lemma preserves_gets {A : Type} (f : gui -> A) : preserves view (gets f).
Proof. intros s. reflexivity. Qed.

Lemma preserves_modify (f : gui -> gui) :
  (forall s, view (f s) = view s) -> preserves view (modify f).
Proof. intros H s. apply H. Qed.

Lemma preserves_bind {A C : Type} (c : M A) (k : A -> M C) :
  preserves view c -> (forall a, preserves view (k a)) ->
  preserves view (bindM c k).
Proof.
  intros Hc Hk s. unfold bindM. specialize (Hc s).
  destruct (c s) as [[a|e] s']; simpl in *.
  - rewrite Hk. exact Hc.
  - exact Hc.
Qed.

Lemma preserves_try {A : Type} (c : M A) (h : exn -> M A) :
  preserves view c -> (forall e, preserves view (h e)) ->
  preserves view (try_except c h).
Proof.
  intros Hc Hh s. unfold try_except. specialize (Hc s).
  destruct (c s) as [[a|e] s']; simpl in *.
  - exact Hc.
  - rewrite Hh. exact Hc.
Qed.

Lemma preserves_on_entry {A : Type} (w : nat) (c : M A) :
  preserves view c -> preserves view (on_entry w c).
Proof.
  intros Hc s. unfold on_entry. destruct (has_entry w (tk s)); [apply Hc|].
  reflexivity.
Qed.

Lemma preserves_tree_item (i : option nat) : preserves view (tree_item i).
Proof.
  intros s. unfold tree_item. destruct i as [i|]; [|reflexivity].
  destruct (find _ _); reflexivity.
Qed.

End Frames.

Ltac frame_step :=
  first
    [ apply preserves_ret
    | apply preserves_raise
    | apply preserves_gets
    | apply preserves_tree_item
    | apply preserves_bind; [|intros ?]
    | apply preserves_try; [|intros ?]
    | apply preserves_on_entry
    | apply preserves_modify; intros ?; reflexivity
    | match goal with
      | |- preserves _ (match ?x with _ => _ end) => destruct x
      end
    | assumption ].

Ltac frame := repeat frame_step.

Lemma store_do_view {A : Type} (c : store_call) (f : database -> database * A) :
  preserves editor_view (store_do c f).
Proof.
  intros s. unfold store_do.
  destruct (faults (handle_of s)) as [|[] rest];
    try destruct (f (db (handle_of s))); reflexivity.
Qed.

Lemma store_do_idle {A : Type} (c : store_call) (f : database -> database * A) :
  preserves (fun s => idle (tk s)) (store_do c f).
Proof.
  intros s. unfold store_do.
  destruct (faults (handle_of s)) as [|[] rest];
    try destruct (f (db (handle_of s))); reflexivity.
Qed.

Lemma entry_insert_view (w : nat) (text : string) :
  preserves editor_view (entry_insert w text).
Proof.
  unfold entry_insert. apply preserves_on_entry, preserves_modify.
  intros s. unfold editor_view, live_editors. simpl.
  rewrite map_map. f_equal. f_equal. apply map_ext.
  intros [w' t]. simpl. destruct (w' =? w)%nat eqn:E; [|reflexivity].
  apply Nat.eqb_eq in E. subst. reflexivity.
Qed.

Ltac unfold_commands :=
  unfold db_update_entry, db_update_entry_complete, db_add_entry, db_get_entry,
    db_get_all_entries, db_search_by_name, db_delete_entry, tree_bbox,
    tree_delete_children, tree_insert, entry_focus, entry_get, entry_destroy,
    focus_get, after_idle, messagebox, status_set, set_editing_entry,
    set_editing_item, set_editing_column, set_editing_column_index, parse_cell.

Create HintDb frames.

Ltac frames :=
  unfold_commands;
  repeat first
    [ solve [auto 1 with frames nocore]
    | apply store_do_view
    | apply store_do_idle
    | apply entry_insert_view
    | frame_step ].

Lemma insert_entries_view (l : list row) : preserves editor_view (insert_entries l).
Proof. induction l as [|r l IH]; simpl; frames. Qed.
#[local] Hint Resolve insert_entries_view : frames.

Lemma refresh_view : preserves editor_view _refresh_table.
Proof. unfold _refresh_table. frames. Qed.
#[local] Hint Resolve refresh_view : frames.

Lemma search_view : preserves editor_view _search_entries.
Proof. unfold _search_entries. frames. Qed.
#[local] Hint Resolve search_view : frames.

Lemma selected_view : preserves editor_view _get_selected_entry_id.
Proof. unfold _get_selected_entry_id. frames. Qed.
#[local] Hint Resolve selected_view : frames.

Lemma wait_window_view (script : list dialog_action) :
  preserves editor_view (wait_window script).
Proof. induction script as [|[f|] script IH]; simpl; frames. Qed.
#[local] Hint Resolve wait_window_view : frames.

(** The editor's own commands never reach the store or the table. *)
Lemma cancel_handle : preserves handle_of _cancel_inline_edit.
Proof. unfold _cancel_inline_edit. frames. Qed.

Lemma start_handle (item : nat) (c : string) (i : nat) :
  preserves handle_of (_start_inline_edit item c i).
Proof.
  unfold _start_inline_edit, entry_new, entry_insert. frames.
Qed.

(** ** The editing state machine *)

Lemma single_editor_view (s s' : gui) :
  editor_view s' = editor_view s -> single_editor s -> single_editor s'.
Proof.
  unfold editor_view, single_editor, referenced. intros E.
  inversion E as [[E1 E2 E3]]. rewrite E1, E2, E3. auto.
Qed.

Lemma no_editor_view (s s' : gui) :
  editor_view s' = editor_view s -> no_editor s -> no_editor s'.
Proof.
  unfold editor_view, no_editor. intros E.
  inversion E as [[E1 E2 E3]]. rewrite E1, E3. auto.
Qed.

Lemma no_editor_single (s : gui) : no_editor s -> single_editor s.
Proof.
  unfold no_editor, single_editor, referenced. intros (H1 & H2 & H3).
  rewrite H1, H2. repeat split; auto; [intros w []|discriminate].
Qed.

Ltac run_commands :=
  unfold bindM, gets, modify, ret, raise, try_except, on_entry, has_entry,
    with_tk, with_edit, with_tree, with_handle, set_entries, set_focus;
  simpl.

Lemma cancel_spec (s : gui) :
  single_editor s ->
  let s' := snd (_cancel_inline_edit s) in
  fst (_cancel_inline_edit s) = returned tt
  /\ no_editor s'
  /\ next_widget (tk s') = next_widget (tk s)
  /\ writes (edit s')
     = (writes (edit s)
        ++ match editing_entry (edit s) with
           | Some w => [(Some w, None)]
           | None => []
           end)%list
  /\ (forall w, editing_entry (edit s) = Some w -> has_entry w (tk s') = false).
Proof.
  destruct s as [h t [ents nw f idl bx st sv] [[w|] ei ec eci wr]];
    unfold single_editor, no_editor, live_editors, referenced; simpl;
    intros (Hlive & Hfresh & Hcol & Hw).
  - destruct ents as [|[w' txt] [|? ?]]; simpl in Hlive; inversion Hlive; subst.
    unfold _cancel_inline_edit. unfold_commands. run_commands.
    rewrite Nat.eqb_refl. simpl.
    repeat split; try reflexivity.
    rewrite forallb_app, Hw. reflexivity.
  - rewrite app_nil_r. repeat split; auto. discriminate.
Qed.

Lemma integer_cell_is_id (it : item) (i : nat) (z : Z) :
  values_nth it i = Some (cell_int z) -> i = O.
Proof.
  destruct i as [|j]; [reflexivity|]. simpl.
  destruct (nth_error (value_texts it) j); discriminate.
Qed.

Lemma currency_column_is_not_id (c : string) :
  nth_error columns 0 = Some c -> member c currency_columns = false.
Proof. intros H. inversion H. reflexivity. Qed.

Lemma start_cases (s : gui) (item : nat) (c : string) (i : nat) :
  no_editor s ->
  nth_error columns i = Some c ->
  let r := _start_inline_edit item c i s in
  editor_view (snd r) = editor_view s
  \/ (fst r = returned tt
      /\ live_editors (snd r) = [next_widget (tk s)]
      /\ next_widget (tk (snd r)) = S (next_widget (tk s))
      /\ edit (snd r)
         = mkEditing (Some (next_widget (tk s))) (Some item) (Some c) (Some i)
             (writes (edit s) ++ [(None, Some (next_widget (tk s)))])).
Proof.
  intros Hidle Hcol.
  destruct s as [h t [ents nw f idl bx st sv] [ee ei ec eci wr]].
  destruct Hidle as (Hlive & Hnone & Hw).
  unfold live_editors in Hlive. simpl in Hlive, Hnone, Hw. subst ee.
  destruct ents as [|? ?]; [|discriminate]. clear Hlive.
  cbv zeta. unfold _start_inline_edit.
  destruct (member c currency_columns) eqn:Hcur;
    unfold tree_bbox, tree_item, entry_new, entry_insert;
    unfold_commands; run_commands;
    (destruct (find (fun it => (iid it =? item)%nat) (items t))
       as [it|] eqn:Hit; simpl; [|left; reflexivity]);
    (destruct (values_nth it i) as [current_value|] eqn:Hv;
     simpl; [|left; reflexivity]);
    rewrite Hit; simpl;
    (destruct (existsb (Nat.eqb item) (hidden t)); simpl;
     [left; reflexivity|]).
  - destruct current_value as [z|v]; simpl.
    + apply integer_cell_is_id in Hv. subst i.
      rewrite (currency_column_is_not_id c Hcol) in Hcur. discriminate.
    + rewrite Nat.eqb_refl. simpl. rewrite Nat.eqb_refl. simpl.
      right. repeat split.
  - rewrite Nat.eqb_refl. simpl. rewrite Nat.eqb_refl. simpl.
    right. repeat split.
Qed.

(** Opening an editor when none is open: either nothing opens, or one
    editor on a new widget does, through one documented assignment. *)
Lemma start_spec (s : gui) (item : nat) (c : string) (i : nat) :
  no_editor s ->
  nth_error columns i = Some c ->
  let s' := snd (_start_inline_edit item c i s) in
  single_editor s'
  /\ (next_widget (tk s) <= next_widget (tk s'))%nat
  /\ writes (edit s')
     = (writes (edit s)
        ++ match editing_entry (edit s') with
           | Some w => [(None, Some w)]
           | None => []
           end)%list
  /\ (forall w, editing_entry (edit s') = Some w ->
        w = next_widget (tk s)
        /\ editing_item (edit s') = Some item
        /\ editing_column (edit s') = Some c
        /\ editing_column_index (edit s') = Some i).
Proof.
  intros Hidle Hcol. cbv zeta.
  destruct (start_cases s item c i Hidle Hcol) as [E|(_ & Hl & Hn & He)].
  - split; [apply (single_editor_view s _ E), no_editor_single, Hidle|].
    unfold editor_view in E. inversion E as [[E1 E2 E3]].
    destruct Hidle as (_ & Hnone & _). rewrite E2, E3, Hnone, app_nil_r.
    split; [lia|]. split; [reflexivity|discriminate].
  - destruct Hidle as (_ & _ & Hw).
    unfold single_editor, referenced. rewrite Hl, Hn, He. simpl.
    split; [|split; [lia|split; [reflexivity|]]].
    + split; [reflexivity|]. split; [intros w [<-|[]]; lia|].
      split; [intros w _; exists item, c, i; auto|].
      rewrite forallb_app, Hw. reflexivity.
    + intros w E. inversion E. auto.
Qed.

Lemma leads_bind {A C : Type} (P R Q E : gui -> Prop) (c : M A) (k : A -> M C) :
  leads P c R E -> (forall a, leads R (k a) Q E) -> leads P (bindM c k) Q E.
Proof.
  intros Hc Hk s Hs. unfold bindM. specialize (Hc s Hs).
  destruct (c s) as [[a|e] s']; simpl in *; [apply Hk|]; exact Hc.
Qed.

Lemma leads_try {A : Type} (P Q E E' : gui -> Prop) (c : M A) (h : exn -> M A) :
  leads P c Q E' -> (forall e, leads E' (h e) Q E) ->
  leads P (try_except c h) Q E.
Proof.
  intros Hc Hh s Hs. unfold try_except. specialize (Hc s Hs).
  destruct (c s) as [[a|e] s']; simpl in *; [|apply Hh]; exact Hc.
Qed.

Lemma leads_weaken {A : Type} (P Q Q' E E' : gui -> Prop) (c : M A) :
  leads P c Q E -> (forall s, Q s -> Q' s) -> (forall s, E s -> E' s) ->
  leads P c Q' E'.
Proof.
  intros H HQ HE s Hs. specialize (H s Hs).
  destruct (fst (c s)); [apply HQ|apply HE]; exact H.
Qed.

Lemma leads_ret {A : Type} (P E : gui -> Prop) (a : A) : leads P (ret a) P E.
Proof. intros s Hs. exact Hs. Qed.

Lemma leads_raise {A : Type} (P Q : gui -> Prop) (e : exn) :
  leads P (@raise A e) Q P.
Proof. intros s Hs. exact Hs. Qed.

Lemma leads_no_editor {A : Type} (c : M A) :
  preserves editor_view c -> leads no_editor c no_editor no_editor.
Proof.
  intros H s Hs. pose proof (no_editor_view s _ (H s) Hs).
  destruct (fst (c s)); assumption.
Qed.

Lemma leads_single_editor {A : Type} (c : M A) :
  preserves editor_view c -> leads single_editor c single_editor single_editor.
Proof.
  intros H s Hs. pose proof (single_editor_view s _ (H s) Hs).
  destruct (fst (c s)); assumption.
Qed.

Lemma start_leads (item : nat) (c : string) (i : nat) :
  nth_error columns i = Some c ->
  leads no_editor (_start_inline_edit item c i) single_editor no_editor.
Proof.
  intros Hc s Hs.
  destruct (start_cases s item c i Hs Hc) as [E|(Hr & _)].
  - pose proof (no_editor_view s _ E Hs) as H.
    destruct (fst (_start_inline_edit item c i s));
      [apply no_editor_single|]; exact H.
  - rewrite Hr. apply (start_spec s item c i Hs Hc).
Qed.

Lemma update_the_database_leads (now entry_id : Z) (field_name : string)
    (item : nat) (c : string) (i : nat) (v : py_value) :
  nth_error columns i = Some c ->
  leads no_editor (update_the_database now entry_id field_name item c i v)
    single_editor no_editor.
Proof.
  intros Hc. unfold update_the_database.
  apply leads_try with (E' := no_editor).
  - apply leads_weaken with (Q := no_editor) (E := no_editor);
      [apply leads_no_editor; frames|exact no_editor_single|auto].
  - intros e. apply leads_bind with (R := no_editor);
      [apply leads_no_editor; frames|].
    intros _. apply leads_try with (E' := no_editor).
    + apply start_leads, Hc.
    + intros _. apply leads_weaken with (Q := no_editor) (E := no_editor);
        [apply leads_ret|exact no_editor_single|auto].
Qed.

Lemma save_inline_value_leads (now : Z) (item : option nat) (c : string)
    (i : nat) (new_value : string) :
  nth_error columns i = Some c ->
  leads no_editor (save_inline_value now item (Some c) i new_value)
    single_editor no_editor.
Proof.
  intros Hc. unfold save_inline_value.
  apply leads_bind with (R := no_editor); [apply leads_no_editor; frames|].
  intros it.
  assert (Hret : leads no_editor (ret tt) single_editor no_editor)
    by (apply leads_weaken with (Q := no_editor) (E := no_editor);
        [apply leads_ret|exact no_editor_single|auto]).
  destruct (dict_get column_to_field (Some c)) as [field_name|];
    [|exact Hret].
  destruct item as [item|]; [|exact Hret].
  destruct (member c currency_columns);
    [apply update_the_database_leads, Hc|].
  destruct (negb (Py.truthy new_value));
    [|apply update_the_database_leads, Hc].
  apply leads_bind with (R := no_editor); [apply leads_no_editor; frames|].
  intros _. apply start_leads, Hc.
Qed.

Lemma bind_gets {A C : Type} (f : gui -> A) (k : A -> M C) (s : gui) :
  bindM (gets f) k s = k (f s) s.
Proof. reflexivity. Qed.

Lemma bind_returned {A C : Type} (c : M A) (k : A -> M C) (s : gui) (a : A) :
  fst (c s) = returned a -> bindM c k s = k a (snd (c s)).
Proof.
  unfold bindM. destruct (c s) as [o s']. simpl. intros ->. reflexivity.
Qed.

Lemma single_editor_alive (s : gui) (w : nat) :
  single_editor s -> editing_entry (edit s) = Some w ->
  has_entry w (tk s) = true.
Proof.
  intros (Hlive & _) He. unfold referenced in Hlive. rewrite He in Hlive.
  unfold live_editors in Hlive. unfold has_entry.
  destruct (entries (tk s)) as [|[w' txt] l]; [discriminate|].
  simpl in *. inversion Hlive. subst. rewrite Nat.eqb_refl. reflexivity.
Qed.

(** Reading the text of the editor that is referenced. *)
Lemma read_typed_text (s : gui) (w : nat) :
  has_entry w (tk s) = true ->
  try_except
    (text <- entry_get w ;; ret (Some (Py.strip text)))
    (fun e => match e with
              | TclError => _cancel_inline_edit ;; ret None
              | _ => raise e
              end) s
  = (returned
       (Some (Py.strip
                match find (fun e => (fst e =? w)%nat) (entries (tk s)) with
                | Some e => snd e
                | None => ""
                end)), s).
Proof.
  intros H. unfold try_except, bindM, entry_get, on_entry. rewrite H.
  reflexivity.
Qed.

(** How [_finish_inline_edit] runs while an editor is referenced: the
    text is read, the editor is cancelled, the value is saved. *)
Lemma finish_runs (now : Z) (s : gui) (w item i : nat) (c : string) :
  single_editor s ->
  editing_entry (edit s) = Some w ->
  editing_item (edit s) = Some item ->
  editing_column (edit s) = Some c ->
  editing_column_index (edit s) = Some i ->
  _finish_inline_edit now s
  = save_inline_value now (Some item) (Some c) i
      (Py.strip
         match find (fun e => (fst e =? w)%nat) (entries (tk s)) with
         | Some e => snd e
         | None => ""
         end)
      (snd (_cancel_inline_edit s)).
Proof.
  intros Hs He Hi Hc Hx. unfold _finish_inline_edit.
  rewrite bind_gets, He, !bind_gets, Hx.
  rewrite (bind_returned _ _ s _
             (f_equal fst (read_typed_text s w (single_editor_alive s w Hs He)))).
  rewrite (read_typed_text s w (single_editor_alive s w Hs He)). simpl snd.
  destruct (cancel_spec s Hs) as (Hret & _).
  rewrite (bind_returned _ _ s tt Hret), Hi, Hc. reflexivity.
Qed.

Lemma finish_leads (now : Z) :
  leads single_editor (_finish_inline_edit now) single_editor no_editor.
Proof.
  intros s Hs.
  destruct (editing_entry (edit s)) as [w|] eqn:He.
  - destruct Hs as (Hlive & Hfresh & Hcol & Hw).
    destruct (Hcol w He) as (item & c & i & Hi & Hc & Hx & Hn).
    assert (Hs : single_editor s) by (repeat split; assumption).
    rewrite (finish_runs now s w item i c Hs He Hi Hc Hx).
    destruct (cancel_spec s Hs) as (_ & Hidle & _).
    apply save_inline_value_leads; assumption.
  - unfold _finish_inline_edit. rewrite bind_gets, He. exact Hs.
Qed.

Lemma single_editor_idle (s : gui) :
  single_editor s -> editing_entry (edit s) = None -> no_editor s.
Proof.
  intros (Hlive & _ & _ & Hw) He. unfold referenced in Hlive.
  rewrite He in Hlive. repeat split; assumption.
Qed.

(** How [_check_focus_out] runs while an editor is referenced. *)
Lemma check_focus_out_runs (now : Z) (s : gui) (w : nat) :
  single_editor s ->
  editing_entry (edit s) = Some w ->
  _check_focus_out now s
  = if holds_focus w (focus (tk s)) then (returned tt, s)
    else try_except (_finish_inline_edit now)
           (fun e => match e with
                     | TclError => set_editing_entry None
                     | _ => raise e
                     end) s.
Proof.
  intros Hs He. unfold _check_focus_out. rewrite bind_gets, He.
  unfold try_except at 1. unfold bindM at 1. unfold focus_get, on_entry.
  rewrite (single_editor_alive s w Hs He). unfold gets, holds_focus.
  destruct (focus (tk s)) as [[w'|]|]; try reflexivity.
  destruct (w' =? w)%nat; reflexivity.
Qed.

Lemma check_focus_out_leads (now : Z) :
  leads single_editor (_check_focus_out now) single_editor single_editor.
Proof.
  intros s Hs.
  destruct (editing_entry (edit s)) as [w|] eqn:He.
  - rewrite (check_focus_out_runs now s w Hs He).
    destruct (holds_focus w (focus (tk s))); [exact Hs|].
    revert s Hs He. intros s Hs _. revert s Hs.
    apply leads_try with (E' := no_editor).
    + apply leads_weaken with (Q := single_editor) (E := no_editor);
        [apply finish_leads|auto|auto].
    + intros [| | |];
        try (apply leads_weaken with (Q := single_editor) (E := no_editor);
             [apply leads_raise|auto|exact no_editor_single]).
      intros s (Hl & He & Hw). apply no_editor_single.
      unfold set_editing_entry, modify, no_editor, live_editors. simpl.
      rewrite He. repeat split; [exact Hl|].
      rewrite forallb_app, Hw. reflexivity.
  - unfold _check_focus_out. rewrite bind_gets, He. exact Hs.
Qed.

Lemma run_idle_leads (now : Z) :
  leads single_editor (run_idle now) single_editor single_editor.
Proof.
  unfold run_idle. intros s Hs. rewrite bind_gets.
  destruct (idle (tk s)) as [|n]; [exact Hs|].
  revert s Hs. apply leads_bind with (R := single_editor);
    [apply leads_single_editor; frames|].
  intros _. apply check_focus_out_leads.
Qed.

(** Building the entry dialog calls the waiting focus checks: the
    editor may be committed or dropped, never doubled. *)
Lemma call_idle_leads (now : Z) (n : nat) :
  leads single_editor (call_idle now n) single_editor single_editor.
Proof.
  induction n as [|n IH]; simpl; [apply leads_ret|].
  apply leads_bind with (R := single_editor); [|intros _; exact IH].
  apply leads_try with (E' := single_editor); [apply run_idle_leads|].
  intros e. apply leads_ret.
Qed.

Lemma dialog_leads (now : Z) (script : list dialog_action) :
  leads single_editor (EntryDialog now script) single_editor single_editor.
Proof.
  unfold EntryDialog, update_idletasks.
  apply leads_bind with (R := single_editor).
  - intros s Hs. rewrite bind_gets. apply call_idle_leads, Hs.
  - intros _. apply leads_single_editor. frames.
Qed.

(** Without an editor the waiting focus checks find nothing to do. *)
Lemma run_idle_no_editor (now : Z) :
  leads no_editor (run_idle now) no_editor no_editor.
Proof.
  intros s Hs. unfold run_idle. rewrite bind_gets.
  destruct (idle (tk s)) as [|n]; [exact Hs|].
  revert s Hs. apply leads_bind with (R := no_editor);
    [apply leads_no_editor; frames|intros _].
  intros s Hs. unfold _check_focus_out. rewrite bind_gets.
  destruct Hs as (Hl & He & Hw). rewrite He. repeat split; assumption.
Qed.

Lemma call_idle_no_editor (now : Z) (n : nat) :
  leads no_editor (call_idle now n) no_editor no_editor.
Proof.
  induction n as [|n IH]; simpl; [apply leads_ret|].
  apply leads_bind with (R := no_editor); [|intros _; exact IH].
  apply leads_try with (E' := no_editor); [apply run_idle_no_editor|].
  intros e. apply leads_ret.
Qed.

Lemma dialog_no_editor (now : Z) (script : list dialog_action) :
  leads no_editor (EntryDialog now script) no_editor no_editor.
Proof.
  unfold EntryDialog, update_idletasks.
  apply leads_bind with (R := no_editor).
  - intros s Hs. rewrite bind_gets. apply call_idle_no_editor, Hs.
  - intros _. apply leads_no_editor. frames.
Qed.

Lemma add_leads (now : Z) (script : list dialog_action) :
  leads single_editor (_add_entry now script) single_editor single_editor.
Proof.
  unfold _add_entry.
  apply leads_bind with (R := single_editor); [apply dialog_leads|].
  intros result. apply leads_single_editor. frames.
Qed.

Lemma edit_leads (now : Z) (script : list dialog_action) :
  leads single_editor (_edit_entry now script) single_editor single_editor.
Proof.
  unfold _edit_entry.
  apply leads_bind with (R := single_editor);
    [apply leads_single_editor; frames|intros entry_id].
  destruct entry_id as [[|p|p]|];
    try solve [apply leads_single_editor; frames].
  all: apply leads_bind with (R := single_editor);
    [apply leads_single_editor; frames|intros entry];
    (destruct entry; [|apply leads_single_editor; frames]);
    (apply leads_bind with (R := single_editor); [apply dialog_leads|]);
    intros result; apply leads_single_editor; frames.
Qed.

Lemma edit_no_editor (now : Z) (script : list dialog_action) :
  leads no_editor (_edit_entry now script) no_editor no_editor.
Proof.
  unfold _edit_entry.
  apply leads_bind with (R := no_editor);
    [apply leads_no_editor; frames|intros entry_id].
  destruct entry_id as [[|p|p]|]; try solve [apply leads_no_editor; frames].
  all: apply leads_bind with (R := no_editor);
    [apply leads_no_editor; frames|intros entry];
    (destruct entry; [|apply leads_no_editor; frames]);
    (apply leads_bind with (R := no_editor); [apply dialog_no_editor|]);
    intros result; apply leads_no_editor; frames.
Qed.

(** The clean-up that opens [_on_tree_double_click] and
    [_delete_entry]: whatever was being edited, what follows starts
    without an editor. *)
Lemma cancel_if_editing_leads {C : Type} (rest : M C) (Q E : gui -> Prop) :
  leads no_editor rest Q E ->
  leads single_editor
    (e <- gets (fun s => editing_entry (edit s)) ;;
     (match e with Some _ => _cancel_inline_edit | None => ret tt end) ;;
     rest)
    Q E.
Proof.
  intros Hrest s Hs. rewrite bind_gets.
  destruct (editing_entry (edit s)) as [w|] eqn:He.
  - destruct (cancel_spec s Hs) as (Hret & Hidle & _).
    rewrite (bind_returned _ _ s tt Hret). apply Hrest, Hidle.
  - apply Hrest, single_editor_idle; assumption.
Qed.

Lemma double_click_leads (now : Z) (event : click)
    (script : list dialog_action) :
  leads single_editor (_on_tree_double_click now event script)
    single_editor single_editor.
Proof.
  unfold _on_tree_double_click.
  apply leads_weaken with (Q := single_editor) (E := no_editor);
    [|auto|exact no_editor_single].
  apply cancel_if_editing_leads.
  - assert (Hret : leads no_editor (ret tt) single_editor no_editor)
      by (apply leads_weaken with (Q := no_editor) (E := no_editor);
          [apply leads_ret|exact no_editor_single|auto]).
    destruct (negb (region event =? "cell")%string); [exact Hret|].
    destruct (row_at event) as [item|]; [|exact Hret].
    destruct (column_at event) as [n|]; [|exact Hret].
    destruct ((Z.of_nat n - 1 <? 0)
              || (Z.of_nat (List.length columns) <=? Z.of_nat n - 1));
      [exact Hret|].
    destruct (nth_error columns (Z.to_nat (Z.of_nat n - 1)))
      as [column_name|] eqn:Hc; [|exact Hret].
    destruct (member column_name non_editable_columns);
      [|apply start_leads, Hc].
    destruct (column_name =? "ID")%string; [|exact Hret].
    apply leads_weaken with (Q := no_editor) (E := no_editor);
      [apply edit_no_editor|exact no_editor_single|auto].
Qed.

Lemma delete_leads (answer : bool) :
  leads single_editor (_delete_entry answer) single_editor single_editor.
Proof.
  unfold _delete_entry.
  apply leads_weaken with (Q := no_editor) (E := no_editor);
    [|exact no_editor_single|exact no_editor_single].
  apply cancel_if_editing_leads.
  apply leads_no_editor. frames.
Qed.

Lemma handler_leads (now : Z) (e : event) :
  leads single_editor (handler now e) single_editor single_editor.
Proof.
  destruct e; simpl handler;
    try solve [apply leads_single_editor; frames].
  - apply double_click_leads.
  - apply leads_weaken with (Q := single_editor) (E := no_editor);
      [apply finish_leads|auto|exact no_editor_single].
  - intros s Hs. destruct (cancel_spec s Hs) as (Hret & Hidle & _).
    rewrite Hret. apply no_editor_single, Hidle.
  - unfold _handle_return_key. intros s Hs. rewrite bind_gets.
    destruct (editing_entry (edit s)); [exact Hs|]. apply edit_leads, Hs.
  - apply delete_leads.
  - apply add_leads.
  - apply edit_leads.
Qed.

Lemma take_turn_keeps (now : Z) (t : turn) (s : gui) :
  single_editor s -> single_editor (take_turn now t s).
Proof.
  intros Hs. destruct t as [e|]; unfold take_turn, dispatch, run.
  - pose proof (handler_leads now e s Hs) as H.
    destruct (fst (handler now e s)); exact H.
  - pose proof (run_idle_leads now s Hs) as H.
    destruct (fst (run_idle now s)); exact H.
Qed.

Lemma startup_single_editor (d : database) : single_editor (startup d).
Proof.
  unfold startup, run.
  apply (single_editor_view (initial_gui d) _ (refresh_view _)).
  apply no_editor_single. repeat split.
Qed.

Lemma after_turns_single_editor (d : database) (trace : list (Z * turn)) :
  single_editor (after_turns d trace).
Proof.
  unfold after_turns. generalize (startup_single_editor d).
  generalize (startup d). induction trace as [|[now t] trace IH];
    intros s Hs; simpl; [exact Hs|].
  apply IH, take_turn_keeps, Hs.
Qed.

Lemma has_entry_live (w : nat) (s : gui) :
  has_entry w (tk s) = existsb (fun x => (x =? w)%nat) (live_editors s).
Proof.
  unfold has_entry, live_editors.
  induction (entries (tk s)) as [|e l IH]; simpl; [reflexivity|].
  rewrite IH. reflexivity.
Qed.

(** A double click on an editable cell while an editor is referenced:
    the editor is cancelled, then the clicked cell is opened. *)
Lemma double_click_runs (now : Z) (s : gui) (w item i : nat) (c : string)
    (script : list dialog_action) :
  single_editor s ->
  editing_entry (edit s) = Some w ->
  nth_error columns i = Some c ->
  member c non_editable_columns = false ->
  _on_tree_double_click now (mkClick "cell" (Some item) (Some (S i))) script s
  = _start_inline_edit item c i (snd (_cancel_inline_edit s)).
Proof.
  intros Hs He Hc Hm. unfold _on_tree_double_click.
  rewrite bind_gets, He.
  destruct (cancel_spec s Hs) as (Hret & _).
  rewrite (bind_returned _ _ s tt Hret).
  cbn [region row_at column_at]. cbn [String.eqb Ascii.eqb Bool.eqb negb].
  replace (Z.of_nat (S i) - 1) with (Z.of_nat i) by lia.
  assert (Hi : (i < List.length columns)%nat)
    by (apply nth_error_Some; rewrite Hc; discriminate).
  replace (Z.of_nat i <? 0) with false by (symmetry; apply Z.ltb_ge; lia).
  replace (Z.of_nat (List.length columns) <=? Z.of_nat i) with false
    by (symmetry; apply Z.leb_gt; lia).
  cbn [orb]. rewrite Nat2Z.id, Hc, Hm. reflexivity.
Qed.

Lemma activation_replaces_editor (now : Z) (s : gui) (w item i : nat)
    (c : string) (script : list dialog_action) :
  single_editor s ->
  editing_entry (edit s) = Some w ->
  nth_error columns i = Some c ->
  member c non_editable_columns = false ->
  let s' := dispatch now
              (tree_double_click (mkClick "cell" (Some item) (Some (S i)))
                 script) s in
  handle_of s' = handle_of s
  /\ has_entry w (tk s') = false
  /\ (forall w', editing_entry (edit s') = Some w' ->
        (w < w')%nat
        /\ editing_item (edit s') = Some item
        /\ editing_column (edit s') = Some c
        /\ editing_column_index (edit s') = Some i)
  /\ writes (edit s')
     = (writes (edit s)
        ++ (Some w, None)
           :: match editing_entry (edit s') with
              | Some w' => [(None, Some w')]
              | None => []
              end)%list.
Proof.
  intros Hs He Hc Hm. cbv zeta. unfold dispatch, run, handler.
  rewrite (double_click_runs now s w item i c script Hs He Hc Hm).
  destruct (cancel_spec s Hs) as (_ & Hidle & Hnext & Hwrites & Hgone).
  set (s1 := snd (_cancel_inline_edit s)) in *.
  destruct (start_spec s1 item c i Hidle Hc) as (Hs' & Hle & Hw' & Hnew).
  set (s' := snd (_start_inline_edit item c i s1)) in *.
  assert (Hw : (w < next_widget (tk s))%nat).
  { destruct Hs as (Hlive & Hfresh & _). apply Hfresh. rewrite Hlive.
    unfold referenced. rewrite He. left. reflexivity. }
  split; [unfold s', s1; rewrite start_handle, cancel_handle; reflexivity|].
  split.
  { rewrite has_entry_live. destruct Hs' as (Hlive' & _). rewrite Hlive'.
    unfold referenced. destruct (editing_entry (edit s')) as [w'|] eqn:E;
      [|reflexivity].
    destruct (Hnew w' eq_refl) as (-> & _). simpl. rewrite Hnext.
    replace (next_widget (tk s) =? w)%nat with false; [reflexivity|].
    symmetry. apply Nat.eqb_neq. lia. }
  split.
  { intros w' E. destruct (Hnew w' E) as (-> & H1 & H2 & H3).
    rewrite Hnext. auto. }
  rewrite Hw', Hwrites, He, <- app_assoc. reflexivity.
Qed.

(** C8. After any sequence of turns of the event loop (double clicks,
    Return, Escape, focus loss, the deferred focus check, deletion, the
    dialogs, typing, scrolling, store faults) the inline editors that
    exist are exactly the one the window refers to, so at most one cell
    is being edited; every assignment made to the reference went from
    no editor to an editor or from an editor to none (or changed
    nothing); and a double click on an editable cell while an editor is
    open destroys that editor first, makes no call on the store, and
    leaves at most the newly clicked cell open, on a new widget. *)
Theorem at_most_one_cell_is_edited (d : database) (trace : list (Z * turn)) :
  let s := after_turns d trace in
  live_editors s = referenced s
  /\ (List.length (live_editors s) <= 1)%nat
  /\ forallb documented (writes (edit s)) = true
  /\ forall now w item i c script,
       editing_entry (edit s) = Some w ->
       nth_error columns i = Some c ->
       member c non_editable_columns = false ->
       let s' := take_turn now
                   (deliver (tree_double_click
                               (mkClick "cell" (Some item) (Some (S i)))
                               script)) s in
       handle_of s' = handle_of s
       /\ has_entry w (tk s') = false
       /\ live_editors s' = referenced s'
       /\ (forall w', editing_entry (edit s') = Some w' ->
             (w < w')%nat
             /\ editing_item (edit s') = Some item
             /\ editing_column (edit s') = Some c)
       /\ writes (edit s')
          = (writes (edit s)
             ++ (Some w, None)
                :: match editing_entry (edit s') with
                   | Some w' => [(None, Some w')]
                   | None => []
                   end)%list.
Proof.
  cbv zeta. pose proof (after_turns_single_editor d trace) as Hs.
  set (s := after_turns d trace) in *.
  split; [apply Hs|]. split.
  { destruct Hs as (Hlive & _). rewrite Hlive. unfold referenced.
    destruct (editing_entry (edit s)); simpl; lia. }
  split; [apply Hs|].
  intros now w item i c script He Hc Hm.
  destruct (activation_replaces_editor now s w item i c script Hs He Hc Hm)
    as (H1 & H2 & H3 & H4).
  split; [exact H1|]. split; [exact H2|]. split.
  { apply (take_turn_keeps now (deliver _) s Hs). }
  split; [|exact H4].
  intros w' E. destruct (H3 w' E) as (Ha & Hb & Hc' & _). auto.
Qed.

(** The clause on activation at work: Seller 1 of the first row is
    open, the Name cell is double clicked. *)
Example second_activation_replaces_the_first :
  let s := after_turns ledger_with_bob
             [(7, deliver (tree_double_click
                             (mkClick "cell" (Some 0%nat) (Some 6%nat)) []))] in
  let s' := take_turn 8
              (deliver (tree_double_click
                          (mkClick "cell" (Some 0%nat) (Some 3%nat)) [])) s in
  editing_entry (edit s) = Some 0%nat
  /\ editing_column (edit s) = Some "Seller 1"
  /\ editing_entry (edit s') = Some 1%nat
  /\ editing_column (edit s') = Some "Name"
  /\ live_editors s' = [1%nat]
  /\ calls (handle_of s') = calls (handle_of s)
  /\ writes (edit s')
     = [(None, Some 0%nat); (Some 0%nat, None); (None, Some 1%nat)].
Proof. vm_compute. repeat split. Qed.

(** ** Focus loss *)

(** No handler of an event but the one of [<FocusOut>], and those that
    may build the entry dialog, touches the callbacks waiting in
    [after_idle]. *)
Lemma insert_entries_idle (l : list row) :
  preserves (fun s => idle (tk s)) (insert_entries l).
Proof. induction l as [|r l IH]; simpl; frames. Qed.
#[local] Hint Resolve insert_entries_idle : frames.

Lemma refresh_idle : preserves (fun s => idle (tk s)) _refresh_table.
Proof. unfold _refresh_table. frames. Qed.
#[local] Hint Resolve refresh_idle : frames.

Lemma search_idle : preserves (fun s => idle (tk s)) _search_entries.
Proof. unfold _search_entries. frames. Qed.
#[local] Hint Resolve search_idle : frames.

Lemma selected_idle : preserves (fun s => idle (tk s)) _get_selected_entry_id.
Proof. unfold _get_selected_entry_id. frames. Qed.
#[local] Hint Resolve selected_idle : frames.

Lemma cancel_idle : preserves (fun s => idle (tk s)) _cancel_inline_edit.
Proof. unfold _cancel_inline_edit. frames. Qed.
#[local] Hint Resolve cancel_idle : frames.

Lemma start_idle (item : nat) (c : string) (i : nat) :
  preserves (fun s => idle (tk s)) (_start_inline_edit item c i).
Proof. unfold _start_inline_edit, entry_new, entry_insert. frames. Qed.
#[local] Hint Resolve start_idle : frames.

Lemma update_the_database_idle (now entry_id : Z) (field_name : string)
    (item : nat) (c : string) (i : nat) (v : py_value) :
  preserves (fun s => idle (tk s))
    (update_the_database now entry_id field_name item c i v).
Proof. unfold update_the_database. frames. Qed.
#[local] Hint Resolve update_the_database_idle : frames.

Lemma save_inline_value_idle (now : Z) (item : option nat)
    (c : option string) (i : nat) (v : string) :
  preserves (fun s => idle (tk s)) (save_inline_value now item c i v).
Proof. unfold save_inline_value. frames. Qed.
#[local] Hint Resolve save_inline_value_idle : frames.

Lemma finish_idle (now : Z) :
  preserves (fun s => idle (tk s)) (_finish_inline_edit now).
Proof. unfold _finish_inline_edit. frames. Qed.
#[local] Hint Resolve finish_idle : frames.

Lemma handler_idle (now : Z) (e : event) (s : gui) :
  builds_dialog e = false ->
  (idle (tk s) <= idle (tk (dispatch now e s)))%nat.
Proof.
  unfold dispatch, run.
  destruct e; try discriminate; intros _; try (simpl; lia);
    match goal with
    | |- (_ <= idle (tk (snd (?c s))))%nat =>
        assert (H : preserves (fun s => idle (tk s)) c);
        [|rewrite (H s); lia]
    end; simpl handler; unfold _delete_entry; frames.
Qed.

(** What is left of the queue when its first callback has been taken. *)
Lemma run_idle_runs (now : Z) (s : gui) (n : nat) :
  idle (tk s) = S n ->
  run_idle now s = _check_focus_out now (with_tk (set_idle n (tk s)) s).
Proof. intros H. unfold run_idle. rewrite bind_gets, H. reflexivity. Qed.

(** Calling [n] waiting callbacks is taking [n] idle turns at once. *)
Lemma call_idle_runs (now : Z) (n : nat) (s : gui) :
  call_idle now n s
  = (returned tt, Nat.iter n (take_turn now idle_callback) s).
Proof.
  revert s. induction n as [|n IH]; intros s; [reflexivity|].
  rewrite Nat.iter_succ_r. rewrite <- IH.
  cbn [call_idle]. unfold bindM at 1, try_except, take_turn, run.
  destruct (run_idle now s) as [[[]|e] s']; reflexivity.
Qed.

Lemma update_idletasks_runs (now : Z) (s : gui) :
  update_idletasks now s
  = (returned tt, Nat.iter (idle (tk s)) (take_turn now idle_callback) s).
Proof. unfold update_idletasks. rewrite bind_gets. apply call_idle_runs. Qed.

Lemma wait_window_returns (script : list dialog_action) (s : gui) :
  fst (wait_window script s) = returned tt.
Proof.
  revert s. induction script as [|[f|] script IH]; intros s; try reflexivity.
  simpl. destruct (_save f); [reflexivity|]. apply IH.
Qed.

(** The dialog always returns, with what [show] says. *)
Lemma dialog_runs (now : Z) (script : list dialog_action) (s : gui) :
  EntryDialog now script s
  = (returned (show script),
     snd (wait_window script
            (Nat.iter (idle (tk s)) (take_turn now idle_callback) s))).
Proof.
  unfold EntryDialog. unfold bindM at 1. rewrite update_idletasks_runs.
  unfold bindM. pose proof (wait_window_returns script
    (Nat.iter (idle (tk s)) (take_turn now idle_callback) s)) as H.
  destruct (wait_window script _) as [[[]|e] s']; [reflexivity|discriminate].
Qed.

Lemma dialog_bind {C : Type} (P Q E : gui -> Prop) (now : Z)
    (script : list dialog_action) (k : option entry_data -> M C) :
  leads P (EntryDialog now script) P P ->
  leads P (k (show script)) Q E ->
  leads P (result <- EntryDialog now script ;; k result) Q E.
Proof.
  intros Hd Hk s Hs. specialize (Hd s Hs).
  assert (Hret : fst (EntryDialog now script s) = returned (show script))
    by (rewrite dialog_runs; reflexivity).
  rewrite Hret in Hd. rewrite (bind_returned _ _ s _ Hret). apply Hk, Hd.
Qed.

(** C9. Losing the focus commits nothing by itself: the handler of
    [<FocusOut>] only queues [_check_focus_out] in [after_idle]. A
    queued check is called in a later turn of the loop, when the loop
    is idle, or before that by a handler that builds the entry dialog,
    whose [update_idletasks] calls all the checks that wait; no other
    handler takes a callback off the queue. Whenever the check is
    called, it attempts the commit only if an editor is then referenced
    and does not hold the focus; with the focus on the editor, or with
    no editor, it changes nothing. *)
Theorem focus_loss_is_checked_when_idle
    (d : database) (trace : list (Z * turn)) (now : Z) :
  let s := after_turns d trace in
  take_turn now (deliver entry_focus_out) s
  = with_tk (set_idle (S (idle (tk s))) (tk s)) s
  /\ (forall e, builds_dialog e = false ->
        (idle (tk s) <= idle (tk (take_turn now (deliver e) s)))%nat)
  /\ (forall n, idle (tk s) = S n ->
        let waiting := with_tk (set_idle n (tk s)) s in
        take_turn now idle_callback s
        = match editing_entry (edit s) with
          | Some w =>
              if holds_focus w (focus (tk s)) then waiting
              else run (try_except (_finish_inline_edit now)
                          (fun e => match e with
                                    | TclError => set_editing_entry None
                                    | _ => raise e
                                    end)) waiting
          | None => waiting
          end)
  /\ (idle (tk s) = O -> take_turn now idle_callback s = s)
  /\ run (update_idletasks now) s
     = Nat.iter (idle (tk s)) (take_turn now idle_callback) s.
Proof.
  cbv zeta. pose proof (after_turns_single_editor d trace) as Hs.
  set (s := after_turns d trace) in *.
  split; [reflexivity|]. split; [|split; [|split]].
  - intros e He. apply handler_idle, He.
  - intros n Hn.
    unfold take_turn, run. rewrite (run_idle_runs now s n Hn).
    set (waiting := with_tk (set_idle n (tk s)) s).
    assert (Hw : single_editor waiting)
      by (apply (single_editor_view s); [reflexivity|exact Hs]).
    change (editing_entry (edit s)) with (editing_entry (edit waiting)).
    change (focus (tk s)) with (focus (tk waiting)).
    destruct (editing_entry (edit waiting)) as [w|] eqn:He.
    + rewrite (check_focus_out_runs now waiting w Hw He).
      destruct (holds_focus w (focus (tk waiting))); reflexivity.
    + unfold _check_focus_out. rewrite bind_gets, He. reflexivity.
  - intros H0. unfold take_turn, run, run_idle. rewrite bind_gets, H0.
    reflexivity.
  - unfold run. rewrite update_idletasks_runs. reflexivity.
Qed.

(** ** Committing an inline edit *)

Lemma finish_builds_typed_keyword (c field_name : string) :
  dict_get column_to_field (Some c) = Some field_name ->
  if member c currency_columns
  then exists col, parameter_of field_name = Some (Some col)
  else parameter_of field_name = Some None.
Proof.
  unfold dict_get, column_to_field. cbn [find fst].
  repeat match goal with
         | |- context [String.eqb ?a c] =>
             destruct (String.eqb a c) eqn:E;
             [apply String.eqb_eq in E; subst c; cbn [option_map snd];
              intros H; inversion H; subst; vm_compute; eauto|clear E]
         end.
  discriminate.
Qed.

Lemma store_do_db {A : Type} (c : store_call) (f : database -> database * A) :
  (forall d, fst (f d) = d) ->
  preserves (fun s => db (handle_of s)) (store_do c f).
Proof.
  intros Hf s. unfold store_do.
  destruct (faults (handle_of s)) as [|[] rest]; try reflexivity;
    specialize (Hf (db (handle_of s)));
    destruct (f (db (handle_of s))); simpl in *; congruence.
Qed.

Lemma preserves_db_of_handle {A : Type} (c : M A) :
  preserves handle_of c -> preserves (fun s => db (handle_of s)) c.
Proof. intros H s. rewrite (H s). reflexivity. Qed.

(** [update_entry] with [None] for the one amount it is given is the
    call with no field at all: the store is not written. *)
Lemma update_with_none_db (now entry_id : Z) (field_name : string) :
  preserves (fun s => db (handle_of s))
    (db_update_entry now entry_id field_name (a_float None)).
Proof.
  unfold db_update_entry.
  destruct (parameter_of field_name) as [[col|]|];
    [| |apply preserves_raise]; apply store_do_db; intros d;
    [destruct col|]; reflexivity.
Qed.

Lemma insert_entries_db (l : list row) :
  preserves (fun s => db (handle_of s)) (insert_entries l).
Proof. induction l as [|r l IH]; simpl; frames. Qed.

Lemma refresh_db : preserves (fun s => db (handle_of s)) _refresh_table.
Proof.
  unfold _refresh_table. unfold_commands.
  repeat first [apply insert_entries_db
               | apply store_do_db; intros d; reflexivity
               | frame_step].
Qed.

Lemma clearing_amount_db (now entry_id : Z) (field_name : string)
    (item : nat) (c : string) (i : nat) :
  preserves (fun s => db (handle_of s))
    (update_the_database now entry_id field_name item c i (a_float None)).
Proof.
  unfold update_the_database.
  repeat first [apply update_with_none_db
               | apply refresh_db
               | apply preserves_db_of_handle, start_handle
               | unfold status_set, messagebox; frame_step].
Qed.

(** Committing an inline edit of an amount whose typed text is empty or
    does not parse leaves the store as it was: the amount keeps the
    value it had. *)
Lemma clearing_an_amount_inline_changes_nothing
    (now : Z) (s : gui) (w item i : nat) (c : string) :
  single_editor s ->
  editing_entry (edit s) = Some w ->
  editing_item (edit s) = Some item ->
  editing_column (edit s) = Some c ->
  editing_column_index (edit s) = Some i ->
  member c currency_columns = true ->
  _parse_currency (Py.strip (typed_text w s)) = None ->
  db (handle_of (take_turn now (deliver entry_return) s)) = db (handle_of s).
Proof.
  intros Hs He Hi Hc Hx Hm Hp. unfold take_turn, dispatch, run, handler.
  rewrite (finish_runs now s w item i c Hs He Hi Hc Hx).
  fold (typed_text w s).
  rewrite <- (preserves_db_of_handle _ cancel_handle s).
  generalize (snd (_cancel_inline_edit s)). intros s1.
  unfold save_inline_value. unfold bindM at 1. unfold tree_item.
  destruct (find _ (items (tree s1))) as [it|]; [|reflexivity].
  destruct (dict_get column_to_field (Some c)); [|reflexivity].
  rewrite Hm. rewrite Hp. apply clearing_amount_db.
Qed.

(** C1, on the code. The user clears the cell Seller 1 of a record
    whose amount is 10 and confirms: [update_entry] is called once with
    [None], no error is shown, the status bar reports success, and the
    record still holds 10. *)
Theorem inline_clear_keeps_the_amount :
  let s := after_turns ledger_with_bob clearing_seller_1 in
  get_entry (db (handle_of s)) 1 = Some bob
  /\ seller_1 bob = Some 10%float
  /\ calls (handle_of s)
     = [call_get_all_entries;
        call_update_entry 1 "seller_1" (a_float None);
        call_get_all_entries]
  /\ boxes (tk s) = []
  /\ status_var (tk s) = "Seller 1 updated successfully"
  /\ editing_entry (edit s) = None.
Proof. vm_compute. repeat split. Qed.

Lemma empty_name_is_refused_inline (now : Z) (s : gui) (w item i : nat) :
  single_editor s ->
  editing_entry (edit s) = Some w ->
  editing_item (edit s) = Some item ->
  editing_column (edit s) = Some "Name" ->
  editing_column_index (edit s) = Some i ->
  Py.strip (typed_text w s) = "" ->
  handle_of (take_turn now (deliver entry_return) s) = handle_of s.
Proof.
  intros Hs He Hi Hc Hx Ht. unfold take_turn, dispatch, run, handler.
  rewrite (finish_runs now s w item i "Name" Hs He Hi Hc Hx).
  fold (typed_text w s). rewrite Ht.
  rewrite <- (cancel_handle s).
  generalize (snd (_cancel_inline_edit s)).
  change (preserves handle_of (save_inline_value now (Some item) (Some "Name") i "")).
  unfold save_inline_value. apply preserves_bind; [frames|intros it].
  change (dict_get column_to_field (Some "Name")) with (Some "name").
  change (member "Name" currency_columns) with false.
  cbn [negb Py.truthy]. cbv iota.
  apply preserves_bind; [frames|intros _; apply start_handle].
Qed.

(** C10. On an existing record, [update_entry] with the empty string as
    name answers [True] and the stored name becomes the empty string:
    [""] is a provided value, not an absent one. The callers are the
    ones that refuse it: the menu that creates entries and the dialog
    do not reach the store with a name that strips to nothing, and the
    inline editor of the Name cell makes no call on the store when the
    typed text is empty. *)
Theorem update_entry_stores_empty_name
    (d : database) (now entry_id : Z) (r : row) :
  get_entry d entry_id = Some r ->
  (exists d' r',
     update_entry d now entry_id (Some "") None None None None None None None None
     = (d', true)
     /\ get_entry d' entry_id = Some r'
     /\ name r' = "")
  /\ (forall stdin, add_entry_menu d now ("" :: stdin) = (d, name_is_required))
  /\ (forall f, name_var f = "" -> _save f = None)
  /\ (forall s w item i,
        single_editor s ->
        editing_entry (edit s) = Some w ->
        editing_item (edit s) = Some item ->
        editing_column (edit s) = Some "Name" ->
        editing_column_index (edit s) = Some i ->
        Py.strip (typed_text w s) = "" ->
        handle_of (take_turn now (deliver entry_return) s) = handle_of s).
Proof.
  intros Hr. split; [|split; [reflexivity|split]].
  - destruct (update_entry_on_existing d now entry_id (Some "")
                None None None None None None None None r Hr)
      as (d' & r' & H1 & H2 & _ & _ & _ & H3 & _);
      [left; discriminate|].
    exists d', r'. auto.
  - intros f Hf. apply save_refuses_blank. rewrite Hf. reflexivity.
  - intros s w item i. apply empty_name_is_refused_inline.
Qed.

(** ** The search on a text with a wildcard *)

(** C7, on the code. The search text [r_b] is no part of the name rob,
    yet [search_by_name] returns the record: the text goes into the
    LIKE pattern as it is, and [_] stands for any character there. The
    examples of the specification do hold: bob finds Bob's Store and
    bobby, and does not find rob. *)
Theorem search_by_name_reads_wildcards :
  search_by_name ledger_with_rob "r_b" = [rob]
  /\ contains_nocase "r_b" (name rob) = false
  /\ Sql.like "%bob%" "Bob's Store" = true
  /\ Sql.like "%bob%" "bobby" = true
  /\ Sql.like "%bob%" "rob" = false.
Proof. vm_compute. repeat split. Qed.

(** * Further properties of the store *)

(** ** Deleting *)

Lemma sql_delete_rowcount (i : Z) (t : list row) :
  0 <= snd (sql_delete i t)
  /\ (0 <? snd (sql_delete i t)) = existsb (fun r => id r =? i) t.
Proof.
  induction t as [|r t [IH1 IH2]]; simpl; [split; [lia|reflexivity]|].
  destruct (sql_delete i t) as [u n]. simpl in *.
  destruct (id r =? i); simpl; split; try lia; try assumption.
Qed.

Lemma find_after_delete (i j : Z) (t : list row) :
  find (fun r => id r =? j) (filter (fun r => negb (id r =? i)) t)
  = if j =? i then None else find (fun r => id r =? j) t.
Proof.
  induction t as [|r t IH]; simpl; [destruct (j =? i); reflexivity|].
  destruct (id r =? i) eqn:Hi; simpl.
  - rewrite IH. destruct (j =? i) eqn:Hj; [reflexivity|].
    destruct (id r =? j) eqn:E; [|reflexivity].
    apply Z.eqb_eq in Hi, E. apply Z.eqb_neq in Hj. congruence.
  - destruct (id r =? j) eqn:E; [|exact IH].
    apply Z.eqb_eq in E. rewrite <- E, Hi. reflexivity.
Qed.

Lemma delete_entry_runs (d : database) (entry_id : Z) :
  delete_entry d entry_id
  = ({| table := filter (fun r => negb (id r =? entry_id)) (table d);
        sqlite_sequence := sqlite_sequence d |},
     match get_entry d entry_id with Some _ => true | None => false end).
Proof.
  unfold delete_entry, get_entry.
  pose proof (sql_delete_table entry_id (table d)) as Ht.
  destruct (sql_delete_rowcount entry_id (table d)) as [_ Hn].
  rewrite find_existsb in Hn.
  destruct (sql_delete entry_id (table d)) as [u n]. simpl in *.
  rewrite Ht, Hn. reflexivity.
Qed.

Lemma filter_absent (i : Z) (t : list row) :
  find (fun r => id r =? i) t = None ->
  filter (fun r => negb (id r =? i)) t = t.
Proof.
  induction t as [|r t IH]; simpl; [reflexivity|].
  destruct (id r =? i); [discriminate|]. intros H. simpl. rewrite (IH H).
  reflexivity.
Qed.

Lemma update_entry_fails_when_absent (d : database) (now entry_id : Z)
    (name0 : option string) (pb pt s1 s2 s3 s4 tt tb : option float) :
  get_entry d entry_id = None ->
  update_entry d now entry_id name0 pb pt s1 s2 s3 s4 tt tb = (d, false).
Proof.
  intros Hr.
  destruct (provided name0 pb pt s1 s2 s3 s4 tt tb) as [|a l] eqn:E.
  - unfold update_entry. rewrite E. reflexivity.
  - assert (Hne : provided name0 pb pt s1 s2 s3 s4 tt tb <> [])
      by (rewrite E; discriminate).
    rewrite (update_entry_runs d now entry_id _ _ _ _ _ _ _ _ _ Hne).
    cbv zeta.
    assert (Habs : existsb (fun r => id r =? entry_id) (table d) = false)
      by (rewrite find_existsb; unfold get_entry in Hr; rewrite Hr;
          reflexivity).
    rewrite (sql_update_absent _ entry_id (table d) Habs).
    destruct d; reflexivity.
Qed.

(** A call of [delete_entry] with a key that [sqlite3] can bind answers
    [True] exactly when a record has the key; afterwards a lookup of
    the key finds nothing, every other record is as it was, and the key
    counter has not moved. Deleting an absent key returns the store
    unchanged; so deleting twice, or updating what was deleted, answers
    [False] without effect. With a key outside the signed 64-bit range
    the call raises OverflowError and the store is as it was, and so
    does a lookup of that key. *)
Theorem delete_entry_removes_the_record (d : database) (entry_id : Z) :
  let result := delete_entry_call d entry_id in
  if sqlite_integer entry_id then
    snd result
    = answered
        match get_entry d entry_id with Some _ => true | None => false end
    /\ get_entry_call (fst result) entry_id = answered None
    /\ (forall j, j <> entry_id -> get_entry (fst result) j = get_entry d j)
    /\ sqlite_sequence (fst result) = sqlite_sequence d
    /\ (snd result = answered false -> fst result = d)
    /\ delete_entry_call (fst result) entry_id = (fst result, answered false)
    /\ (forall now name0 pb pt s1 s2 s3 s4 tt tb,
          update_entry_call (fst result) now entry_id name0
            pb pt s1 s2 s3 s4 tt tb
          = (fst result, answered false))
    /\ (forall now name0 pb pt s1 s2 s3 s4 tt tb,
          update_entry_complete_call (fst result) now entry_id name0
            pb pt s1 s2 s3 s4 tt tb
          = (fst result, answered false))
  else result = (d, fails OverflowError)
       /\ get_entry_call d entry_id = fails OverflowError.
Proof.
  cbv zeta. unfold delete_entry_call, update_entry_call,
    update_entry_complete_call, get_entry_call.
  destruct (sqlite_integer entry_id) eqn:Hkey; [|split; reflexivity].
  rewrite delete_entry_runs. simpl fst. simpl snd.
  set (d' := {| table := filter (fun r => negb (id r =? entry_id)) (table d);
                sqlite_sequence := sqlite_sequence d |}).
  assert (Hgone : get_entry d' entry_id = None).
  { unfold get_entry, d'. simpl. rewrite find_after_delete, Z.eqb_refl.
    reflexivity. }
  split; [reflexivity|]. split; [rewrite Hgone; reflexivity|]. split.
  { intros j Hj. unfold get_entry, d'. simpl. rewrite find_after_delete.
    destruct (j =? entry_id) eqn:E; [apply Z.eqb_eq in E; contradiction|].
    reflexivity. }
  split; [reflexivity|]. split.
  { unfold d'. destruct (get_entry d entry_id) eqn:E; [discriminate|].
    intros _. unfold get_entry in E. rewrite (filter_absent _ _ E).
    destruct d; reflexivity. }
  split.
  { rewrite delete_entry_runs, Hgone. unfold get_entry in Hgone.
    rewrite (filter_absent _ _ Hgone). destruct d'; reflexivity. }
  split.
  - intros now name0 pb pt s1 s2 s3 s4 tt tb.
    rewrite (update_entry_fails_when_absent d' now entry_id name0
               pb pt s1 s2 s3 s4 tt tb Hgone).
    destruct (provided name0 pb pt s1 s2 s3 s4 tt tb); reflexivity.
  - intros.
    rewrite (update_entry_complete_on_absent d' now entry_id name0
               pb pt s1 s2 s3 s4 tt tb Hgone).
    reflexivity.
Qed.

(** ** Keys over time *)

Lemma apply_op_well_formed (d : database) (o : store_op) :
  well_formed d -> well_formed (apply_op d o).
Proof.
  intros Hwf. destruct o; unfold apply_op.
  - destruct (add_entry_on_well_formed d now name0
                (amounts col_previous_balance) (amounts col_previous_total)
                (amounts col_seller_1) (amounts col_seller_2)
                (amounts col_seller_3) (amounts col_seller_4)
                (amounts col_today_total) (amounts col_today_balance) Hwf)
      as (Hadd & _ & _ & _ & H).
    rewrite Hadd. exact H.
  - apply update_entry_well_formed, Hwf.
  - apply update_entry_complete_well_formed, Hwf.
  - apply delete_entry_well_formed, Hwf.
Qed.

Lemma apply_op_counter (d : database) (o : store_op) :
  sqlite_sequence d <= sqlite_sequence (apply_op d o).
Proof.
  destruct o; unfold apply_op.
  - simpl. lia.
  - destruct (provided name0 (amounts col_previous_balance)
                (amounts col_previous_total) (amounts col_seller_1)
                (amounts col_seller_2) (amounts col_seller_3)
                (amounts col_seller_4) (amounts col_today_total)
                (amounts col_today_balance)) as [|a l] eqn:E.
    + unfold update_entry. rewrite E. simpl. lia.
    + rewrite update_entry_runs by (rewrite E; discriminate). simpl. lia.
  - rewrite update_entry_complete_runs. simpl. lia.
  - rewrite delete_entry_runs. simpl. lia.
Qed.

Lemma after_ops_well_formed (d : database) (ops : list store_op) :
  well_formed d -> well_formed (after_ops d ops).
Proof.
  unfold after_ops. revert d. induction ops as [|o ops IH]; intros d Hwf;
    simpl; [exact Hwf|]. apply IH, apply_op_well_formed, Hwf.
Qed.

Lemma after_ops_counter (d : database) (ops : list store_op) :
  sqlite_sequence d <= sqlite_sequence (after_ops d ops).
Proof.
  unfold after_ops. revert d. induction ops as [|o ops IH]; intros d;
    simpl; [lia|]. pose proof (apply_op_counter d o). specialize (IH (apply_op d o)).
  lia.
Qed.

(** Whatever is added, updated and deleted, starting from the empty
    table, the keys of the records stay distinct and positive, and a
    key is never handed out twice: the key [add_entry] returns differs
    from every key a record has now or had at any earlier moment, the
    deleted ones included. *)
Theorem keys_are_never_reused
    (before after : list store_op) (now : Z) (name0 : string)
    (pb pt s1 s2 s3 s4 tt tb : option float) :
  let earlier := after_ops empty_database before in
  let d := after_ops earlier after in
  let new_id := snd (add_entry d now name0 pb pt s1 s2 s3 s4 tt tb) in
  well_formed d
  /\ ~ In new_id (map id (table earlier))
  /\ ~ In new_id (map id (table d)).
Proof.
  cbv zeta.
  pose proof (after_ops_well_formed empty_database before
                empty_database_well_formed) as Hearlier.
  pose proof (after_ops_well_formed _ after Hearlier) as Hd.
  pose proof (after_ops_counter (after_ops empty_database before) after) as Hle.
  split; [exact Hd|]. simpl snd. split.
  - destruct Hearlier as (_ & _ & Hr). intros Hin.
    apply in_map_iff in Hin. destruct Hin as (x & Hx & Hin).
    rewrite Forall_forall in Hr. specialize (Hr x Hin). lia.
  - destruct Hd as (_ & _ & Hr). intros Hin.
    apply in_map_iff in Hin. destruct Hin as (x & Hx & Hin).
    rewrite Forall_forall in Hr. specialize (Hr x Hin). lia.
Qed.

(** ** Listing *)

Lemma find_unique (t : list row) (r : row) :
  NoDup (map id t) -> In r t -> find (fun x => id x =? id r) t = Some r.
Proof.
  induction t as [|x t IH]; simpl; intros Hn Hin; [contradiction|].
  inversion Hn as [|? ? Hnot Hrest]; subst.
  destruct Hin as [->|Hin]; [rewrite Z.eqb_refl; reflexivity|].
  destruct (id x =? id r) eqn:E; [|apply IH; assumption].
  apply Z.eqb_eq in E. exfalso. apply Hnot. rewrite E. apply in_map, Hin.
Qed.

(** [get_all_entries] returns every record of the store once, most
    recently updated first, and the records it returns are the ones
    [get_entry] finds under their keys. *)
Theorem get_all_entries_lists_every_record (d : database) :
  well_formed d ->
  Permutation (get_all_entries d) (table d)
  /\ newest_first (get_all_entries d)
  /\ (forall r, In r (get_all_entries d) -> get_entry d (id r) = Some r)
  /\ (forall i r, get_entry d i = Some r -> In r (get_all_entries d)).
Proof.
  intros (Hn & _). unfold get_all_entries.
  split; [apply order_by_perm|]. split; [apply order_by_sorted|]. split.
  - intros r Hin. apply find_unique; [exact Hn|].
    apply (Permutation_in _ (order_by_perm (table d))), Hin.
  - intros i r Hr. apply find_some in Hr. destruct Hr as [Hin _].
    apply (Permutation_in _ (Permutation_sym (order_by_perm (table d)))), Hin.
Qed.

Lemma newest_is_first (l : list row) (now i : Z) (x : row) :
  newest_first l ->
  In x l -> updated_at x = now ->
  (forall y, In y l -> updated_at y <= now /\ (updated_at y = now -> id y = i)) ->
  exists h rest, l = h :: rest /\ id h = i /\ updated_at h = now.
Proof.
  intros Hs Hin Hx Hall. destruct l as [|h rest]; [contradiction|].
  exists h, rest. split; [reflexivity|].
  assert (Hh : updated_at h = now).
  { destruct (Hall h (or_introl eq_refl)) as [Hle _].
    destruct Hin as [->|Hin]; [exact Hx|].
    inversion Hs as [|? ? _ Hf]; subst.
    rewrite Forall_forall in Hf. specialize (Hf x Hin). simpl in Hf. lia. }
  split; [|exact Hh]. apply (Hall h (or_introl eq_refl)), Hh.
Qed.

Lemma updated_rows (u : row -> row) (i now : Z) (t : list row) (y : row) :
  (forall r, id (u r) = id r) ->
  (forall r, updated_at (u r) = now) ->
  Forall (fun r => updated_at r < now) t ->
  In y (map (fun r => if id r =? i then u r else r) t) ->
  updated_at y <= now /\ (updated_at y = now -> id y = i).
Proof.
  intros Hid Hu Hold Hin. apply in_map_iff in Hin.
  destruct Hin as (r & Hy & Hin). rewrite Forall_forall in Hold.
  specialize (Hold r Hin). destruct (id r =? i) eqn:E; subst y.
  - apply Z.eqb_eq in E. rewrite Hu, Hid. split; [lia|auto].
  - split; lia.
Qed.

(** A record written at a clock reading later than every stamp in the
    store comes first in [get_all_entries]: the record just added, and
    the record just changed by a successful partial update or full
    replace. *)
Theorem the_record_just_written_is_listed_first
    (d : database) (now entry_id : Z) (name0 : string) (name1 : option string)
    (pb pt s1 s2 s3 s4 tt tb : option float) :
  well_formed d ->
  Forall (fun r => updated_at r < now) (table d) ->
  (let result := add_entry d now name0 pb pt s1 s2 s3 s4 tt tb in
   exists h rest, get_all_entries (fst result) = h :: rest
                  /\ id h = snd result /\ updated_at h = now)
  /\ (snd (update_entry d now entry_id name1 pb pt s1 s2 s3 s4 tt tb) = true ->
      exists h rest,
        get_all_entries
          (fst (update_entry d now entry_id name1 pb pt s1 s2 s3 s4 tt tb))
        = h :: rest
        /\ id h = entry_id /\ updated_at h = now)
  /\ (snd (update_entry_complete d now entry_id name0 pb pt s1 s2 s3 s4 tt tb)
      = true ->
      exists h rest,
        get_all_entries
          (fst (update_entry_complete d now entry_id name0
                  pb pt s1 s2 s3 s4 tt tb))
        = h :: rest
        /\ id h = entry_id /\ updated_at h = now).
Proof.
  intros Hwf Hold. split; [|split].
  - cbv zeta.
    destruct (add_entry_on_well_formed d now name0 pb pt s1 s2 s3 s4 tt tb Hwf)
      as (Hadd & _). rewrite Hadd. simpl fst. simpl snd.
    set (r := mkRow (sqlite_sequence d + 1) name0 (stored pb) (stored pt)
                (stored s1) (stored s2) (stored s3) (stored s4) (stored tt)
                (stored tb) now now).
    unfold get_all_entries. simpl table.
    apply (newest_is_first _ now (sqlite_sequence d + 1) r);
      [apply order_by_sorted| |reflexivity|].
    + apply (Permutation_in _ (Permutation_sym (order_by_perm _))).
      apply in_or_app. right. left. reflexivity.
    + intros y Hy. apply (Permutation_in _ (order_by_perm _)) in Hy.
      apply in_app_or in Hy. destruct Hy as [Hy|[<-|[]]].
      * rewrite Forall_forall in Hold. specialize (Hold y Hy). split; lia.
      * simpl. split; [lia|reflexivity].
  - intros Hok.
    destruct (provided name1 pb pt s1 s2 s3 s4 tt tb) as [|a l] eqn:E;
      [unfold update_entry in Hok; rewrite E in Hok; discriminate|].
    assert (Hne : provided name1 pb pt s1 s2 s3 s4 tt tb <> [])
      by (rewrite E; discriminate).
    rewrite (update_entry_runs d now entry_id _ _ _ _ _ _ _ _ _ Hne) in *.
    cbv zeta in *. simpl fst. simpl snd in Hok.
    set (set := (provided name1 pb pt s1 s2 s3 s4 tt tb
                 ++ [set_updated_at now])%list) in *.
    destruct (sql_update_rowcount set entry_id (table d)) as [_ Hcount].
    rewrite Hok, find_existsb in Hcount.
    destruct (find (fun r => id r =? entry_id) (table d)) as [r|] eqn:Hr;
      [|discriminate].
    destruct (provided_row now name1 pb pt s1 s2 s3 s4 tt tb r) as (_ & Hu & _).
    unfold get_all_entries. simpl table. rewrite sql_update_table.
    assert (Hstamp : forall x,
              updated_at (fold_left (fun r a => assign a r) set x) = now)
      by (intros x; apply (provided_row now name1 pb pt s1 s2 s3 s4 tt tb x)).
    apply (newest_is_first _ now entry_id
             (fold_left (fun r a => assign a r) set r));
      [apply order_by_sorted| |apply Hstamp|].
    + apply (Permutation_in _ (Permutation_sym (order_by_perm _))).
      apply in_map_iff. exists r. apply find_some in Hr.
      destruct Hr as [Hin Hid]. rewrite Hid. auto.
    + intros y Hy. apply (Permutation_in _ (order_by_perm _)) in Hy.
      apply (updated_rows (fun r => fold_left (fun r a => assign a r) set r)
               entry_id now (table d) y);
        [intros; apply assign_all_id|exact Hstamp|exact Hold|exact Hy].
  - intros Hok. rewrite update_entry_complete_runs in *. cbv zeta in *.
    simpl fst. simpl snd in Hok.
    match type of Hok with context [sql_update ?l _ _] => set (set := l) in * end.
    destruct (sql_update_rowcount set entry_id (table d)) as [_ Hcount].
    rewrite Hok, find_existsb in Hcount.
    destruct (find (fun r => id r =? entry_id) (table d)) as [r|] eqn:Hr;
      [|discriminate].
    unfold get_all_entries. simpl table. rewrite sql_update_table.
    assert (Hstamp : forall x,
              updated_at (fold_left (fun r a => assign a r) set x) = now)
      by (intros x; reflexivity).
    apply (newest_is_first _ now entry_id
             (fold_left (fun r a => assign a r) set r));
      [apply order_by_sorted| |apply Hstamp|].
    + apply (Permutation_in _ (Permutation_sym (order_by_perm _))).
      apply in_map_iff. exists r. apply find_some in Hr.
      destruct Hr as [Hin Hid]. rewrite Hid. auto.
    + intros y Hy. apply (Permutation_in _ (order_by_perm _)) in Hy.
      apply (updated_rows (fun r => fold_left (fun r a => assign a r) set r)
               entry_id now (table d) y);
        [intros; apply assign_all_id|exact Hstamp|exact Hold|exact Hy].
Qed.

(** ** What no call rewrites *)

Lemma find_in_updated (set : list assignment) (i j : Z) (t : list row) :
  find (fun r => id r =? j) (fst (sql_update set i t))
  = if j =? i
    then option_map (fold_left (fun r a => assign a r) set)
           (find (fun r => id r =? j) t)
    else find (fun r => id r =? j) t.
Proof.
  rewrite sql_update_table.
  apply (find_after_update (fold_left (fun r a => assign a r) set)).
  intros r. apply assign_all_id.
Qed.

Lemma get_entry_key (d : database) (i : Z) (r : row) :
  get_entry d i = Some r -> id r = i /\ In r (table d).
Proof.
  unfold get_entry. intros H. apply find_some in H. destruct H as [Hin Hid].
  apply Z.eqb_eq in Hid. auto.
Qed.

(** One writing call seen from a key [j]: a record under [j] keeps its
    key and its creation time if it is still there, and a key that was
    handed out and has no record gets none. *)
Lemma apply_op_get (d : database) (o : store_op) (j : Z) :
  well_formed d ->
  match get_entry d j with
  | Some r =>
      match get_entry (apply_op d o) j with
      | Some r' => created_at r' = created_at r
      | None => True
      end
  | None => j <= sqlite_sequence d -> get_entry (apply_op d o) j = None
  end.
Proof.
  intros Hwf.
  assert (Hset : forall set i,
            match get_entry d j with
            | Some r =>
                match find (fun r => id r =? j)
                        (fst (sql_update set i (table d))) with
                | Some r' => created_at r' = created_at r
                | None => True
                end
            | None =>
                find (fun r => id r =? j) (fst (sql_update set i (table d)))
                = None
            end).
  { intros set i. rewrite find_in_updated. unfold get_entry.
    destruct (find (fun r => id r =? j) (table d)) as [r|];
      destruct (j =? i); simpl; auto using assign_all_created_at. }
  destruct o; unfold apply_op.
  - destruct (add_entry_on_well_formed d now name0
                (amounts col_previous_balance) (amounts col_previous_total)
                (amounts col_seller_1) (amounts col_seller_2)
                (amounts col_seller_3) (amounts col_seller_4)
                (amounts col_today_total) (amounts col_today_balance) Hwf)
      as (Hadd & _ & _ & Hother & _).
    rewrite Hadd. simpl fst.
    destruct (get_entry d j) as [r|] eqn:Hr.
    + rewrite Hother, Hr; [reflexivity|].
      apply get_entry_key in Hr. destruct Hr as [Hid Hin].
      destruct Hwf as (_ & _ & Hrange). rewrite Forall_forall in Hrange.
      specialize (Hrange r Hin). lia.
    + intros Hj. rewrite Hother; [exact Hr|lia].
  - destruct (provided name0 (amounts col_previous_balance)
                (amounts col_previous_total) (amounts col_seller_1)
                (amounts col_seller_2) (amounts col_seller_3)
                (amounts col_seller_4) (amounts col_today_total)
                (amounts col_today_balance)) as [|a l] eqn:E.
    + unfold update_entry. rewrite E. simpl fst.
      destruct (get_entry d j); auto.
    + rewrite update_entry_runs by (rewrite E; discriminate).
      cbv zeta. simpl fst. unfold get_entry at 2 3. simpl table. rewrite E.
      specialize (Hset ((a :: l) ++ [set_updated_at now])%list entry_id).
      destruct (get_entry d j); auto.
  - rewrite update_entry_complete_runs. cbv zeta. simpl fst.
    unfold get_entry at 2 3. simpl table.
    match goal with
    | |- context [sql_update ?l _ _] => specialize (Hset l entry_id)
    end.
    destruct (get_entry d j); auto.
  - rewrite delete_entry_runs. simpl fst. unfold get_entry at 2 3.
    simpl table. rewrite find_after_delete. unfold get_entry.
    destruct (find (fun r => id r =? j) (table d)) as [r|];
      destruct (j =? entry_id); auto.
Qed.

Lemma after_ops_absent (d : database) (ops : list store_op) (j : Z) :
  well_formed d -> j <= sqlite_sequence d -> get_entry d j = None ->
  get_entry (after_ops d ops) j = None.
Proof.
  unfold after_ops. revert d.
  induction ops as [|o ops IH]; intros d Hwf Hj Hr; simpl; [exact Hr|].
  pose proof (apply_op_get d o j Hwf) as H. rewrite Hr in H.
  apply IH; [apply apply_op_well_formed, Hwf| |exact (H Hj)].
  pose proof (apply_op_counter d o). lia.
Qed.

(** Through any sequence of adds, updates, full replaces and deletes, a
    record found under a key has the creation time the record under
    that key had before: no call rewrites [created_at], and a key whose
    record was deleted is not given to another record. *)
Theorem created_at_is_never_rewritten
    (d : database) (ops : list store_op) (i : Z) :
  well_formed d ->
  (forall r r',
     get_entry d i = Some r -> get_entry (after_ops d ops) i = Some r' ->
     created_at r' = created_at r)
  /\ (i <= sqlite_sequence d -> get_entry d i = None ->
      get_entry (after_ops d ops) i = None).
Proof.
  intros Hwf. split; [|apply after_ops_absent, Hwf].
  unfold after_ops. revert d Hwf.
  induction ops as [|o ops IH]; intros d Hwf r r' Hr Hr'; simpl in Hr'.
  - congruence.
  - pose proof (apply_op_get d o i Hwf) as H. rewrite Hr in H.
    destruct (get_entry (apply_op d o) i) as [r1|] eqn:H1.
    + rewrite <- H.
      apply (IH (apply_op d o) (apply_op_well_formed d o Hwf) r1 r' H1 Hr').
    + exfalso.
      assert (Hi : i <= sqlite_sequence (apply_op d o)).
      { apply get_entry_key in Hr. destruct Hr as [Hid Hin].
        destruct Hwf as (_ & _ & Hrange). rewrite Forall_forall in Hrange.
        specialize (Hrange r Hin). pose proof (apply_op_counter d o). lia. }
      pose proof (after_ops_absent (apply_op d o) ops i
                    (apply_op_well_formed d o Hwf) Hi H1) as Habs.
      unfold after_ops in Habs. congruence.
Qed.

Lemma row_ext (r r' : row) :
  id r = id r' -> name r = name r' ->
  (forall c, real_of c r = real_of c r') ->
  created_at r = created_at r' -> updated_at r = updated_at r' ->
  r = r'.
Proof.
  destruct r, r'. simpl. intros -> -> H -> ->.
  pose proof (H col_previous_balance). pose proof (H col_previous_total).
  pose proof (H col_seller_1). pose proof (H col_seller_2).
  pose proof (H col_seller_3). pose proof (H col_seller_4).
  pose proof (H col_today_total). pose proof (H col_today_balance).
  simpl in *. congruence.
Qed.

Lemma existsb_keys (i : Z) (t t' : list row) :
  map id t = map id t' ->
  existsb (fun r => id r =? i) t = existsb (fun r => id r =? i) t'.
Proof.
  revert t'. induction t as [|r t IH]; intros [|r' t'] H; try discriminate;
    [reflexivity|].
  simpl in *. inversion H as [[H1 H2]]. rewrite H1, (IH t' H2). reflexivity.
Qed.

(** An UPDATE whose SET items overwrite with constants, run twice. *)
Lemma sql_update_twice (set : list assignment) (i : Z) (t : list row) :
  (forall r, fold_left (fun r a => assign a r) set
               (fold_left (fun r a => assign a r) set r)
             = fold_left (fun r a => assign a r) set r) ->
  fst (sql_update set i (fst (sql_update set i t))) = fst (sql_update set i t)
  /\ (0 <? snd (sql_update set i (fst (sql_update set i t))))
     = (0 <? snd (sql_update set i t)).
Proof.
  intros Hset. split.
  - rewrite !sql_update_table, map_map. apply map_ext. intros r.
    destruct (id r =? i) eqn:E; [|rewrite E; reflexivity].
    rewrite assign_all_id, E. apply Hset.
  - rewrite (proj2 (sql_update_rowcount set i _)),
      (proj2 (sql_update_rowcount set i t)).
    apply existsb_keys, sql_update_ids.
Qed.

Lemma provided_twice (now : Z) (name0 : option string)
    (pb pt s1 s2 s3 s4 tt tb : option float) (r : row) :
  let F := fold_left (fun r a => assign a r)
             (provided name0 pb pt s1 s2 s3 s4 tt tb
              ++ [set_updated_at now])%list in
  F (F r) = F r.
Proof.
  cbv zeta.
  set (F := fold_left (fun r a => assign a r)
              (provided name0 pb pt s1 s2 s3 s4 tt tb
               ++ [set_updated_at now])%list).
  destruct (provided_row now name0 pb pt s1 s2 s3 s4 tt tb (F r))
    as (Hn2 & Hu2 & Hr2).
  destruct (provided_row now name0 pb pt s1 s2 s3 s4 tt tb r)
    as (Hn1 & Hu1 & Hr1).
  fold F in Hn1, Hu1, Hr1, Hn2, Hu2, Hr2.
  apply row_ext.
  - unfold F. rewrite !assign_all_id. reflexivity.
  - rewrite Hn2. destruct name0; [symmetry; exact Hn1|reflexivity].
  - intros c. rewrite Hr2.
    destruct (argument c pb pt s1 s2 s3 s4 tt tb) eqn:E; [|reflexivity].
    rewrite Hr1, E. reflexivity.
  - unfold F. rewrite !assign_all_created_at. reflexivity.
  - congruence.
Qed.

(** An update can be repeated: the same partial update, or the same
    full replace, made a second time at the same clock reading leaves
    the store as the first left it and gives the same answer. And when
    the name and all eight amounts are given, the partial update and
    the full replace are the same call; they differ only where an
    amount is [None], which the one skips and the other stores as
    NULL. *)
Theorem repeating_an_update_changes_nothing
    (d : database) (now entry_id : Z) (name0 : option string)
    (name1 : string) (pb pt s1 s2 s3 s4 tt tb : option float) :
  (let once := update_entry d now entry_id name0 pb pt s1 s2 s3 s4 tt tb in
   update_entry (fst once) now entry_id name0 pb pt s1 s2 s3 s4 tt tb = once)
  /\ (let once :=
        update_entry_complete d now entry_id name1 pb pt s1 s2 s3 s4 tt tb in
      update_entry_complete (fst once) now entry_id name1
        pb pt s1 s2 s3 s4 tt tb = once)
  /\ (forall x1 x2 x3 x4 x5 x6 x7 x8 : float,
        update_entry d now entry_id (Some name1) (Some x1) (Some x2)
          (Some x3) (Some x4) (Some x5) (Some x6) (Some x7) (Some x8)
        = update_entry_complete d now entry_id name1 (Some x1) (Some x2)
            (Some x3) (Some x4) (Some x5) (Some x6) (Some x7) (Some x8)).
Proof.
  split; [|split; [|reflexivity]]; cbv zeta.
  - destruct (provided name0 pb pt s1 s2 s3 s4 tt tb) as [|a l] eqn:E.
    + unfold update_entry. rewrite E. simpl. rewrite ?E. reflexivity.
    + assert (Hne : provided name0 pb pt s1 s2 s3 s4 tt tb <> [])
        by (rewrite E; discriminate).
      rewrite !(update_entry_runs _ now entry_id _ _ _ _ _ _ _ _ _ Hne).
      cbv zeta. simpl fst. simpl table. simpl sqlite_sequence.
      destruct (sql_update_twice _ entry_id (table d)
                  (provided_twice now name0 pb pt s1 s2 s3 s4 tt tb))
        as [H1 H2].
      rewrite H1, H2. reflexivity.
  - rewrite !update_entry_complete_runs. cbv zeta. simpl fst.
    simpl table. simpl sqlite_sequence.
    match goal with
    | |- context [sql_update ?l entry_id (table d)] =>
        destruct (sql_update_twice l entry_id (table d)
                    (fun r => eq_refl)) as [H1 H2]
    end.
    rewrite H1, H2. reflexivity.
Qed.

(** * Properties of the command-line menus *)

Lemma truthy_strip (s : string) : Py.truthy (Py.strip s) = negb (blank s).
Proof.
  destruct (blank s) eqn:E.
  - apply strip_blank in E. rewrite E. reflexivity.
  - destruct (Py.strip s) eqn:E'; [|reflexivity].
    apply strip_blank in E'. congruence.
Qed.

Lemma get_float_input_reads (stdin : list string) :
  match get_float_input stdin with
  | Some (v, rest) =>
      exists skipped line,
        stdin = (skipped ++ line :: rest)%list
        /\ Forall (fun l => blank l = false /\ py_float (Py.strip l) = None)
             skipped
        /\ match v with
           | None => blank line = true
           | Some x => blank line = false /\ py_float (Py.strip line) = Some x
           end
  | None =>
      Forall (fun l => blank l = false /\ py_float (Py.strip l) = None) stdin
  end.
Proof.
  induction stdin as [|line stdin IH]; simpl; [constructor|].
  rewrite truthy_strip, negb_involutive.
  destruct (blank line) eqn:Hb.
  - exists [], line. repeat split; [constructor|exact Hb].
  - destruct (py_float (Py.strip line)) as [x|] eqn:Hf.
    + exists [], line. repeat split; [constructor|exact Hb|exact Hf].
    + destruct (get_float_input stdin) as [[v rest]|].
      * destruct IH as (skipped & line' & -> & Hs & Hv).
        exists (line :: skipped), line'. repeat split; [|exact Hv].
        constructor; [split; assumption|exact Hs].
      * constructor; [split; assumption|exact IH].
Qed.

(** [get_float_input] asks again as long as the answer is neither empty
    nor a number: it returns on the first line that is blank (with
    [None]) or that [float] accepts once stripped (with that number),
    leaves the lines after it unread, and runs out of input exactly
    when no line is of either kind. *)
Theorem get_float_input_asks_until_blank_or_number (stdin : list string) :
  match get_float_input stdin with
  | Some (v, rest) =>
      exists skipped line,
        stdin = (skipped ++ line :: rest)%list
        /\ Forall (fun l => blank l = false /\ py_float (Py.strip l) = None)
             skipped
        /\ match v with
           | None => blank line = true
           | Some x => blank line = false /\ py_float (Py.strip line) = Some x
           end
  | None =>
      Forall (fun l => blank l = false /\ py_float (Py.strip l) = None) stdin
  end.
Proof. apply get_float_input_reads. Qed.

(** The answer of [get_float_input] is nothing or a number read off one
    of the lines, and the lines left are the end of the input. *)
Lemma get_float_input_value (stdin rest : list string) (v : option float) :
  get_float_input stdin = Some (v, rest) ->
  (v = None
   \/ exists line x,
        In line stdin /\ py_float (Py.strip line) = Some x /\ v = Some x)
  /\ (forall l, In l rest -> In l stdin).
Proof.
  intros H. pose proof (get_float_input_reads stdin) as Hr. rewrite H in Hr.
  destruct Hr as (skipped & line & -> & _ & Hv). split.
  - destruct v as [x|]; [right|left; reflexivity].
    exists line, x. split; [apply in_or_app; right; left; reflexivity|].
    split; [apply Hv|reflexivity].
  - intros l Hl. apply in_or_app. right. right. exact Hl.
Qed.

Lemma typed_on_earlier (stdin rest : list string) (v : option float) :
  (forall l, In l rest -> In l stdin) -> typed_on rest v -> typed_on stdin v.
Proof.
  intros Hsub [->|(line & x & Hin & Hf & ->)]; [left; reflexivity|].
  right. exists line, x. auto.
Qed.

Lemma read_eight_amounts {A : Type} (stdin : list string) (eof : A)
    (k : option float -> option float -> option float -> option float ->
         option float -> option float -> option float -> option float -> A) :
  match get_float_input stdin with
  | None => eof
  | Some (pb, stdin) =>
  match get_float_input stdin with
  | None => eof
  | Some (pt, stdin) =>
  match get_float_input stdin with
  | None => eof
  | Some (s1, stdin) =>
  match get_float_input stdin with
  | None => eof
  | Some (s2, stdin) =>
  match get_float_input stdin with
  | None => eof
  | Some (s3, stdin) =>
  match get_float_input stdin with
  | None => eof
  | Some (s4, stdin) =>
  match get_float_input stdin with
  | None => eof
  | Some (tot, stdin) =>
  match get_float_input stdin with
  | None => eof
  | Some (tb, _) => k pb pt s1 s2 s3 s4 tot tb
  end end end end end end end end
  = eof
  \/ exists pb pt s1 s2 s3 s4 tot tb,
       match get_float_input stdin with
       | None => eof
       | Some (pb, stdin) =>
       match get_float_input stdin with
       | None => eof
       | Some (pt, stdin) =>
       match get_float_input stdin with
       | None => eof
       | Some (s1, stdin) =>
       match get_float_input stdin with
       | None => eof
       | Some (s2, stdin) =>
       match get_float_input stdin with
       | None => eof
       | Some (s3, stdin) =>
       match get_float_input stdin with
       | None => eof
       | Some (s4, stdin) =>
       match get_float_input stdin with
       | None => eof
       | Some (tot, stdin) =>
       match get_float_input stdin with
       | None => eof
       | Some (tb, _) => k pb pt s1 s2 s3 s4 tot tb
       end end end end end end end end
       = k pb pt s1 s2 s3 s4 tot tb
       /\ forall c, typed_on stdin (argument c pb pt s1 s2 s3 s4 tot tb).
Proof.
  destruct (get_float_input stdin) as [[pb r1]|] eqn:E1; [|left; reflexivity].
  destruct (get_float_input r1) as [[pt r2]|] eqn:E2; [|left; reflexivity].
  destruct (get_float_input r2) as [[s1 r3]|] eqn:E3; [|left; reflexivity].
  destruct (get_float_input r3) as [[s2 r4]|] eqn:E4; [|left; reflexivity].
  destruct (get_float_input r4) as [[s3 r5]|] eqn:E5; [|left; reflexivity].
  destruct (get_float_input r5) as [[s4 r6]|] eqn:E6; [|left; reflexivity].
  destruct (get_float_input r6) as [[tot r7]|] eqn:E7; [|left; reflexivity].
  destruct (get_float_input r7) as [[tb r8]|] eqn:E8; [|left; reflexivity].
  right. exists pb, pt, s1, s2, s3, s4, tot, tb. split; [reflexivity|].
  apply get_float_input_value in E1, E2, E3, E4, E5, E6, E7, E8.
  destruct E1 as [V1 S1], E2 as [V2 S2], E3 as [V3 S3], E4 as [V4 S4],
    E5 as [V5 S5], E6 as [V6 S6], E7 as [V7 S7], E8 as [V8 _].
  assert (T2 : forall l, In l r2 -> In l stdin) by auto.
  assert (T3 : forall l, In l r3 -> In l stdin) by auto.
  assert (T4 : forall l, In l r4 -> In l stdin) by auto.
  assert (T5 : forall l, In l r5 -> In l stdin) by auto.
  assert (T6 : forall l, In l r6 -> In l stdin) by auto.
  assert (T7 : forall l, In l r7 -> In l stdin) by auto.
  intros []; simpl;
    eauto using typed_on_earlier.
Qed.

Lemma provided_something (name0 : option string)
    (pb pt s1 s2 s3 s4 tt tb : option float) :
  provided name0 pb pt s1 s2 s3 s4 tt tb <> [] ->
  name0 <> None \/ exists c, argument c pb pt s1 s2 s3 s4 tt tb <> None.
Proof.
  intros H.
  destruct name0; [left; discriminate|].
  destruct pb; [right; exists col_previous_balance; discriminate|].
  destruct pt; [right; exists col_previous_total; discriminate|].
  destruct s1; [right; exists col_seller_1; discriminate|].
  destruct s2; [right; exists col_seller_2; discriminate|].
  destruct s3; [right; exists col_seller_3; discriminate|].
  destruct s4; [right; exists col_seller_4; discriminate|].
  destruct tt; [right; exists col_today_total; discriminate|].
  destruct tb; [right; exists col_today_balance; discriminate|].
  exfalso. apply H. reflexivity.
Qed.

(** [add_entry_menu] changes the store only by adding one record, and
    only when the first line is not blank and eight amounts could be
    read: the record gets the next key, the stripped line as its name
    (never the empty string), the clock reading in both stamps, and in
    every amount NULL or a number typed on a later line. A blank first
    line is refused, an exhausted input ends the menu, and both leave
    the store as it was. *)
Theorem add_entry_menu_adds_one_named_record
    (d : database) (now : Z) (stdin : list string) :
  match add_entry_menu d now stdin with
  | (d', entry_added entry_id) =>
      exists line rest r,
        stdin = line :: rest
        /\ blank line = false
        /\ table d' = (table d ++ [r])%list
        /\ entry_id = sqlite_sequence d + 1
        /\ sqlite_sequence d' = entry_id
        /\ id r = entry_id
        /\ name r = Py.strip line
        /\ name r <> ""
        /\ created_at r = now
        /\ updated_at r = now
        /\ forall c, exists v, typed_on rest v /\ real_of c r = stored v
  | (d', name_is_required) =>
      d' = d /\ exists line rest, stdin = line :: rest /\ blank line = true
  | (d', eof_error) => d' = d
  end.
Proof.
  unfold add_entry_menu. destruct stdin as [|line rest]; [reflexivity|].
  rewrite truthy_strip, negb_involutive.
  destruct (blank line) eqn:Hb; [split; [reflexivity|eauto]|].
  pose proof (read_eight_amounts rest (d, eof_error)
                (fun pb pt s1 s2 s3 s4 tot tb =>
                   let (d', entry_id) :=
                     add_entry d now (Py.strip line) pb pt s1 s2 s3 s4 tot tb in
                   (d', entry_added entry_id))) as H.
  cbv beta in H. destruct H as [H|(pb & pt & s1 & s2 & s3 & s4 & tot & tb & H & Ht)];
    rewrite H; [reflexivity|].
  unfold add_entry. cbv zeta.
  eexists line, rest, _. split; [reflexivity|]. split; [exact Hb|].
  split; [reflexivity|]. repeat (split; [reflexivity|]).
  split; [simpl; intros E; apply strip_blank in E; congruence|].
  repeat (split; [reflexivity|]).
  intros c. exists (argument c pb pt s1 s2 s3 s4 tot tb).
  split; [apply Ht|]. destruct c; reflexivity.
Qed.

(** [update_entry_menu] changes the store only when it reports success,
    and then only the record whose key was typed: a blank answer keeps
    the name, any other answer stores the stripped text, so a record
    with a name keeps having one; an amount keeps its value or holds
    what SQLite stores for a number typed on a later line, which is
    NULL when SQLite stores NULL for that number, as it does for nan;
    the creation time and every other record stay as they were. The
    report of a failure after the record was found means that the name
    was left blank, and the store is unchanged. *)
Theorem update_entry_menu_changes_what_was_answered
    (d : database) (now : Z) (stdin : list string) :
  match update_entry_menu d now stdin with
  | (d', entry_updated) =>
      exists key answer rest entry_id r r',
        stdin = key :: answer :: rest
        /\ py_int key = Some entry_id
        /\ get_entry d entry_id = Some r
        /\ get_entry d' entry_id = Some r'
        /\ name r' = (if blank answer then name r else Py.strip answer)
        /\ (name r <> "" -> name r' <> "")
        /\ (forall c, exists v,
              typed_on rest v
              /\ real_of c r' = match v with
                                | Some x => sql_real x
                                | None => real_of c r
                                end)
        /\ created_at r' = created_at r
        /\ updated_at r' = now
        /\ (forall j, j <> entry_id -> get_entry d' j = get_entry d j)
        /\ map id (table d') = map id (table d)
        /\ sqlite_sequence d' = sqlite_sequence d
  | (d', update_failed) =>
      d' = d
      /\ exists key answer rest,
           stdin = key :: answer :: rest /\ blank answer = true
  | (d', _) => d' = d
  end.
Proof.
  unfold update_entry_menu. destruct stdin as [|key stdin]; [reflexivity|].
  destruct (py_int key) as [entry_id|] eqn:Hkey; [|reflexivity].
  destruct (negb (sqlite_integer entry_id)); [reflexivity|].
  destruct (get_entry d entry_id) as [r|] eqn:Hr; [|reflexivity].
  destruct stdin as [|answer rest]; [reflexivity|].
  cbv zeta. rewrite truthy_strip.
  pose proof (read_eight_amounts rest (d, update_eof)
                (fun pb pt s1 s2 s3 s4 tot tb =>
                   let (d', updated) :=
                     update_entry d now entry_id
                       (if negb (blank answer) then Some (Py.strip answer)
                        else None) pb pt s1 s2 s3 s4 tot tb in
                   (d', if updated then entry_updated else update_failed)))
    as H.
  cbv beta in H.
  destruct H as [H|(pb & pt & s1 & s2 & s3 & s4 & tot & tb & H & Ht)];
    rewrite H; [reflexivity|]. clear H.
  set (name0 := if negb (blank answer) then Some (Py.strip answer) else None).
  destruct (provided name0 pb pt s1 s2 s3 s4 tot tb) as [|a l] eqn:E.
  - unfold update_entry. rewrite E. split; [reflexivity|].
    exists key, answer, rest. split; [reflexivity|].
    apply provided_nil in E. destruct E as [E _]. unfold name0 in E.
    destruct (blank answer); [reflexivity|discriminate].
  - assert (Hne : provided name0 pb pt s1 s2 s3 s4 tot tb <> [])
      by (rewrite E; discriminate).
    destruct (update_entry_on_existing d now entry_id name0
                pb pt s1 s2 s3 s4 tot tb r Hr (provided_something _ _ _ _ _ _ _ _ _ Hne))
      as (d' & r' & Hu & Hg & _ & Hc & Hup & Hn & Hreal & Hother & Hids & Hseq).
    rewrite Hu.
    exists key, answer, rest, entry_id, r, r'.
    split; [reflexivity|]. split; [exact Hkey|]. split; [exact Hr|].
    split; [exact Hg|].
    assert (Hname : name r' = (if blank answer then name r else Py.strip answer))
      by (rewrite Hn; unfold name0; destruct (blank answer); reflexivity).
    split; [exact Hname|]. split.
    { rewrite Hname. destruct (blank answer) eqn:Hb; [auto|].
      intros _ Hs. apply strip_blank in Hs. congruence. }
    split.
    { intros c. exists (argument c pb pt s1 s2 s3 s4 tot tb).
      split; [apply Ht|apply Hreal]. }
    auto.
Qed.

Lemma delete_entry_on_existing (d : database) (entry_id : Z) (r : row) :
  get_entry d entry_id = Some r ->
  exists d',
    delete_entry d entry_id = (d', true)
    /\ get_entry d' entry_id = None
    /\ (forall j, j <> entry_id -> get_entry d' j = get_entry d j)
    /\ sqlite_sequence d' = sqlite_sequence d.
Proof.
  intros Hr. rewrite delete_entry_runs, Hr. eexists. split; [reflexivity|].
  unfold get_entry. simpl.
  split; [rewrite find_after_delete, Z.eqb_refl; reflexivity|].
  split; [|reflexivity].
  intros j Hj. rewrite find_after_delete.
  destruct (j =? entry_id) eqn:E; [apply Z.eqb_eq in E; contradiction|].
  reflexivity.
Qed.

(** [delete_entry_menu] removes a record only when the typed key has a
    record and the confirmation, stripped and in lower case, is the
    word yes; then that record is gone and every other one is kept. In
    all other cases the store is unchanged. The branch that reports a
    failed delete is never taken: the record was just found. *)
Theorem delete_entry_menu_deletes_on_yes_only
    (d : database) (stdin : list string) :
  match delete_entry_menu d stdin with
  | (d', entry_deleted) =>
      exists key confirm rest entry_id r,
        stdin = key :: confirm :: rest
        /\ py_int key = Some entry_id
        /\ get_entry d entry_id = Some r
        /\ Py.lower (Py.strip confirm) = "yes"
        /\ get_entry d' entry_id = None
        /\ (forall j, j <> entry_id -> get_entry d' j = get_entry d j)
        /\ sqlite_sequence d' = sqlite_sequence d
  | (_, delete_failed) => False
  | (d', _) => d' = d
  end.
Proof.
  unfold delete_entry_menu. destruct stdin as [|key stdin]; [reflexivity|].
  destruct (py_int key) as [entry_id|] eqn:Hkey; [|reflexivity].
  destruct (negb (sqlite_integer entry_id)); [reflexivity|].
  destruct (get_entry d entry_id) as [r|] eqn:Hr; [|reflexivity].
  destruct stdin as [|confirm rest]; [reflexivity|].
  cbv zeta.
  destruct (Py.lower (Py.strip confirm) =? "yes")%string eqn:Hyes;
    [|reflexivity].
  apply String.eqb_eq in Hyes.
  destruct (delete_entry_on_existing d entry_id r Hr) as (d' & Hd & H1 & H2 & H3).
  rewrite Hd. exists key, confirm, rest, entry_id, r. auto 10.
Qed.

(** * Further properties of the window *)

(** ** Filling the grid *)

Lemma insert_entries_runs (l : list row) (s : gui) :
  insert_entries l s
  = (returned tt,
     with_tree (mkTree (items (tree s) ++ rows_of (next_iid (tree s)) l)
                  (next_iid (tree s) + List.length l)
                  (selection (tree s)) (hidden (tree s))) s).
Proof.
  revert s. induction l as [|r l IH]; intros s; simpl.
  - rewrite app_nil_r, Nat.add_0_r. destruct s as [h [] t e]. reflexivity.
  - unfold bindM, tree_insert, modify. rewrite IH. simpl.
    rewrite <- app_assoc, Nat.add_succ_r. reflexivity.
Qed.

Lemma order_by_length (l : list row) :
  List.length (order_by_updated_at_desc l) = List.length l.
Proof. apply Permutation_length, order_by_perm. Qed.

(** [_refresh_table] empties the grid and asks the store for the
    listing. If the store answers, the grid holds one row for each
    record, in the order of the listing (most recently updated first),
    with the record's key and texts, under new item identifiers, and
    the status bar gives the number of records. If the store raises,
    the grid stays empty and the status bar keeps its text. Either way
    the store's data and the editing state are untouched, the selection
    is gone, and exactly one call was made on the store. *)
Theorem refresh_table_shows_the_listing (s : gui) :
  let s' := run _refresh_table s in
  db (handle_of s') = db (handle_of s)
  /\ calls (handle_of s') = (calls (handle_of s) ++ [call_get_all_entries])%list
  /\ edit s' = edit s
  /\ selection (tree s') = []
  /\ match faults (handle_of s) with
     | true :: _ =>
         items (tree s') = [] /\ status_var (tk s') = status_var (tk s)
     | _ =>
         items (tree s')
         = rows_of (next_iid (tree s)) (get_all_entries (db (handle_of s)))
         /\ status_var (tk s')
            = "Total entries: "
              ++ str_nat (List.length (table (db (handle_of s))))
     end.
Proof.
  cbv zeta.
  unfold run, _refresh_table, db_get_all_entries, tree_delete_children,
    status_set, bindM, modify, store_do.
  cbn [handle_of with_tree].
  destruct (faults (handle_of s)) as [|[] rest] eqn:Hf; cbn [handle_of fst snd];
    rewrite ?insert_entries_runs;
    cbn [fst snd handle_of tree tk with_tree with_tk with_handle db calls
         edit items selection status_var next_iid];
    unfold get_all_entries; rewrite ?order_by_length; repeat split.
Qed.


(** ** What every turn keeps *)

Lemma rows_of_iids (n : nat) (l : list row) :
  map iid (rows_of n l) = seq n (List.length l).
Proof.
  revert n. induction l as [|r l IH]; intros n; simpl; [reflexivity|].
  rewrite IH. reflexivity.
Qed.

Lemma rows_of_show (d : database) (n : nat) (l : list row) :
  (forall r, In r l -> In r (table d)) -> Forall (shows d) (rows_of n l).
Proof.
  revert n. induction l as [|r l IH]; intros n H; simpl; constructor.
  - exists r. split; [apply H; left; reflexivity|]. split; reflexivity.
  - apply IH. intros x Hx. apply H. right. exact Hx.
Qed.

Lemma rows_of_current (s : gui) (n : nat) (l : list row) :
  (forall r, In r l -> In r (table (db (handle_of s)))) ->
  items (tree s) = rows_of n l ->
  next_iid (tree s) = (n + List.length l)%nat ->
  grid_is_current s.
Proof.
  intros Hl Hi Hn. unfold grid_is_current. rewrite Hi, Hn.
  split; [apply rows_of_show, Hl|]. split.
  - rewrite rows_of_iids. apply seq_NoDup.
  - apply Forall_forall. intros it Hit.
    apply (in_map iid) in Hit. rewrite rows_of_iids in Hit.
    apply in_seq in Hit. lia.
Qed.

Lemma store_do_grid {A : Type} (c : store_call) (f : database -> database * A) :
  (forall d, fst (f d) = d) -> preserves grid_view (store_do c f).
Proof.
  intros Hf s. unfold store_do, grid_view.
  destruct (faults (handle_of s)) as [|[] rest]; try reflexivity;
    specialize (Hf (db (handle_of s)));
    destruct (f (db (handle_of s))); simpl in *; congruence.
Qed.

Lemma entry_new_grid : preserves grid_view entry_new.
Proof. intros s. reflexivity. Qed.

Ltac grid_frames :=
  unfold_commands;
  repeat first
    [ solve [auto 1 with grid nocore]
    | apply entry_new_grid
    | apply store_do_grid; intros ?; reflexivity
    | frame_step ].

Create HintDb grid.

Lemma cancel_grid : preserves grid_view _cancel_inline_edit.
Proof. unfold _cancel_inline_edit. grid_frames. Qed.
#[local] Hint Resolve cancel_grid : grid.

Lemma start_grid (item : nat) (c : string) (i : nat) :
  preserves grid_view (_start_inline_edit item c i).
Proof. unfold _start_inline_edit, entry_insert. grid_frames. Qed.
#[local] Hint Resolve start_grid : grid.

Lemma selected_grid : preserves grid_view _get_selected_entry_id.
Proof. unfold _get_selected_entry_id. grid_frames. Qed.
#[local] Hint Resolve selected_grid : grid.

Lemma wait_window_grid (script : list dialog_action) :
  preserves grid_view (wait_window script).
Proof. induction script as [|[f|] script IH]; simpl; grid_frames. Qed.
#[local] Hint Resolve wait_window_grid : grid.

Lemma grid_is_current_view (s s' : gui) :
  grid_view s' = grid_view s -> grid_is_current s -> grid_is_current s'.
Proof.
  unfold grid_view, grid_is_current. intros E.
  inversion E as [[E1 E2 E3]]. rewrite E1, E2, E3. auto.
Qed.

Lemma leads_from {A : Type} (P P' Q E : gui -> Prop) (c : M A) :
  (forall s, P' s -> P s) -> leads P c Q E -> leads P' c Q E.
Proof. intros HP H s Hs. apply H, HP, Hs. Qed.

Lemma leads_modify (P Q E : gui -> Prop) (f : gui -> gui) :
  (forall s, P s -> Q (f s)) -> leads P (modify f) Q E.
Proof. intros H s Hs. apply H, Hs. Qed.

Section Invariant.

Variable K : database -> Prop.

Hypothesis K_add :
  forall d now n pb pt s1 s2 s3 s4 tt tb,
    n <> "" -> K d -> K (fst (add_entry d now n pb pt s1 s2 s3 s4 tt tb)).

Hypothesis K_update :
  forall d now i n pb pt s1 s2 s3 s4 tt tb,
    n <> Some "" -> K d ->
    K (fst (update_entry d now i n pb pt s1 s2 s3 s4 tt tb)).

Hypothesis K_complete :
  forall d now i n pb pt s1 s2 s3 s4 tt tb,
    n <> "" -> K d ->
    K (fst (update_entry_complete d now i n pb pt s1 s2 s3 s4 tt tb)).

Hypothesis K_delete : forall d i, K d -> K (fst (delete_entry d i)).

Lemma sound_written (s : gui) : sound K s -> written K s.
Proof. intros [H _]. exact H. Qed.

Lemma sound_frame {A : Type} (c : M A) :
  preserves grid_view c -> leads (sound K) c (sound K) (sound K).
Proof.
  intros H s [Hk Hg]. specialize (H s).
  assert (Hs : sound K (snd (c s))).
  { split; [|exact (grid_is_current_view s _ H Hg)].
    unfold grid_view in H. inversion H as [[E1 E2 E3]]. rewrite E3. exact Hk. }
  destruct (fst (c s)); exact Hs.
Qed.

Lemma write_leads {A : Type} (c : store_call) (f : database -> database * A) :
  (forall d, K d -> K (fst (f d))) ->
  leads (sound K) (store_do c f) (written K) (sound K).
Proof.
  intros Hf s [Hk Hg]. unfold store_do.
  destruct (faults (handle_of s)) as [|[] rest]; simpl;
    try (split; [exact Hk|exact Hg]);
    specialize (Hf _ Hk); destruct (f (db (handle_of s))); exact Hf.
Qed.

Lemma fill_leads (c : store_call) (f : database -> list row)
    (msg : list row -> string) :
  (forall d r, In r (f d) -> In r (table d)) ->
  leads (fun s => written K s /\ items (tree s) = [])
    (entries <- store_do c (fun d => (d, f d)) ;;
     insert_entries entries ;;
     status_set (msg entries))
    (sound K) (sound K).
Proof.
  intros Hf s [Hk Hi]. unfold bindM, store_do.
  destruct (faults (handle_of s)) as [|[] rest]; cbn [fst snd].
  2: { split; [exact Hk|]. unfold grid_is_current. simpl. rewrite Hi.
       repeat split; constructor. }
  all: rewrite insert_entries_runs; unfold status_set, modify; cbn [fst snd];
    (split; [exact Hk|]);
    apply rows_of_current
      with (n := next_iid (tree s)) (l := f (db (handle_of s)));
    [apply Hf|simpl; rewrite Hi; reflexivity|reflexivity].
Qed.

Lemma listing_in (d : database) (r : row) :
  In r (get_all_entries d) -> In r (table d).
Proof. apply Permutation_in, order_by_perm. Qed.

Lemma search_in (text : string) (d : database) (r : row) :
  In r (search_by_name d text) -> In r (table d).
Proof.
  unfold search_by_name. intros H.
  apply (Permutation_in _ (order_by_perm _)) in H.
  apply filter_In in H. apply H.
Qed.

Lemma delete_children_leads :
  leads (written K) tree_delete_children
    (fun s => written K s /\ items (tree s) = []) (sound K).
Proof. apply leads_modify. intros s Hs. split; [exact Hs|reflexivity]. Qed.

Lemma refresh_leads : leads (written K) _refresh_table (sound K) (sound K).
Proof.
  unfold _refresh_table.
  apply leads_bind with (R := fun s => written K s /\ items (tree s) = []);
    [apply delete_children_leads|intros _].
  apply (fill_leads call_get_all_entries get_all_entries
           (fun entries =>
              "Total entries: " ++ str_nat (List.length entries))).
  exact listing_in.
Qed.

Lemma search_leads : leads (written K) _search_entries (sound K) (sound K).
Proof.
  assert (H : forall search_term,
            leads (written K)
              (tree_delete_children ;;
               entries <- (if Py.truthy search_term
                           then db_search_by_name search_term
                           else db_get_all_entries) ;;
               insert_entries entries ;;
               status_set
                 ("Found " ++ str_nat (List.length entries) ++ " entries"))
              (sound K) (sound K));
    [|intros s Hs; unfold _search_entries; rewrite bind_gets;
      exact (H _ s Hs)].
  intros search_term.
  apply leads_bind with (R := fun s => written K s /\ items (tree s) = []);
    [apply delete_children_leads|intros _].
  destruct (Py.truthy search_term).
  - apply (fill_leads (call_search_by_name _)
             (fun d => search_by_name d _)
             (fun entries =>
                "Found " ++ str_nat (List.length entries) ++ " entries")).
    intros d r. apply search_in.
  - apply (fill_leads call_get_all_entries get_all_entries
             (fun entries =>
                "Found " ++ str_nat (List.length entries) ++ " entries")).
    exact listing_in.
Qed.

Lemma refresh_sound : leads (sound K) _refresh_table (sound K) (sound K).
Proof.
  apply leads_from with (P := written K);
    [exact sound_written|apply refresh_leads].
Qed.

Lemma search_sound : leads (sound K) _search_entries (sound K) (sound K).
Proof.
  apply leads_from with (P := written K);
    [exact sound_written|apply search_leads].
Qed.

(** A write on the store is followed by the refresh at once. *)
Lemma write_refresh_leads {A : Type} (w : M A) (rest : M unit) :
  leads (sound K) w (written K) (sound K) ->
  preserves grid_view rest ->
  leads (sound K) (_ <- w ;; _refresh_table ;; rest) (sound K) (sound K).
Proof.
  intros Hw Hrest. apply leads_bind with (R := written K); [exact Hw|intros _].
  apply leads_bind with (R := sound K); [apply refresh_leads|intros _].
  apply sound_frame, Hrest.
Qed.

Create HintDb sound.
#[local] Hint Resolve refresh_sound search_sound : sound.

Ltac sound_step :=
  first
    [ solve [auto 1 with sound nocore]
    | solve [apply sound_frame; grid_frames]
    | apply leads_bind with (R := sound K); [|intros ?]
    | apply leads_try with (E' := sound K); [|intros ?]
    | match goal with
      | |- leads _ (match ?x with _ => _ end) _ _ => destruct x
      end ].

Lemma delete_sound (answer : bool) :
  leads (sound K) (_delete_entry answer) (sound K) (sound K).
Proof.
  unfold _delete_entry.
  do 3 (apply leads_bind with (R := sound K); [sound_step|intros ?]).
  match goal with
  | |- leads _ (match ?x with _ => _ end) _ _ => destruct x as [[|p|p]|]
  end; try solve [sound_step].
  all: apply leads_bind with (R := sound K); [sound_step|intros entry];
    (destruct entry as [entry|]; [|sound_step]);
    (apply leads_bind with (R := sound K); [sound_step|intros _]);
    (destruct answer; [|sound_step]);
    (apply leads_try with (E' := sound K); [|intros e; sound_step]);
    (apply write_refresh_leads; [|grid_frames]);
    apply write_leads; intros d; apply K_delete.
Qed.
#[local] Hint Resolve delete_sound : sound.

Lemma db_update_entry_leads (now entry_id : Z) (field_name : string)
    (v : py_value) :
  v <> a_str "" ->
  leads (sound K) (db_update_entry now entry_id field_name v)
    (written K) (sound K).
Proof.
  intros Hv. unfold db_update_entry.
  destruct (parameter_of field_name) as [[col|]|]; destruct v as [x|[x|]];
    first [ apply leads_raise
          | apply write_leads; intros d; apply K_update;
            first [discriminate | intros E; apply Hv; congruence] ].
Qed.

Lemma update_the_database_sound (now entry_id : Z) (field_name : string)
    (item : nat) (c : string) (i : nat) (v : py_value) :
  v <> a_str "" ->
  leads (sound K) (update_the_database now entry_id field_name item c i v)
    (sound K) (sound K).
Proof.
  intros Hv. unfold update_the_database.
  apply leads_try with (E' := sound K).
  - apply write_refresh_leads; [apply db_update_entry_leads, Hv|grid_frames].
  - intros e. sound_step.
Qed.

Lemma save_inline_value_sound (now : Z) (item : option nat)
    (c : option string) (i : nat) (new_value : string) :
  leads (sound K) (save_inline_value now item c i new_value)
    (sound K) (sound K).
Proof.
  unfold save_inline_value.
  apply leads_bind with (R := sound K); [sound_step|intros it].
  destruct (dict_get column_to_field c) as [field_name|]; [|sound_step].
  destruct item as [item|]; [|sound_step].
  destruct c as [c|]; [|sound_step].
  destruct (member c currency_columns).
  - apply update_the_database_sound. discriminate.
  - destruct (negb (Py.truthy new_value)) eqn:Ht; [sound_step|].
    apply update_the_database_sound. intros E. inversion E. subst.
    discriminate.
Qed.
#[local] Hint Resolve save_inline_value_sound : sound.

Lemma finish_sound (now : Z) :
  leads (sound K) (_finish_inline_edit now) (sound K) (sound K).
Proof. unfold _finish_inline_edit. repeat sound_step. Qed.
#[local] Hint Resolve finish_sound : sound.

Lemma check_focus_out_sound (now : Z) :
  leads (sound K) (_check_focus_out now) (sound K) (sound K).
Proof. unfold _check_focus_out. repeat sound_step. Qed.
#[local] Hint Resolve check_focus_out_sound : sound.

Lemma run_idle_sound (now : Z) :
  leads (sound K) (run_idle now) (sound K) (sound K).
Proof. unfold run_idle. repeat sound_step. Qed.

Lemma call_idle_sound (now : Z) (n : nat) :
  leads (sound K) (call_idle now n) (sound K) (sound K).
Proof.
  induction n as [|n IH]; simpl; [sound_step|].
  apply leads_bind with (R := sound K); [|intros _; exact IH].
  apply leads_try with (E' := sound K); [apply run_idle_sound|].
  intros e. sound_step.
Qed.

Lemma dialog_sound (now : Z) (script : list dialog_action) :
  leads (sound K) (EntryDialog now script) (sound K) (sound K).
Proof.
  unfold EntryDialog, update_idletasks.
  apply leads_bind with (R := sound K).
  - intros s Hs. rewrite bind_gets. apply call_idle_sound, Hs.
  - intros _. apply sound_frame. grid_frames.
Qed.

Lemma add_sound (now : Z) (script : list dialog_action) :
  leads (sound K) (_add_entry now script) (sound K) (sound K).
Proof.
  unfold _add_entry. apply dialog_bind; [apply dialog_sound|].
  destruct (show script) as [result|] eqn:Hshow; [|sound_step].
  apply leads_try with (E' := sound K); [|intros e; sound_step].
  apply write_refresh_leads; [|grid_frames].
  apply write_leads. intros d. apply K_add.
  apply (show_name_not_empty script), Hshow.
Qed.
#[local] Hint Resolve add_sound : sound.

Lemma edit_sound (now : Z) (script : list dialog_action) :
  leads (sound K) (_edit_entry now script) (sound K) (sound K).
Proof.
  unfold _edit_entry.
  apply leads_bind with (R := sound K); [sound_step|intros entry_id].
  destruct entry_id as [[|p|p]|]; try solve [sound_step].
  all: apply leads_bind with (R := sound K); [sound_step|intros entry];
    (destruct entry; [|sound_step]);
    (apply dialog_bind; [apply dialog_sound|]);
    (destruct (show script) as [result|] eqn:Hshow; [|sound_step]);
    (apply leads_try with (E' := sound K); [|intros e; sound_step]);
    (apply write_refresh_leads; [|grid_frames]);
    apply write_leads; intros d; apply K_complete;
    apply (show_name_not_empty script), Hshow.
Qed.
#[local] Hint Resolve edit_sound : sound.

Lemma double_click_sound (now : Z) (event : click)
    (script : list dialog_action) :
  leads (sound K) (_on_tree_double_click now event script) (sound K) (sound K).
Proof. unfold _on_tree_double_click. repeat sound_step. Qed.
#[local] Hint Resolve double_click_sound : sound.

Lemma handler_sound (now : Z) (e : event) :
  leads (sound K) (handler now e) (sound K) (sound K).
Proof.
  destruct e; simpl handler; unfold _handle_return_key; repeat sound_step.
Qed.

Lemma take_turn_sound (now : Z) (t : turn) (s : gui) :
  sound K s -> sound K (take_turn now t s).
Proof.
  intros Hs. destruct t as [e|]; unfold take_turn, dispatch, run.
  - pose proof (handler_sound now e s Hs) as H.
    destruct (fst (handler now e s)); exact H.
  - pose proof (run_idle_sound now s Hs) as H.
    destruct (fst (run_idle now s)); exact H.
Qed.

Lemma startup_sound (d : database) : K d -> sound K (startup d).
Proof.
  intros Hd. unfold startup, run.
  pose proof (refresh_leads (initial_gui d) Hd) as H.
  destruct (fst (_refresh_table (initial_gui d))); exact H.
Qed.

Lemma after_turns_sound (d : database) (trace : list (Z * turn)) :
  K d -> sound K (after_turns d trace).
Proof.
  intros Hd. unfold after_turns. generalize (startup_sound d Hd).
  generalize (startup d). induction trace as [|[now t] trace IH];
    intros s Hs; simpl; [exact Hs|].
  apply IH, take_turn_sound, Hs.
Qed.

End Invariant.

(** The grid never shows a record that is not in the store, or a text
    the store no longer holds: after any sequence of turns, whatever
    the store did or failed to do, every row of the grid carries the
    key and the displayed texts of a record the store holds now, and
    the rows have distinct item identifiers. Every write the window
    makes on the store is followed by a refresh before the handler
    returns, and a refresh that fails leaves the grid empty. (The store
    is written through this window only.) *)
Theorem the_grid_shows_current_records
    (d : database) (trace : list (Z * turn)) :
  let s := after_turns d trace in
  (forall it, In it (items (tree s)) ->
     exists r,
       In r (table (db (handle_of s)))
       /\ value_id it = id r
       /\ value_texts it = display r)
  /\ NoDup (map iid (items (tree s)))
  /\ (forall it, In it (items (tree s)) -> (iid it < next_iid (tree s))%nat).
Proof.
  cbv zeta.
  destruct (after_turns_sound (fun _ => True)
              (fun _ _ _ _ _ _ _ _ _ _ _ _ _ => I)
              (fun _ _ _ _ _ _ _ _ _ _ _ _ _ _ => I)
              (fun _ _ _ _ _ _ _ _ _ _ _ _ _ _ => I)
              (fun _ _ _ => I) d trace I) as (_ & H1 & H2 & H3).
  split; [apply Forall_forall, H1|]. split; [exact H2|].
  apply Forall_forall, H3.
Qed.

Lemma named_add (d : database) (now : Z) (n : string)
    (pb pt s1 s2 s3 s4 tt tb : option float) :
  n <> "" -> keyed_and_named d ->
  keyed_and_named (fst (add_entry d now n pb pt s1 s2 s3 s4 tt tb)).
Proof.
  intros Hn [Hwf Hnamed].
  destruct (add_entry_on_well_formed d now n pb pt s1 s2 s3 s4 tt tb Hwf)
    as (Hadd & _ & _ & _ & Hwf').
  rewrite Hadd. split; [exact Hwf'|]. unfold named. simpl.
  apply Forall_app. split; [exact Hnamed|]. constructor; [exact Hn|constructor].
Qed.

Lemma named_rows (u : row -> row) (i : Z) (t : list row) :
  (forall r, name r <> "" -> name (u r) <> "") ->
  Forall (fun r => name r <> "") t ->
  Forall (fun r => name r <> "") (map (fun r => if id r =? i then u r else r) t).
Proof.
  intros Hu Ht. apply Forall_forall. intros y Hy. apply in_map_iff in Hy.
  destruct Hy as (r & <- & Hin). rewrite Forall_forall in Ht.
  destruct (id r =? i); auto.
Qed.

Lemma named_update (d : database) (now i : Z) (n : option string)
    (pb pt s1 s2 s3 s4 tt tb : option float) :
  n <> Some "" -> keyed_and_named d ->
  keyed_and_named (fst (update_entry d now i n pb pt s1 s2 s3 s4 tt tb)).
Proof.
  intros Hn [Hwf Hnamed]. split; [apply update_entry_well_formed, Hwf|].
  destruct (provided n pb pt s1 s2 s3 s4 tt tb) as [|a l] eqn:E.
  - unfold update_entry. rewrite E. exact Hnamed.
  - rewrite update_entry_runs by (rewrite E; discriminate).
    unfold named. cbv zeta. simpl. rewrite sql_update_table.
    apply (named_rows
             (fun r => fold_left (fun r a => assign a r)
                         (provided n pb pt s1 s2 s3 s4 tt tb
                          ++ [set_updated_at now])%list r));
      [|exact Hnamed].
    intros r Hr.
    destruct (provided_row now n pb pt s1 s2 s3 s4 tt tb r) as (H & _).
    cbv zeta in H. rewrite H. destruct n as [v|]; [congruence|exact Hr].
Qed.

Lemma named_complete (d : database) (now i : Z) (n : string)
    (pb pt s1 s2 s3 s4 tt tb : option float) :
  n <> "" -> keyed_and_named d ->
  keyed_and_named
    (fst (update_entry_complete d now i n pb pt s1 s2 s3 s4 tt tb)).
Proof.
  intros Hn [Hwf Hnamed].
  split; [apply update_entry_complete_well_formed, Hwf|].
  rewrite update_entry_complete_runs. unfold named. cbv zeta. simpl fst.
  simpl table. rewrite sql_update_table.
  match goal with
  | |- context [fold_left _ ?l] =>
      apply (named_rows (fun r => fold_left (fun r a => assign a r) l r));
      [|exact Hnamed]
  end.
  intros r _. exact Hn.
Qed.

Lemma named_delete (d : database) (i : Z) :
  keyed_and_named d -> keyed_and_named (fst (delete_entry d i)).
Proof.
  intros [Hwf Hnamed]. split; [apply delete_entry_well_formed, Hwf|].
  rewrite delete_entry_runs. unfold named. simpl.
  apply Forall_forall. intros r Hr. apply filter_In in Hr.
  unfold named in Hnamed. rewrite Forall_forall in Hnamed. apply Hnamed, Hr.
Qed.

(** The window never stores an empty name and never disturbs the keys:
    if the records have distinct keys within the counter and non-empty
    names when the window opens, they do after any sequence of turns,
    through the dialogs, the inline editor, deletions and store faults.
    A row of the grid then finds, under its key, the record whose texts
    it shows. *)
Theorem the_window_keeps_keys_and_names
    (d : database) (trace : list (Z * turn)) :
  well_formed d -> named d ->
  let s := after_turns d trace in
  well_formed (db (handle_of s))
  /\ named (db (handle_of s))
  /\ forall it, In it (items (tree s)) ->
       exists r,
         get_entry (db (handle_of s)) (value_id it) = Some r
         /\ value_texts it = display r.
Proof.
  intros Hwf Hnamed. cbv zeta.
  destruct (after_turns_sound keyed_and_named named_add named_update
              named_complete named_delete d trace (conj Hwf Hnamed))
    as ((Hwf' & Hnamed') & Hshows & _).
  split; [exact Hwf'|]. split; [exact Hnamed'|].
  intros it Hit. rewrite Forall_forall in Hshows.
  destruct (Hshows it Hit) as (r & Hin & Hid & Htexts).
  exists r. split; [|exact Htexts]. rewrite Hid.
  apply find_unique; [apply Hwf'|exact Hin].
Qed.

Lemma add_entry_menu_keeps (d : database) (now : Z) (stdin : list string) :
  keyed_and_named d -> keyed_and_named (fst (add_entry_menu d now stdin)).
Proof.
  intros Hd.
  unfold add_entry_menu. destruct stdin as [|line rest]; [exact Hd|].
  rewrite truthy_strip, negb_involutive.
  destruct (blank line) eqn:Hb; [exact Hd|].
  pose proof (read_eight_amounts rest (d, eof_error)
                (fun pb pt s1 s2 s3 s4 tot tb =>
                   let (d', entry_id) :=
                     add_entry d now (Py.strip line)
                       pb pt s1 s2 s3 s4 tot tb in
                   (d', entry_added entry_id))) as H.
  cbv beta in H.
  destruct H as [H|(pb & pt & s1 & s2 & s3 & s4 & tot & tb & H & _)];
    rewrite H; [exact Hd|].
  apply (named_add d now (Py.strip line) pb pt s1 s2 s3 s4 tot tb);
    [|exact Hd].
  intros E. apply strip_blank in E. congruence.
Qed.

Lemma update_entry_menu_keeps (d : database) (now : Z) (stdin : list string) :
  keyed_and_named d -> keyed_and_named (fst (update_entry_menu d now stdin)).
Proof.
  intros Hd.
  unfold update_entry_menu. destruct stdin as [|key stdin]; [exact Hd|].
  destruct (py_int key) as [entry_id|]; [|exact Hd].
  destruct (negb (sqlite_integer entry_id)); [exact Hd|].
  destruct (get_entry d entry_id) as [r|]; [|exact Hd].
  destruct stdin as [|answer rest]; [exact Hd|].
  cbv zeta. rewrite truthy_strip.
  pose proof (read_eight_amounts rest (d, update_eof)
                (fun pb pt s1 s2 s3 s4 tot tb =>
                   let (d', updated) :=
                     update_entry d now entry_id
                       (if negb (blank answer) then Some (Py.strip answer)
                        else None) pb pt s1 s2 s3 s4 tot tb in
                   (d', if updated then entry_updated else update_failed)))
    as H.
  cbv beta in H.
  destruct H as [H|(pb & pt & s1 & s2 & s3 & s4 & tot & tb & H & _)];
    rewrite H; [exact Hd|]. clear H.
  pose proof (named_update d now entry_id
                (if negb (blank answer) then Some (Py.strip answer)
                 else None) pb pt s1 s2 s3 s4 tot tb) as H.
  destruct (update_entry d now entry_id _ pb pt s1 s2 s3 s4 tot tb)
    as [d' updated].
  apply H; [|exact Hd].
  destruct (blank answer) eqn:Hb; [discriminate|]. simpl.
  intros E. inversion E as [E']. apply strip_blank in E'. congruence.
Qed.

Lemma delete_entry_menu_keeps (d : database) (stdin : list string) :
  keyed_and_named d -> keyed_and_named (fst (delete_entry_menu d stdin)).
Proof.
  intros Hd.
  unfold delete_entry_menu. destruct stdin as [|key stdin]; [exact Hd|].
  destruct (py_int key) as [entry_id|]; [|exact Hd].
  destruct (negb (sqlite_integer entry_id)); [exact Hd|].
  destruct (get_entry d entry_id) as [r|]; [|exact Hd].
  destruct stdin as [|confirm rest]; [exact Hd|].
  cbv zeta.
  destruct (Py.lower (Py.strip confirm) =? "yes")%string; [|exact Hd].
  pose proof (named_delete d entry_id Hd) as H.
  destruct (delete_entry d entry_id) as [d' deleted]. exact H.
Qed.

(** The menus of the command line keep the same: from records with
    distinct keys within the counter and non-empty names, each of the
    three menus that write leaves such records, whatever is typed. *)
Theorem the_menus_keep_keys_and_names
    (d : database) (now : Z) (stdin : list string) :
  well_formed d -> named d ->
  keyed_and_named (fst (add_entry_menu d now stdin))
  /\ keyed_and_named (fst (update_entry_menu d now stdin))
  /\ keyed_and_named (fst (delete_entry_menu d stdin)).
Proof.
  intros Hwf Hnamed. pose proof (conj Hwf Hnamed : keyed_and_named d) as Hd.
  split; [apply add_entry_menu_keeps, Hd|].
  split; [apply update_entry_menu_keeps, Hd|apply delete_entry_menu_keeps, Hd].
Qed.

(** ** Events that leave the records alone *)

Ltac db_frames :=
  unfold_commands;
  repeat first
    [ solve [auto 1 with dbframes nocore]
    | apply store_do_db; intros ?; reflexivity
    | frame_step ].

Create HintDb dbframes.
#[local] Hint Resolve refresh_db insert_entries_db : dbframes.

Lemma search_db : preserves (fun s => db (handle_of s)) _search_entries.
Proof. unfold _search_entries. db_frames. Qed.
#[local] Hint Resolve search_db : dbframes.

Lemma cancel_db : preserves (fun s => db (handle_of s)) _cancel_inline_edit.
Proof. apply preserves_db_of_handle, cancel_handle. Qed.
#[local] Hint Resolve cancel_db : dbframes.

Lemma start_db (item : nat) (c : string) (i : nat) :
  preserves (fun s => db (handle_of s)) (_start_inline_edit item c i).
Proof. apply preserves_db_of_handle, start_handle. Qed.
#[local] Hint Resolve start_db : dbframes.

Lemma selected_db :
  preserves (fun s => db (handle_of s)) _get_selected_entry_id.
Proof. unfold _get_selected_entry_id. db_frames. Qed.
#[local] Hint Resolve selected_db : dbframes.

Lemma store_do_quiet {A : Type} (c : store_call)
    (f : database -> database * A) :
  (forall d, fst (f d) = d) -> preserves quiet_view (store_do c f).
Proof.
  intros Hf s. unfold store_do, quiet_view.
  destruct (faults (handle_of s)) as [|[] rest]; try reflexivity;
    specialize (Hf (db (handle_of s)));
    destruct (f (db (handle_of s))); simpl in *; congruence.
Qed.

Ltac quiet_frames :=
  unfold_commands;
  repeat first
    [ solve [auto 1 with quiet nocore]
    | apply store_do_quiet; intros ?; reflexivity
    | frame_step ].

Create HintDb quiet.

Lemma wait_window_quiet (script : list dialog_action) :
  preserves quiet_view (wait_window script).
Proof. induction script as [|[f|] script IH]; simpl; quiet_frames. Qed.
#[local] Hint Resolve wait_window_quiet : quiet.

Lemma selected_quiet : preserves quiet_view _get_selected_entry_id.
Proof. unfold _get_selected_entry_id. quiet_frames. Qed.
#[local] Hint Resolve selected_quiet : quiet.

Lemma quiet_frame {A : Type} (d : database) (c : M A) :
  preserves quiet_view c -> leads (quiet d) c (quiet d) (quiet d).
Proof.
  intros H s Hs. specialize (H s). unfold quiet_view in H.
  inversion H as [[E1 E2]].
  assert (Hq : quiet d (snd (c s)))
    by (unfold quiet; rewrite E1, E2; exact Hs).
  destruct (fst (c s)); exact Hq.
Qed.

(** A focus check that is called while no editor is referenced does
    nothing. *)
Lemma run_idle_quiet (d : database) (now : Z) :
  leads (quiet d) (run_idle now) (quiet d) (quiet d).
Proof.
  intros s [Hd Hc].
  destruct (idle (tk s)) as [|n] eqn:Hi.
  - unfold run_idle. rewrite bind_gets, Hi. split; auto.
  - rewrite (run_idle_runs now s n Hi).
    unfold _check_focus_out. rewrite bind_gets.
    change (edit (with_tk (set_idle n (tk s)) s)) with (edit s).
    rewrite Hc. split; [exact Hd|exact Hc].
Qed.

Lemma call_idle_quiet (d : database) (now : Z) (n : nat) :
  leads (quiet d) (call_idle now n) (quiet d) (quiet d).
Proof.
  induction n as [|n IH]; simpl; [apply leads_ret|].
  apply leads_bind with (R := quiet d); [|intros _; exact IH].
  apply leads_try with (E' := quiet d); [apply run_idle_quiet|].
  intros e. apply leads_ret.
Qed.

Lemma dialog_quiet (d : database) (now : Z) (script : list dialog_action) :
  leads (quiet d) (EntryDialog now script) (quiet d) (quiet d).
Proof.
  unfold EntryDialog, update_idletasks.
  apply leads_bind with (R := quiet d).
  - intros s Hs. rewrite bind_gets. apply call_idle_quiet, Hs.
  - intros _. apply quiet_frame. quiet_frames.
Qed.

Lemma add_quiet (d : database) (now : Z) (script : list dialog_action) :
  show script = None ->
  leads (quiet d) (_add_entry now script) (quiet d) (quiet d).
Proof.
  intros Hshow. unfold _add_entry. apply dialog_bind; [apply dialog_quiet|].
  rewrite Hshow. apply leads_ret.
Qed.

Lemma edit_quiet (d : database) (now : Z) (script : list dialog_action) :
  show script = None ->
  leads (quiet d) (_edit_entry now script) (quiet d) (quiet d).
Proof.
  intros Hshow. unfold _edit_entry.
  apply leads_bind with (R := quiet d);
    [apply quiet_frame; quiet_frames|intros entry_id].
  destruct entry_id as [[|p|p]|];
    try solve [apply quiet_frame; quiet_frames].
  all: apply leads_bind with (R := quiet d);
    [apply quiet_frame; quiet_frames|intros entry];
    (destruct entry; [|apply quiet_frame; quiet_frames]);
    (apply dialog_bind; [apply dialog_quiet|]);
    rewrite Hshow; apply leads_ret.
Qed.

(** The clean-up that opens [_on_tree_double_click] leaves no editor
    referenced, and the store as it was. *)
Lemma cancel_quiet (s : gui) :
  let s' := snd (_cancel_inline_edit s) in
  db (handle_of s') = db (handle_of s)
  /\ (fst (_cancel_inline_edit s) = returned tt ->
      editing_entry (edit s') = None).
Proof.
  cbv zeta. split; [apply cancel_db|].
  unfold _cancel_inline_edit. rewrite bind_gets.
  destruct (editing_entry (edit s)) as [w|] eqn:He; [|intros _; exact He].
  unfold_commands. unfold on_entry, try_except, bindM, modify, raise, ret.
  destruct (has_entry w (tk s)); cbn [fst snd]; reflexivity.
Qed.

Lemma leads_result {A : Type} (P Q E : gui -> Prop) (c : M A) (s : gui) :
  leads P c Q E -> P s ->
  (forall s', Q s' -> E s') -> E (snd (c s)).
Proof.
  intros H Hs HQ. specialize (H s Hs).
  destruct (fst (c s)); [apply HQ|]; exact H.
Qed.

(** Escape, the loss of focus itself (its check is called later),
    Refresh, the search box, typing, a move of the focus, a selection,
    scrolling and a delete that is not confirmed leave the records of
    the store exactly as they were, with or without an inline editor
    open. So does a dialog that is closed without an accepted save,
    when it comes from a double click or from Return on the window, and
    when it comes from the Add or the Edit button while no editor is
    referenced: the focus checks that wait are called when the dialog
    is built, and find nothing to commit. *)
Theorem reading_events_leave_the_records (now : Z) (e : event) (s : gui) :
  writes_nothing e s = true ->
  db (handle_of (take_turn now (deliver e) s)) = db (handle_of s).
Proof.
  intros He. unfold take_turn, dispatch, run.
  assert (Hquiet : forall c : M unit,
            leads (quiet (db (handle_of s))) c
              (quiet (db (handle_of s))) (quiet (db (handle_of s))) ->
            forall s', quiet (db (handle_of s)) s' ->
              db (handle_of (snd (c s'))) = db (handle_of s)).
  { intros c Hc s' Hs'.
    exact (proj1 (leads_result _ _ _ c s' Hc Hs' (fun _ H => H))). }
  destruct e as [ev script| | | |script|[]|script|script| | | | | | | ];
    try discriminate He; simpl in He; simpl handler;
    try (destruct (show script) eqn:Hshow; [discriminate He|]);
    try solve [match goal with
               | |- db (handle_of (snd (?c s))) = _ =>
                   assert (H : preserves (fun s => db (handle_of s)) c);
                   [unfold _delete_entry; db_frames|exact (H s)]
               end].
  - unfold _on_tree_double_click. rewrite bind_gets.
    assert (Hrest :
              forall s', db (handle_of s') = db (handle_of s) ->
                editing_entry (edit s') = None ->
                db (handle_of
                      (snd ((if negb (region ev =? "cell")%string then ret tt
                             else
                               match row_at ev, column_at ev with
                               | Some item, Some n =>
                                   let column_index := Z.of_nat n - 1 in
                                   if (column_index <? 0)
                                      || (Z.of_nat (List.length columns)
                                          <=? column_index)
                                   then ret tt
                                   else
                                     match nth_error columns
                                             (Z.to_nat column_index) with
                                     | Some column_name =>
                                         if member column_name
                                              non_editable_columns
                                         then
                                           if (column_name =? "ID")%string
                                           then _edit_entry now script
                                           else ret tt
                                         else
                                           _start_inline_edit item column_name
                                             (Z.to_nat column_index)
                                     | None => ret tt
                                     end
                               | _, _ => ret tt
                               end) s')))
                = db (handle_of s)).
    { intros s' Hd Hn.
      destruct (negb (region ev =? "cell")%string); [exact Hd|].
      destruct (row_at ev) as [item|]; [|exact Hd].
      destruct (column_at ev) as [n|]; [|exact Hd]. cbv zeta.
      destruct ((Z.of_nat n - 1 <? 0)
                || (Z.of_nat (List.length columns) <=? Z.of_nat n - 1));
        [exact Hd|].
      destruct (nth_error columns (Z.to_nat (Z.of_nat n - 1)))
        as [column_name|]; [|exact Hd].
      destruct (member column_name non_editable_columns);
        [|rewrite start_db; exact Hd].
      destruct (column_name =? "ID")%string; [|exact Hd].
      apply (Hquiet _ (edit_quiet _ now script Hshow)).
      split; [exact Hd|exact Hn]. }
    destruct (editing_entry (edit s)) as [w|] eqn:Hw.
    + destruct (cancel_quiet s) as [Hd Hn].
      unfold bindM at 1.
      destruct (_cancel_inline_edit s) as [[[]|x] s1]; cbn [fst snd] in *;
        [|exact Hd].
      apply Hrest; [exact Hd|apply Hn; reflexivity].
    + unfold bindM at 1, ret at 1. apply Hrest; [reflexivity|exact Hw].
  - unfold _handle_return_key. rewrite bind_gets.
    destruct (editing_entry (edit s)) eqn:Hw; [reflexivity|].
    apply (Hquiet _ (edit_quiet _ now script Hshow)).
    split; [reflexivity|exact Hw].
  - apply (Hquiet _ (add_quiet _ now script Hshow)).
    split; [reflexivity|].
    destruct (editing_entry (edit s)); [discriminate|reflexivity].
  - apply (Hquiet _ (edit_quiet _ now script Hshow)).
    split; [reflexivity|].
    destruct (editing_entry (edit s)); [discriminate|reflexivity].
Qed.

(** ** Return in the inline editor *)

Lemma cancel_tree : preserves tree _cancel_inline_edit.
Proof. unfold _cancel_inline_edit. frames. Qed.

Lemma cancel_boxes :
  preserves (fun s => (boxes (tk s), status_var (tk s))) _cancel_inline_edit.
Proof. unfold _cancel_inline_edit. frames. Qed.

Lemma save_inline_value_runs (now : Z) (it : item) (item i : nat)
    (c field_name text : string) (s : gui) :
  find (fun it => (iid it =? item)%nat) (items (tree s)) = Some it ->
  dict_get column_to_field (Some c) = Some field_name ->
  save_inline_value now (Some item) (Some c) i text s
  = if member c currency_columns then
      update_the_database now (value_id it) field_name item c i
        (a_float (_parse_currency text)) s
    else if negb (Py.truthy text) then
      (messagebox showerror (c ++ " cannot be empty!") ;;
       _start_inline_edit item c i) s
    else
      update_the_database now (value_id it) field_name item c i
        (a_str text) s.
Proof.
  intros Hit Hd. unfold save_inline_value. unfold bindM at 1.
  unfold tree_item. rewrite Hit, Hd.
  destruct (member c currency_columns); [reflexivity|].
  destruct (negb (Py.truthy text)); reflexivity.
Qed.

(** The [try] block of the commit when the store answers both calls. *)
Lemma update_the_database_healthy (now entry_id : Z) (field_name : string)
    (item : nat) (c : string) (i : nat) (v : py_value)
    (f : database -> database * bool) (s : gui) :
  db_update_entry now entry_id field_name v
  = store_do (call_update_entry entry_id field_name v) f ->
  faults (handle_of s) = [] ->
  let s' := snd (update_the_database now entry_id field_name item c i v s) in
  db (handle_of s') = fst (f (db (handle_of s)))
  /\ calls (handle_of s')
     = (calls (handle_of s)
        ++ [call_update_entry entry_id field_name v; call_get_all_entries])%list
  /\ items (tree s')
     = rows_of (next_iid (tree s)) (get_all_entries (db (handle_of s')))
  /\ editor_view s' = editor_view s
  /\ boxes (tk s') = boxes (tk s)
  /\ status_var (tk s') = c ++ " updated successfully".
Proof.
  intros Hcall Hf. cbv zeta.
  remember (update_the_database now entry_id field_name item c i v s)
    as result eqn:Hrun.
  unfold update_the_database, try_except in Hrun.
  unfold bindM at 1 in Hrun. rewrite Hcall in Hrun.
  unfold store_do at 1 in Hrun. rewrite Hf in Hrun.
  destruct (f (db (handle_of s))) as [d' b].
  unfold _refresh_table, db_get_all_entries, tree_delete_children, status_set,
    bindM, modify, store_do in Hrun.
  cbn [handle_of with_tree with_handle faults tl fst snd] in Hrun.
  rewrite insert_entries_runs in Hrun.
  cbn [fst snd handle_of tree tk with_tree with_tk with_handle db calls
       edit items selection status_var next_iid boxes] in Hrun.
  subst result.
  cbn [fst snd handle_of tree tk with_tree with_tk with_handle db calls
       edit items selection status_var next_iid boxes].
  rewrite <- app_assoc. repeat split.
Qed.

Lemma keyword_argument (col c : real_column) (v : option float) :
  argument c (keyword col v col_previous_balance)
    (keyword col v col_previous_total) (keyword col v col_seller_1)
    (keyword col v col_seller_2) (keyword col v col_seller_3)
    (keyword col v col_seller_4) (keyword col v col_today_total)
    (keyword col v col_today_balance)
  = keyword col v c.
Proof. destruct c; reflexivity. Qed.

Lemma real_column_eqb_eq (a b : real_column) :
  real_column_eqb a b = true <-> a = b.
Proof. destruct a, b; simpl; split; intros H; congruence. Qed.

Lemma amount_of_column (c : string) (col : real_column) :
  amount_of c = Some col ->
  member c currency_columns = true
  /\ exists field_name,
       dict_get column_to_field (Some c) = Some field_name
       /\ parameter_of field_name = Some (Some col).
Proof.
  unfold amount_of. intros H. split.
  - revert H. unfold dict_get, column_to_field. cbn [find fst].
    repeat match goal with
           | |- context [String.eqb ?a c] =>
               destruct (String.eqb a c) eqn:E;
               [apply String.eqb_eq in E; subst c; intros H;
                first [reflexivity | discriminate H]
               |clear E]
           end.
    discriminate.
  - destruct (dict_get column_to_field (Some c)) as [field_name|];
      [|discriminate].
    exists field_name. split; [reflexivity|].
    destruct (parameter_of field_name) as [[col'|]|]; congruence.
Qed.

(** Return in the inline editor, with the store answering, stores what
    was typed in the one field of the one record the cell belongs to.
    In the Name cell a text that is not empty once stripped becomes the
    name, and no amount changes. In an amount cell a text that parses
    becomes the amount of that column, and neither the name nor any
    other amount changes. In both cases the record keeps its creation
    time and takes the clock reading as its update time, the other
    records are untouched, the editor is gone, the grid is filled from
    the new listing, and no message box is shown. *)
Theorem return_stores_the_typed_value
    (now : Z) (s : gui) (it : item) (r : row) (w item i : nat) (c : string) :
  single_editor s ->
  editing_entry (edit s) = Some w ->
  editing_item (edit s) = Some item ->
  editing_column (edit s) = Some c ->
  editing_column_index (edit s) = Some i ->
  find (fun it => (iid it =? item)%nat) (items (tree s)) = Some it ->
  get_entry (db (handle_of s)) (value_id it) = Some r ->
  faults (handle_of s) = [] ->
  let text := Py.strip (typed_text w s) in
  let s' := take_turn now (deliver entry_return) s in
  (c = "Name" -> text <> "" ->
   exists r',
     committed now c (value_id it) r r' s s'
     /\ name r' = text
     /\ forall col, real_of col r' = real_of col r)
  /\ (forall col x,
        amount_of c = Some col -> _parse_currency text = Some x ->
        exists r',
          committed now c (value_id it) r r' s s'
          /\ name r' = name r
          /\ real_of col r' = sql_real x
          /\ forall col', col' <> col -> real_of col' r' = real_of col' r).
Proof.
  intros Hs He Hi Hc Hx Hit Hr Hf. cbv zeta.
  unfold take_turn, dispatch, run, handler.
  rewrite (finish_runs now s w item i c Hs He Hi Hc Hx).
  fold (typed_text w s).
  destruct (cancel_spec s Hs) as (_ & Hidle & _).
  pose proof (cancel_handle s) as Hh. pose proof (cancel_tree s) as Ht.
  pose proof (cancel_boxes s) as Hb.
  set (s1 := snd (_cancel_inline_edit s)) in *.
  assert (Hit1 : find (fun it => (iid it =? item)%nat) (items (tree s1))
                 = Some it) by (rewrite Ht; exact Hit).
  assert (Hf1 : faults (handle_of s1) = []) by (rewrite Hh; exact Hf).
  assert (Hcommit :
            forall field_name v name0 pb pt s1' s2 s3 s4 tot tb r',
              db_update_entry now (value_id it) field_name v
              = store_do (call_update_entry (value_id it) field_name v)
                  (fun d => update_entry d now (value_id it) name0
                              pb pt s1' s2 s3 s4 tot tb) ->
              (name0 <> None
               \/ exists c0, argument c0 pb pt s1' s2 s3 s4 tot tb <> None) ->
              (forall d' r'',
                 update_entry (db (handle_of s)) now (value_id it) name0
                   pb pt s1' s2 s3 s4 tot tb = (d', true) ->
                 get_entry d' (value_id it) = Some r'' -> r'' = r') ->
              committed now c (value_id it) r r' s
                (snd (update_the_database now (value_id it) field_name item c
                        i v s1))).
  { intros field_name v name0 pb pt s1' s2 s3 s4 tot tb r' Hcall Hsome Hr'.
    destruct (update_the_database_healthy now (value_id it) field_name item c
                i v _ s1 Hcall Hf1) as (Hdb & _ & Hitems & Hview & Hbox & Hst).
    rewrite Hh in Hdb.
    destruct (update_entry_on_existing (db (handle_of s)) now (value_id it)
                name0 pb pt s1' s2 s3 s4 tot tb r Hr Hsome)
      as (d' & r'' & Hu & Hg & _ & Hcr & Hup & _ & _ & Hother & _).
    rewrite Hu in Hdb. simpl in Hdb.
    pose proof (Hr' d' r'' Hu Hg) as <-.
    unfold committed. rewrite Hdb, Hitems, Hdb, Hbox, Hst, Ht.
    inversion Hb as [[Hb1 Hb2]].
    split; [exact Hg|]. split; [exact Hcr|]. split; [exact Hup|].
    split; [exact Hother|].
    split; [exact (no_editor_view s1 _ Hview Hidle)|].
    split; [reflexivity|]. split; [first [exact Hb1|reflexivity]|reflexivity]. }
  split.
  - intros -> Htext.
    rewrite (save_inline_value_runs now it item i "Name" "name" _ s1 Hit1 eq_refl).
    change (member "Name" currency_columns) with false. cbv iota.
    destruct (Py.strip (typed_text w s)) as [|a text] eqn:Etext;
      [contradiction|]. cbn [Py.truthy negb].
    assert (Hsome : Some (String a text) <> None
                    \/ exists c0,
                         argument c0 None None None None None None None None
                         <> None) by (left; discriminate).
    destruct (update_entry_on_existing (db (handle_of s)) now (value_id it)
                (Some (String a text)) None None None None None None None None
                r Hr Hsome)
      as (d' & r' & Hu & Hg & _ & _ & _ & Hn & Hreal & _).
    exists r'.
    split; [|split; [exact Hn|intros col; rewrite Hreal; destruct col;
                              reflexivity]].
    apply (Hcommit "name" (a_str (String a text)) (Some (String a text))
             None None None None None None None None r' eq_refl Hsome).
    intros d2 r2 Hu2 Hg2. congruence.
  - intros col x Hcol Hparse.
    destruct (amount_of_column c col Hcol) as (Hm & field_name & Hd & Hp).
    rewrite (save_inline_value_runs now it item i c field_name _ s1 Hit1 Hd).
    rewrite Hm, Hparse.
    assert (Hsome : @None string <> None
                    \/ exists c0,
                         argument c0 (keyword col (Some x) col_previous_balance)
                           (keyword col (Some x) col_previous_total)
                           (keyword col (Some x) col_seller_1)
                           (keyword col (Some x) col_seller_2)
                           (keyword col (Some x) col_seller_3)
                           (keyword col (Some x) col_seller_4)
                           (keyword col (Some x) col_today_total)
                           (keyword col (Some x) col_today_balance) <> None).
    { right. exists col. rewrite keyword_argument. unfold keyword.
      rewrite (proj2 (real_column_eqb_eq col col) eq_refl). discriminate. }
    destruct (update_entry_on_existing (db (handle_of s)) now (value_id it)
                None _ _ _ _ _ _ _ _ r Hr Hsome)
      as (d' & r' & Hu & Hg & _ & _ & _ & Hn & Hreal & _).
    exists r'. split; [|split; [exact Hn|split]].
    + eapply (Hcommit field_name (a_float (Some x)) None);
        [unfold db_update_entry; rewrite Hp; reflexivity|exact Hsome|].
      intros d2 r2 Hu2 Hg2. congruence.
    + rewrite Hreal, keyword_argument. unfold keyword.
      rewrite (proj2 (real_column_eqb_eq col col) eq_refl). reflexivity.
    + intros col' Hne. rewrite Hreal, keyword_argument. unfold keyword.
      destruct (real_column_eqb col col') eqn:E; [|reflexivity].
      apply real_column_eqb_eq in E. congruence.
Qed.

(** ** Return in the inline editor while the store fails *)

Lemma try_swallow (c : M unit) (s : gui) :
  snd (try_except c (fun _ => ret tt) s) = snd (c s).
Proof.
  unfold try_except, ret. destruct (c s) as [[a|e] s']; reflexivity.
Qed.

Lemma start_boxes (item : nat) (c : string) (i : nat) :
  preserves (fun s => boxes (tk s)) (_start_inline_edit item c i).
Proof. unfold _start_inline_edit, entry_new, entry_insert. frames. Qed.

Lemma start_on_empty_grid (item : nat) (c : string) (i : nat) (s : gui) :
  items (tree s) = [] -> snd (_start_inline_edit item c i s) = s.
Proof.
  intros H. unfold _start_inline_edit. unfold bindM at 1. unfold tree_item.
  rewrite H. reflexivity.
Qed.

(** The [try] block of the commit by the health of the store. *)
Lemma update_the_database_runs (now entry_id : Z) (field_name : string)
    (item : nat) (c : string) (i : nat) (v : py_value)
    (f : database -> database * bool) (s : gui) :
  db_update_entry now entry_id field_name v
  = store_do (call_update_entry entry_id field_name v) f ->
  no_editor s ->
  nth_error columns i = Some c ->
  let s' := snd (update_the_database now entry_id field_name item c i v s) in
  let failed :=
    (showerror, "Failed to update " ++ c ++ ": " ++ str_exn sqlite3_Error) in
  match faults (handle_of s) with
  | true :: rest =>
      db (handle_of s') = db (handle_of s)
      /\ faults (handle_of s') = rest
      /\ items (tree s') = items (tree s)
      /\ boxes (tk s') = (boxes (tk s) ++ [failed])%list
      /\ single_editor s'
      /\ (forall w', editing_entry (edit s') = Some w' ->
            editing_item (edit s') = Some item
            /\ editing_column (edit s') = Some c
            /\ editing_column_index (edit s') = Some i)
  | false :: true :: rest =>
      db (handle_of s') = fst (f (db (handle_of s)))
      /\ faults (handle_of s') = rest
      /\ items (tree s') = []
      /\ boxes (tk s') = (boxes (tk s) ++ [failed])%list
      /\ no_editor s'
  | _ =>
      db (handle_of s') = fst (f (db (handle_of s)))
      /\ faults (handle_of s') = tl (tl (faults (handle_of s)))
      /\ items (tree s')
         = rows_of (next_iid (tree s)) (get_all_entries (db (handle_of s')))
      /\ boxes (tk s') = boxes (tk s)
      /\ no_editor s'
  end.
Proof.
  intros Hcall Hidle Hcol. cbv zeta.
  remember (update_the_database now entry_id field_name item c i v s)
    as result eqn:Hrun.
  unfold update_the_database in Hrun. unfold try_except at 1 in Hrun.
  unfold bindM at 1 in Hrun. rewrite Hcall in Hrun.
  unfold store_do at 1 in Hrun.
  destruct (faults (handle_of s)) as [|[] l] eqn:Hf.
  - destruct (f (db (handle_of s))) as [d' b].
    unfold _refresh_table, db_get_all_entries, tree_delete_children,
      status_set, bindM, modify, store_do in Hrun.
    cbn [handle_of with_tree with_handle faults tl fst snd] in Hrun.
    rewrite insert_entries_runs in Hrun.
    cbn [fst snd handle_of tree tk with_tree with_tk with_handle db calls
         edit items selection status_var next_iid boxes] in Hrun.
    subst result.
    cbn [fst snd handle_of tree tk with_tree with_tk with_handle db calls
         edit items selection status_var next_iid boxes faults tl].
    repeat (split; [reflexivity|]). exact Hidle.
  - unfold bindM at 1, messagebox at 1, modify at 1 in Hrun.
    cbn [fst snd] in Hrun. subst result. rewrite try_swallow.
    match goal with
    | |- context [_start_inline_edit item c i ?x] => set (s0 := x)
    end.
    assert (H0 : no_editor s0)
      by (apply (no_editor_view s); [reflexivity|exact Hidle]).
    pose proof (f_equal (fun x => fst (fst x)) (start_grid item c i s0))
      as Hg.
    unfold grid_view in Hg. cbn [fst] in Hg. rewrite Hg.
    rewrite (start_handle item c i s0).
    rewrite (start_boxes item c i s0).
    destruct (start_spec s0 item c i H0 Hcol) as (Hs' & _ & _ & Hcell).
    repeat (split; [reflexivity|]). split; [exact Hs'|].
    intros w' Hw'. apply (Hcell w' Hw').
  - destruct (f (db (handle_of s))) as [d' b].
    unfold _refresh_table, db_get_all_entries, tree_delete_children,
      status_set in Hrun.
    unfold bindM at 1 2 3, modify at 1, store_do at 1 in Hrun.
    cbn [handle_of with_tree with_handle faults tl fst snd] in Hrun.
    destruct l as [|[] rest].
    + unfold bindM, modify in Hrun. rewrite insert_entries_runs in Hrun.
      cbn [fst snd handle_of tree tk with_tree with_tk with_handle db calls
           edit items selection status_var next_iid boxes] in Hrun.
      subst result.
      cbn [fst snd handle_of tree tk with_tree with_tk with_handle db calls
           edit items selection status_var next_iid boxes faults tl].
      repeat (split; [reflexivity|]). exact Hidle.
    + unfold bindM at 1, messagebox at 1, modify at 1 in Hrun.
      cbn [fst snd] in Hrun. subst result. rewrite try_swallow.
      rewrite start_on_empty_grid by reflexivity.
      cbn [fst snd handle_of tree tk with_tree with_tk with_handle db calls
           edit items selection status_var next_iid boxes faults tl].
      repeat (split; [reflexivity|]).
      apply (no_editor_view s); [reflexivity|exact Hidle].
    + unfold bindM, modify in Hrun. rewrite insert_entries_runs in Hrun.
      cbn [fst snd handle_of tree tk with_tree with_tk with_handle db calls
           edit items selection status_var next_iid boxes] in Hrun.
      subst result.
      cbn [fst snd handle_of tree tk with_tree with_tk with_handle db calls
           edit items selection status_var next_iid boxes faults tl].
      repeat (split; [reflexivity|]). exact Hidle.
Qed.

(** Return in the inline editor, by the health of the store. If the
    update itself fails, no record changes, the grid keeps its rows, an
    error box is shown, and at most the same cell is open again. If the
    update goes through and the listing that follows fails, the value
    is stored all the same, yet the grid is left empty, the same error
    box is shown and no editor is open: the error box does not tell
    whether the record changed. Otherwise the value is stored, the grid
    is filled from the new listing and no box is shown. *)
Theorem return_while_the_store_fails
    (now : Z) (s : gui) (it : item) (w item i : nat) (c : string) :
  single_editor s ->
  editing_entry (edit s) = Some w ->
  editing_item (edit s) = Some item ->
  editing_column (edit s) = Some c ->
  editing_column_index (edit s) = Some i ->
  find (fun it => (iid it =? item)%nat) (items (tree s)) = Some it ->
  (amount_of c <> None \/ (c = "Name" /\ Py.strip (typed_text w s) <> "")) ->
  let text := Py.strip (typed_text w s) in
  let s' := take_turn now (deliver entry_return) s in
  let failed :=
    (showerror, "Failed to update " ++ c ++ ": " ++ str_exn sqlite3_Error) in
  match faults (handle_of s) with
  | true :: rest =>
      db (handle_of s') = db (handle_of s)
      /\ items (tree s') = items (tree s)
      /\ boxes (tk s') = (boxes (tk s) ++ [failed])%list
      /\ single_editor s'
      /\ (forall w', editing_entry (edit s') = Some w' ->
            editing_item (edit s') = Some item
            /\ editing_column (edit s') = Some c
            /\ editing_column_index (edit s') = Some i)
  | false :: true :: rest =>
      db (handle_of s')
      = inline_update (db (handle_of s)) now (value_id it) c text
      /\ items (tree s') = []
      /\ boxes (tk s') = (boxes (tk s) ++ [failed])%list
      /\ no_editor s'
  | _ =>
      db (handle_of s')
      = inline_update (db (handle_of s)) now (value_id it) c text
      /\ items (tree s')
         = rows_of (next_iid (tree s)) (get_all_entries (db (handle_of s')))
      /\ boxes (tk s') = boxes (tk s)
      /\ no_editor s'
  end.
Proof.
  intros Hs He Hi Hc Hx Hit Htext. cbv zeta.
  unfold take_turn, dispatch, run, handler.
  rewrite (finish_runs now s w item i c Hs He Hi Hc Hx).
  fold (typed_text w s).
  destruct (cancel_spec s Hs) as (_ & Hidle & _).
  pose proof (cancel_handle s) as Hh. pose proof (cancel_tree s) as Ht.
  pose proof (f_equal fst (cancel_boxes s)) as Hb. cbn [fst] in Hb.
  assert (Hcol : nth_error columns i = Some c).
  { destruct Hs as (_ & _ & Hcell & _).
    destruct (Hcell w He) as (item' & c' & i' & _ & Hc' & Hi' & Hn).
    congruence. }
  set (s1 := snd (_cancel_inline_edit s)) in *.
  set (text := Py.strip (typed_text w s)) in *.
  assert (Hit1 : find (fun it => (iid it =? item)%nat) (items (tree s1))
                 = Some it) by (rewrite Ht; exact Hit).
  assert (Hgen :
            forall field_name v f,
              db_update_entry now (value_id it) field_name v
              = store_do (call_update_entry (value_id it) field_name v) f ->
              fst (f (db (handle_of s)))
              = inline_update (db (handle_of s)) now (value_id it) c text ->
              let s' := snd (update_the_database now (value_id it) field_name
                               item c i v s1) in
              let failed :=
                (showerror,
                 "Failed to update " ++ c ++ ": " ++ str_exn sqlite3_Error) in
              match faults (handle_of s) with
              | true :: rest =>
                  db (handle_of s') = db (handle_of s)
                  /\ items (tree s') = items (tree s)
                  /\ boxes (tk s') = (boxes (tk s) ++ [failed])%list
                  /\ single_editor s'
                  /\ (forall w', editing_entry (edit s') = Some w' ->
                        editing_item (edit s') = Some item
                        /\ editing_column (edit s') = Some c
                        /\ editing_column_index (edit s') = Some i)
              | false :: true :: rest =>
                  db (handle_of s')
                  = inline_update (db (handle_of s)) now (value_id it) c text
                  /\ items (tree s') = []
                  /\ boxes (tk s') = (boxes (tk s) ++ [failed])%list
                  /\ no_editor s'
              | _ =>
                  db (handle_of s')
                  = inline_update (db (handle_of s)) now (value_id it) c text
                  /\ items (tree s')
                     = rows_of (next_iid (tree s))
                         (get_all_entries (db (handle_of s')))
                  /\ boxes (tk s') = boxes (tk s)
                  /\ no_editor s'
              end).
  { intros field_name v f Hcall Hfst. cbv zeta.
    pose proof (update_the_database_runs now (value_id it) field_name item c
                  i v f s1 Hcall Hidle Hcol) as H.
    cbv zeta in H. rewrite Hh, Ht, Hb, Hfst in H.
    destruct (faults (handle_of s)) as [|[] [|[] rest]];
      decompose [and] H;
      repeat match goal with |- _ /\ _ => split end; assumption. }
  destruct Htext as [Hamount|[-> Hname]].
  - destruct (amount_of c) as [col|] eqn:Hcol'; [|contradiction].
    destruct (amount_of_column c col Hcol') as (Hm & field_name & Hd & Hp).
    rewrite (save_inline_value_runs now it item i c field_name _ s1 Hit1 Hd).
    rewrite Hm.
    eapply Hgen; [unfold db_update_entry; rewrite Hp; reflexivity|].
    unfold inline_update. rewrite Hcol'. reflexivity.
  - rewrite (save_inline_value_runs now it item i "Name" "name" _ s1 Hit1
               eq_refl).
    change (member "Name" currency_columns) with false. cbv iota.
    destruct text as [|a text'] eqn:Etext; [contradiction|].
    cbn [Py.truthy negb].
    apply (Hgen "name" (a_str (String a text')) _ eq_refl). reflexivity.
Qed.

(** ** The dialogs and the delete button *)

(** [show] returns the result of the first save whose name is not
    blank: the saves before it were refused for a blank name, the
    result carries the stripped name, which is not empty, and for every
    amount what [_parse_float] makes of the field. It returns nothing
    when the dialog is cancelled or closed before such a save. *)
Theorem show_returns_the_first_accepted_save (script : list dialog_action) :
  match show script with
  | Some result =>
      exists refused f rest,
        script = (map press_save refused ++ press_save f :: rest)%list
        /\ Forall (fun g => blank (name_var g) = true) refused
        /\ blank (name_var f) = false
        /\ data_name result = Py.strip (name_var f)
        /\ data_name result <> ""
        /\ data_previous_balance result = _parse_float (prev_balance_var f)
        /\ data_previous_total result = _parse_float (prev_total_var f)
        /\ data_seller_1 result = _parse_float (seller1_var f)
        /\ data_seller_2 result = _parse_float (seller2_var f)
        /\ data_seller_3 result = _parse_float (seller3_var f)
        /\ data_seller_4 result = _parse_float (seller4_var f)
        /\ data_today_total result = _parse_float (today_total_var f)
        /\ data_today_balance result = _parse_float (today_balance_var f)
  | None =>
      exists refused rest,
        script = (map press_save refused ++ rest)%list
        /\ Forall (fun g => blank (name_var g) = true) refused
        /\ (rest = [] \/ exists rest', rest = press_cancel :: rest')
  end.
Proof.
  induction script as [|[f|] script IH]; simpl.
  - exists [], []. repeat split; [constructor|left; reflexivity].
  - unfold _save. rewrite truthy_strip, negb_involutive.
    destruct (blank (name_var f)) eqn:Hb.
    + destruct (show script) as [result|].
      * destruct IH as (refused & g & rest & -> & Hr & H).
        exists (f :: refused), g, rest.
        split; [reflexivity|]. split; [constructor; assumption|exact H].
      * destruct IH as (refused & rest & -> & Hr & H).
        exists (f :: refused), rest.
        split; [reflexivity|]. split; [constructor; assumption|exact H].
    + exists [], f, script. simpl.
      repeat split; try constructor; try assumption.
      intros E. apply strip_blank in E. congruence.
  - exists [], (press_cancel :: script).
    repeat split; [constructor|right; eauto].
Qed.

Lemma selected_runs (s : gui) (key : Z) :
  selected_key s = Some key ->
  _get_selected_entry_id s = (returned (Some key), s).
Proof.
  unfold selected_key, _get_selected_entry_id. rewrite bind_gets.
  destruct (selection (tree s)) as [|i l]; [discriminate|].
  unfold bindM, tree_item.
  destruct (find (fun it => (iid it =? i)%nat) (items (tree s))) as [it|];
    [|discriminate].
  simpl. intros H. inversion H. reflexivity.
Qed.

(** A write on the store, the refresh and the report, when the store
    answers both calls. *)
Lemma write_and_refresh_healthy {A : Type} (c : store_call)
    (f : database -> database * A) (msg text : string) (h : exn -> M unit)
    (s : gui) :
  faults (handle_of s) = [] ->
  let s' :=
    snd (try_except
           (_ <- store_do c f ;;
            _refresh_table ;;
            status_set msg ;;
            messagebox showinfo text) h s) in
  db (handle_of s') = fst (f (db (handle_of s)))
  /\ calls (handle_of s')
     = (calls (handle_of s) ++ [c; call_get_all_entries])%list
  /\ items (tree s')
     = rows_of (next_iid (tree s)) (get_all_entries (db (handle_of s')))
  /\ editor_view s' = editor_view s
  /\ boxes (tk s') = (boxes (tk s) ++ [(showinfo, text)])%list
  /\ status_var (tk s') = msg.
Proof.
  intros Hf. cbv zeta.
  match goal with
  | |- context [snd ?x] => remember x as result eqn:Hrun
  end.
  unfold try_except in Hrun. unfold bindM at 1 in Hrun.
  unfold store_do at 1 in Hrun. rewrite Hf in Hrun.
  destruct (f (db (handle_of s))) as [d' b].
  unfold _refresh_table, db_get_all_entries, tree_delete_children, status_set,
    messagebox, bindM, modify, store_do in Hrun.
  cbn [handle_of with_tree with_handle faults tl fst snd] in Hrun.
  rewrite insert_entries_runs in Hrun.
  cbn [fst snd handle_of tree tk with_tree with_tk with_handle db calls
       edit items selection status_var next_iid boxes] in Hrun.
  subst result.
  cbn [fst snd handle_of tree tk with_tree with_tk with_handle db calls
       edit items selection status_var next_iid boxes].
  rewrite <- app_assoc. repeat split.
Qed.

Lemma get_entry_healthy {C : Type} (key : Z) (k : option row -> M C)
    (s : gui) :
  faults (handle_of s) = [] ->
  bindM (db_get_entry key) k s
  = k (get_entry (db (handle_of s)) key)
      (with_handle
         (mkHandle (db (handle_of s))
            (calls (handle_of s) ++ [call_get_entry key]) []) s).
Proof.
  intros Hf. unfold bindM, db_get_entry, store_do. rewrite Hf. reflexivity.
Qed.

Lemma shown_nothing (s : gui) : shown [] s = s.
Proof.
  destruct s as [h t [ents nw f idl bx st sv] e]. unfold shown, with_tk.
  simpl. rewrite app_nil_r. reflexivity.
Qed.

Lemma shown_more (l l' : list (box_kind * string)) (s : gui) :
  shown l' (shown l s) = shown (l ++ l') s.
Proof. unfold shown, with_tk. simpl. rewrite app_assoc. reflexivity. Qed.

(** The dialog, once built, shows an error for every refused save. *)
Lemma wait_window_runs (script : list dialog_action) (s : gui) :
  wait_window script s = (returned tt, shown (refusals script) s).
Proof.
  revert s. induction script as [|[f|] script IH]; intros s; simpl;
    try (rewrite shown_nothing; reflexivity).
  destruct (_save f); [rewrite shown_nothing; reflexivity|].
  unfold bindM, messagebox, modify. cbn [fst snd].
  rewrite IH.
  change (with_tk _ s) with (shown [(showerror, "Name is required!")] s).
  rewrite shown_more. reflexivity.
Qed.

(** The focus checks that wait while no editor is referenced: each is
    called and does nothing. *)
Lemma idle_turns_without_editor (now : Z) (n : nat) :
  forall s,
    editing_entry (edit s) = None ->
    idle (tk s) = n ->
    Nat.iter n (take_turn now idle_callback) s
    = with_tk (set_idle 0 (tk s)) s.
Proof.
  induction n as [|n IH]; intros s He Hi.
  - destruct s as [h t [ents nw f idl bx st sv] e]. simpl in Hi. subst idl.
    reflexivity.
  - rewrite Nat.iter_succ_r.
    assert (Hturn : take_turn now idle_callback s
                    = with_tk (set_idle n (tk s)) s).
    { unfold take_turn, run. rewrite (run_idle_runs now s n Hi).
      unfold _check_focus_out. rewrite bind_gets.
      change (edit (with_tk (set_idle n (tk s)) s)) with (edit s).
      rewrite He. reflexivity. }
    rewrite Hturn, IH; [reflexivity|exact He|reflexivity].
Qed.

(** The dialog that is built while no editor is referenced. *)
Lemma dialog_runs_idle (now : Z) (script : list dialog_action) (s : gui) :
  editing_entry (edit s) = None ->
  EntryDialog now script s
  = (returned (show script),
     shown (refusals script) (with_tk (set_idle 0 (tk s)) s)).
Proof.
  intros He.
  rewrite dialog_runs, (idle_turns_without_editor now _ s He eq_refl),
    wait_window_runs.
  reflexivity.
Qed.

Lemma edit_runs (now : Z) (script : list dialog_action) (s : gui) (key : Z)
    (r : row) (result : entry_data) :
  selected_key s = Some key ->
  key <> 0 ->
  get_entry (db (handle_of s)) key = Some r ->
  show script = Some result ->
  faults (handle_of s) = [] ->
  editing_entry (edit s) = None ->
  _edit_entry now script s
  = try_except
      (_ <- db_update_entry_complete now key result ;;
       _refresh_table ;;
       status_set "Entry updated successfully" ;;
       messagebox showinfo "Entry updated successfully!")
      (fun e => messagebox showerror ("Failed to update entry: " ++ str_exn e))
      (shown (refusals script)
         (with_tk (set_idle 0 (tk s))
            (with_handle
               (mkHandle (db (handle_of s))
                  (calls (handle_of s) ++ [call_get_entry key]) []) s))).
Proof.
  intros Hsel Hkey Hr Hshow Hf Hi. unfold _edit_entry.
  rewrite (bind_returned _ _ s _ (f_equal fst (selected_runs s key Hsel))).
  rewrite (selected_runs s key Hsel). cbn [snd].
  destruct key as [|p|p]; [contradiction| |];
    rewrite (get_entry_healthy _ _ s Hf), Hr;
    unfold bindM at 1; rewrite dialog_runs_idle by exact Hi;
    rewrite Hshow; reflexivity.
Qed.

Lemma add_runs (now : Z) (script : list dialog_action) (s : gui)
    (result : entry_data) :
  show script = Some result ->
  editing_entry (edit s) = None ->
  _add_entry now script s
  = try_except
      (_ <- db_add_entry now result ;;
       _refresh_table ;;
       status_set "Entry added successfully" ;;
       messagebox showinfo "Entry added successfully!")
      (fun e => messagebox showerror ("Failed to add entry: " ++ str_exn e))
      (shown (refusals script) (with_tk (set_idle 0 (tk s)) s)).
Proof.
  intros Hshow Hi. unfold _add_entry.
  unfold bindM at 1. rewrite (dialog_runs_idle now script s Hi), Hshow.
  reflexivity.
Qed.

(** The Edit button with the store answering and no inline editor
    referenced: the dialog's result replaces the whole selected record.
    The name becomes the result's name, which is not empty, and every
    amount what SQLite stores for the number the result holds for it,
    or NULL when the result holds none, so that an amount left blank in
    the dialog is NULL afterwards; the creation time stays, the update
    time is the clock reading, the other records are untouched, the
    grid is filled from the new listing, and the message boxes shown
    are one error for every save that was refused, then the report of
    the success. *)
Theorem the_dialog_replaces_the_whole_record
    (now : Z) (s : gui) (script : list dialog_action) (key : Z) (r : row)
    (result : entry_data) :
  selected_key s = Some key ->
  key <> 0 ->
  get_entry (db (handle_of s)) key = Some r ->
  show script = Some result ->
  faults (handle_of s) = [] ->
  editing_entry (edit s) = None ->
  let s' := take_turn now (deliver (edit_pressed script)) s in
  exists r',
    get_entry (db (handle_of s')) key = Some r'
    /\ name r' = data_name result
    /\ name r' <> ""
    /\ (forall col,
          real_of col r'
          = match data_amount col result with
            | Some x => sql_real x
            | None => None
            end)
    /\ created_at r' = created_at r
    /\ updated_at r' = now
    /\ (forall j, j <> key ->
          get_entry (db (handle_of s')) j = get_entry (db (handle_of s)) j)
    /\ items (tree s')
       = rows_of (next_iid (tree s)) (get_all_entries (db (handle_of s')))
    /\ boxes (tk s')
       = (boxes (tk s)
          ++ refusals script
          ++ [(showinfo, "Entry updated successfully!")])%list
    /\ status_var (tk s') = "Entry updated successfully".
Proof.
  intros Hsel Hkey Hr Hshow Hf Hi. cbv zeta.
  unfold take_turn, dispatch, run, handler.
  rewrite (edit_runs now script s key r result Hsel Hkey Hr Hshow Hf Hi).
  unfold db_update_entry_complete.
  match goal with
  | |- context [snd (try_except _ ?h ?s0)] =>
      destruct (write_and_refresh_healthy
                  (call_update_entry_complete key result)
                  (fun d =>
                     update_entry_complete d now key (data_name result)
                       (data_previous_balance result)
                       (data_previous_total result) (data_seller_1 result)
                       (data_seller_2 result) (data_seller_3 result)
                       (data_seller_4 result) (data_today_total result)
                       (data_today_balance result))
                  "Entry updated successfully"
                  "Entry updated successfully!" h s0 eq_refl)
        as (Hdb & _ & Hitems & _ & Hbox & Hst)
  end.
  rewrite Hitems, Hdb, Hbox, Hst.
  cbn [handle_of with_handle with_tk shown set_idle db tree tk boxes].
  destruct (update_entry_complete_on_existing (db (handle_of s)) now
              key (data_name result) (data_previous_balance result)
              (data_previous_total result) (data_seller_1 result)
              (data_seller_2 result) (data_seller_3 result)
              (data_seller_4 result) (data_today_total result)
              (data_today_balance result) r Hr)
    as (d' & r' & Hu & Hg & _ & Hcr & Hup & Hn & Hreal & Hother & _).
  rewrite Hu. cbn [fst]. exists r'.
  split; [exact Hg|]. split; [exact Hn|].
  split; [rewrite Hn; apply (show_name_not_empty script), Hshow|].
  split; [intros col; rewrite Hreal; destruct col; reflexivity|].
  split; [exact Hcr|]. split; [exact Hup|].
  split; [exact Hother|]. rewrite <- app_assoc. repeat split.
Qed.

(** The Add button with the store answering and no inline editor
    referenced: one record is appended, under the next key, with the
    result's name, which is not empty, for every amount what SQLite
    stores for the number the result holds for it, or NULL when the
    result holds none, and the clock reading in both stamps; the grid
    is filled from the new listing, and the message boxes shown are one
    error for every save that was refused, then the report of the
    success. *)
Theorem the_dialog_adds_one_record
    (now : Z) (s : gui) (script : list dialog_action) (result : entry_data) :
  show script = Some result ->
  faults (handle_of s) = [] ->
  editing_entry (edit s) = None ->
  let s' := take_turn now (deliver (add_pressed script)) s in
  exists r',
    table (db (handle_of s')) = (table (db (handle_of s)) ++ [r'])%list
    /\ id r' = sqlite_sequence (db (handle_of s)) + 1
    /\ sqlite_sequence (db (handle_of s')) = id r'
    /\ name r' = data_name result
    /\ name r' <> ""
    /\ (forall col,
          real_of col r'
          = match data_amount col result with
            | Some x => sql_real x
            | None => None
            end)
    /\ created_at r' = now
    /\ updated_at r' = now
    /\ items (tree s')
       = rows_of (next_iid (tree s)) (get_all_entries (db (handle_of s')))
    /\ boxes (tk s')
       = (boxes (tk s)
          ++ refusals script
          ++ [(showinfo, "Entry added successfully!")])%list
    /\ status_var (tk s') = "Entry added successfully".
Proof.
  intros Hshow Hf Hi. cbv zeta.
  unfold take_turn, dispatch, run, handler.
  rewrite (add_runs now script s result Hshow Hi).
  unfold db_add_entry.
  match goal with
  | |- context [snd (try_except _ ?h ?s0)] =>
      destruct (write_and_refresh_healthy
                  (call_add_entry result)
                  (fun d =>
                     add_entry d now (data_name result)
                       (data_previous_balance result)
                       (data_previous_total result) (data_seller_1 result)
                       (data_seller_2 result) (data_seller_3 result)
                       (data_seller_4 result) (data_today_total result)
                       (data_today_balance result))
                  "Entry added successfully"
                  "Entry added successfully!" h s0 Hf)
        as (Hdb & _ & Hitems & _ & Hbox & Hst)
  end.
  rewrite Hitems, Hdb, Hbox, Hst.
  cbn [handle_of with_handle with_tk shown set_idle db tree tk boxes].
  unfold add_entry. cbn [fst].
  eexists. split; [reflexivity|]. repeat (split; [reflexivity|]).
  split; [apply (show_name_not_empty script), Hshow|].
  split; [intros []; reflexivity|]. rewrite <- app_assoc. repeat split.
Qed.

(** The clean-up that opens [_delete_entry], without any assumption on
    the editor: it returns, and leaves the store, the grid and the
    message boxes alone. *)
Lemma cancel_if_editing_runs (s : gui) :
  let c := match editing_entry (edit s) with
           | Some _ => _cancel_inline_edit
           | None => ret tt
           end in
  fst (c s) = returned tt
  /\ handle_of (snd (c s)) = handle_of s
  /\ tree (snd (c s)) = tree s
  /\ boxes (tk (snd (c s))) = boxes (tk s)
  /\ editing_entry (edit (snd (c s))) = None.
Proof.
  cbv zeta.
  destruct (editing_entry (edit s)) as [w|] eqn:He;
    [|repeat split; exact He].
  split; [|split; [apply cancel_handle|split; [apply cancel_tree|split]]].
  - unfold _cancel_inline_edit. rewrite bind_gets, He.
    unfold bindM, try_except, entry_destroy, on_entry.
    destruct (has_entry w (tk s)); reflexivity.
  - apply (f_equal fst (cancel_boxes s)).
  - unfold _cancel_inline_edit. rewrite bind_gets, He.
    unfold bindM, try_except, entry_destroy, on_entry.
    destruct (has_entry w (tk s)); reflexivity.
Qed.

(** The Delete button, confirmed, with the store answering: the
    selected record is gone and every other record is as it was; the
    user was asked once, naming the record, the grid is filled from the
    new listing, the success is reported, and no inline editor is left
    open. *)
Theorem the_delete_button_removes_the_selected_record
    (now : Z) (s : gui) (key : Z) (r : row) :
  selected_key s = Some key ->
  key <> 0 ->
  get_entry (db (handle_of s)) key = Some r ->
  faults (handle_of s) = [] ->
  let s' := take_turn now (deliver (delete_pressed true)) s in
  get_entry (db (handle_of s')) key = None
  /\ (forall j, j <> key ->
        get_entry (db (handle_of s')) j = get_entry (db (handle_of s)) j)
  /\ items (tree s')
     = rows_of (next_iid (tree s)) (get_all_entries (db (handle_of s')))
  /\ boxes (tk s')
     = (boxes (tk s)
        ++ [(askyesno,
             ("Are you sure you want to delete entry '" ++ name r
              ++ "' (ID: " ++ str_int key ++ ")?")%string);
            (showinfo, "Entry deleted successfully!")])%list
  /\ editing_entry (edit s') = None.
Proof.
  intros Hsel Hkey Hr Hf. cbv zeta.
  unfold take_turn, dispatch, run, handler, _delete_entry.
  destruct (cancel_if_editing_runs s) as (Hret & Hh & Ht & Hb & He).
  cbv zeta in Hret, Hh, Ht, Hb, He.
  rewrite bind_gets, (bind_returned _ _ s tt Hret).
  match type of Hret with
  | fst (?c s) = _ => set (s1 := snd (c s)) in *
  end.
  assert (Hsel1 : selected_key s1 = Some key)
    by (unfold selected_key; rewrite Ht; exact Hsel).
  assert (Hf1 : faults (handle_of s1) = []) by (rewrite Hh; exact Hf).
  rewrite (bind_returned _ _ s1 _ (f_equal fst (selected_runs s1 key Hsel1))).
  rewrite (selected_runs s1 key Hsel1). cbn [snd].
  assert (Hrest :
            forall s2 k,
              faults (handle_of s2) = [] ->
              db (handle_of s2) = db (handle_of s) ->
              tree s2 = tree s ->
              editing_entry (edit s2) = None ->
              boxes (tk s2) = (boxes (tk s) ++ [k])%list ->
              let s' :=
                snd (try_except
                       (_ <- db_delete_entry key ;;
                        _refresh_table ;;
                        status_set "Entry deleted successfully" ;;
                        messagebox showinfo "Entry deleted successfully!")
                       (fun e =>
                          messagebox showerror
                            ("Failed to delete entry: " ++ str_exn e)) s2) in
              get_entry (db (handle_of s')) key = None
              /\ (forall j, j <> key ->
                    get_entry (db (handle_of s')) j
                    = get_entry (db (handle_of s)) j)
              /\ items (tree s')
                 = rows_of (next_iid (tree s))
                     (get_all_entries (db (handle_of s')))
              /\ boxes (tk s')
                 = (boxes (tk s)
                    ++ [k; (showinfo, "Entry deleted successfully!")])%list
              /\ editing_entry (edit s') = None).
  { intros s2 k Hf2 Hd2 Ht2 He2 Hb2. cbv zeta. unfold db_delete_entry.
    match goal with
    | |- context [snd (try_except _ ?h s2)] =>
        destruct (write_and_refresh_healthy (call_delete_entry key)
                    (fun d => delete_entry d key)
                    "Entry deleted successfully"
                    "Entry deleted successfully!" h s2 Hf2)
          as (Hdb & _ & Hitems & Hview & Hbox & _)
    end.
    rewrite Hitems, Hdb, Hbox, Hd2, Ht2, Hb2, <- app_assoc.
    destruct (delete_entry_on_existing (db (handle_of s)) key r Hr)
      as (d' & Hdel & Hgone & Hother & _).
    rewrite Hdel. cbn [fst].
    split; [exact Hgone|]. split; [exact Hother|]. split; [reflexivity|].
    split; [reflexivity|].
    pose proof (f_equal snd Hview) as E3. unfold editor_view in E3.
    cbn [snd] in E3. rewrite E3. exact He2. }
  destruct key as [|p|p]; [contradiction| |];
    rewrite (get_entry_healthy _ _ s1 Hf1), Hh, Hr;
    unfold bindM at 1, messagebox at 1, modify at 1; cbn [fst snd];
    apply Hrest; try reflexivity; cbn [handle_of with_tk with_handle db tree
                                       edit tk boxes];
    try rewrite Hh; try rewrite Ht; try rewrite Hb; try assumption;
    reflexivity.
Qed.

(** With no row selected, Edit and Delete ask nothing of the store:
    Edit only shows its warning, and Delete, after closing an inline
    editor that may be open, only shows its own; the grid is as it
    was. The dialog is not opened and the user is not asked to
    confirm. *)
Theorem without_a_selection_the_store_is_not_asked
    (now : Z) (s : gui) (script : list dialog_action) (answer : bool) :
  selection (tree s) = [] ->
  take_turn now (deliver (edit_pressed script)) s
  = run (messagebox showwarning "Please select an entry to edit.") s
  /\ (let s' := take_turn now (deliver (delete_pressed answer)) s in
      handle_of s' = handle_of s
      /\ tree s' = tree s
      /\ boxes (tk s')
         = (boxes (tk s)
            ++ [(showwarning, "Please select an entry to delete.")])%list
      /\ editing_entry (edit s') = None).
Proof.
  intros Hsel. split.
  - unfold take_turn, dispatch, run, handler, _edit_entry,
      _get_selected_entry_id.
    unfold bindM, gets. rewrite Hsel. reflexivity.
  - cbv zeta. unfold take_turn, dispatch, run, handler, _delete_entry.
    destruct (cancel_if_editing_runs s) as (Hret & Hh & Ht & Hb & He).
    cbv zeta in Hret, Hh, Ht, Hb, He.
    rewrite bind_gets, (bind_returned _ _ s tt Hret).
    match type of Hret with
    | fst (?c s) = _ => set (s1 := snd (c s)) in *
    end.
    unfold _get_selected_entry_id, bindM, gets. rewrite Ht, Hsel.
    unfold ret, messagebox, modify. cbn [snd handle_of tree tk edit boxes
                                         with_tk].
    rewrite Hb. auto.
Qed.

(** * Properties of the menu loop *)

Lemma add_entry_menu_reading_agrees (d : database) (now : Z)
    (stdin : list string) :
  add_entry_menu d now stdin
  = match add_entry_menu_reading d now stdin with
    | Some (result, _) => result
    | None => (d, eof_error)
    end.
Proof.
  unfold add_entry_menu, add_entry_menu_reading, cli_bind, input, cli_ret.
  destruct stdin as [|line stdin]; [reflexivity|].
  destruct (negb (Py.truthy (Py.strip line))); [reflexivity|].
  repeat match goal with
         | |- context [get_float_input ?x] =>
             destruct (get_float_input x) as [[? ?]|]; [|reflexivity]
         end.
  destruct (add_entry _ _ _ _ _ _ _ _ _ _ _). reflexivity.
Qed.

Lemma update_entry_menu_reading_agrees (d : database) (now : Z)
    (stdin : list string) :
  update_entry_menu d now stdin
  = match update_entry_menu_reading d now stdin with
    | Some (result, _) => result
    | None => (d, update_eof)
    end.
Proof.
  unfold update_entry_menu, update_entry_menu_reading, cli_bind, input,
    cli_ret.
  destruct stdin as [|line stdin]; [reflexivity|].
  destruct (py_int line) as [entry_id|]; [|reflexivity].
  destruct (negb (sqlite_integer entry_id)); [reflexivity|].
  destruct (get_entry d entry_id); [|reflexivity].
  destruct stdin as [|answer stdin]; [reflexivity|]. cbv zeta.
  repeat match goal with
         | |- context [get_float_input ?x] =>
             destruct (get_float_input x) as [[? ?]|]; [|reflexivity]
         end.
  destruct (update_entry _ _ _ _ _ _ _ _ _ _ _ _). reflexivity.
Qed.

Lemma delete_entry_menu_reading_agrees (d : database) (stdin : list string) :
  delete_entry_menu d stdin
  = match delete_entry_menu_reading d stdin with
    | Some (result, _) => result
    | None => (d, delete_eof)
    end.
Proof.
  unfold delete_entry_menu, delete_entry_menu_reading, cli_bind, input,
    cli_ret.
  destruct stdin as [|line stdin]; [reflexivity|].
  destruct (py_int line) as [entry_id|]; [|reflexivity].
  destruct (negb (sqlite_integer entry_id)); [reflexivity|].
  destruct (get_entry d entry_id); [|reflexivity].
  destruct stdin as [|confirm stdin]; [reflexivity|]. cbv zeta.
  destruct (Py.lower (Py.strip confirm) =? "yes")%string; [|reflexivity].
  destruct (delete_entry d entry_id). reflexivity.
Qed.

Lemma reads_forward_ret {A : Type} (a : A) : reads_forward (cli_ret a).
Proof.
  intros stdin a' rest H. inversion H. subst. exists []. reflexivity.
Qed.

Lemma reads_forward_bind {A B : Type} (c : cli A) (k : A -> cli B) :
  reads_forward c -> (forall a, reads_forward (k a)) ->
  reads_forward (cli_bind c k).
Proof.
  intros Hc Hk stdin b rest. unfold cli_bind.
  destruct (c stdin) as [[a mid]|] eqn:E; [|discriminate].
  intros H. destruct (Hc _ _ _ E) as (r1 & ->).
  destruct (Hk a _ _ _ H) as (r2 & ->).
  exists (r1 ++ r2)%list. apply app_assoc.
Qed.

Lemma reads_forward_input : reads_forward input.
Proof.
  intros [|line stdin] a rest H; [discriminate|]. inversion H. subst.
  exists [a]. reflexivity.
Qed.

Lemma reads_forward_get_float_input : reads_forward get_float_input.
Proof.
  intros stdin v rest H. pose proof (get_float_input_reads stdin) as Hr.
  rewrite H in Hr. destruct Hr as (skipped & line & -> & _).
  exists (skipped ++ [line])%list. rewrite <- app_assoc. reflexivity.
Qed.

Ltac reads :=
  repeat first
    [ apply reads_forward_ret
    | apply reads_forward_input
    | apply reads_forward_get_float_input
    | apply reads_forward_bind; [|intros ?]
    | match goal with
      | |- reads_forward (match ?x with _ => _ end) => destruct x
      | |- reads_forward (let (_, _) := ?x in _) => destruct x
      end ].

Lemma reads_forward_add (d : database) (now : Z) :
  reads_forward (add_entry_menu_reading d now).
Proof. unfold add_entry_menu_reading. reads. Qed.

Lemma reads_forward_update (d : database) (now : Z) :
  reads_forward (update_entry_menu_reading d now).
Proof. unfold update_entry_menu_reading. reads. Qed.

Lemma reads_forward_delete (d : database) :
  reads_forward (delete_entry_menu_reading d).
Proof. unfold delete_entry_menu_reading. reads. Qed.

Lemma reads_forward_view (d : database) : reads_forward (view_entry_menu d).
Proof. unfold view_entry_menu. reads. Qed.

Lemma reads_forward_search (d : database) :
  reads_forward (search_entry_menu d).
Proof. unfold search_entry_menu. reads. Qed.

Lemma typed_for_later (e : session_end) (line : string)
    (rest rest' : list string) :
  (exists read, rest = (read ++ rest')%list) ->
  typed_for e rest' -> typed_for e (line :: rest).
Proof.
  intros (read & ->) H.
  assert (Hin : forall l, In l rest' -> In l (line :: read ++ rest'))
    by (intros l Hl; right; apply in_or_app; right; exact Hl).
  destruct e; simpl in *.
  - destruct H as (l & Hl & H). exists l. auto.
  - exact I.
  - destruct H as (l & z & Hl & H). exists l, z. auto.
  - destruct H as (l & Hl & H). exists l. auto.
Qed.

Lemma view_overflow_typed (d : database) (stdin rest : list string) :
  view_entry_menu d stdin = Some (view_overflow, rest) ->
  typed_for session_overflow stdin.
Proof.
  unfold view_entry_menu, cli_bind, input, cli_ret.
  destruct stdin as [|line stdin]; [discriminate|].
  destruct (py_int line) as [entry_id|] eqn:E; [|discriminate].
  destruct (sqlite_integer entry_id) eqn:K; simpl; [discriminate|].
  intros _. exists line, entry_id. auto.
Qed.

Lemma update_overflow_typed (d d' : database) (now : Z)
    (stdin rest : list string) :
  update_entry_menu_reading d now stdin = Some ((d', update_overflow), rest) ->
  typed_for session_overflow stdin.
Proof.
  unfold update_entry_menu_reading, cli_bind, input, cli_ret.
  destruct stdin as [|line stdin]; [discriminate|].
  destruct (py_int line) as [entry_id|] eqn:E; [|discriminate].
  destruct (sqlite_integer entry_id) eqn:K; simpl.
  - destruct (get_entry d entry_id); [|discriminate].
    destruct stdin as [|answer stdin]; [discriminate|]. cbv zeta.
    repeat match goal with
           | |- context [get_float_input ?x] =>
               destruct (get_float_input x) as [[? ?]|]; [|discriminate]
           end.
    destruct (update_entry _ _ _ _ _ _ _ _ _ _ _ _) as [? []]; discriminate.
  - intros _. exists line, entry_id. auto.
Qed.

Lemma delete_overflow_typed (d d' : database) (stdin rest : list string) :
  delete_entry_menu_reading d stdin = Some ((d', delete_overflow), rest) ->
  typed_for session_overflow stdin.
Proof.
  unfold delete_entry_menu_reading, cli_bind, input, cli_ret.
  destruct stdin as [|line stdin]; [discriminate|].
  destruct (py_int line) as [entry_id|] eqn:E; [|discriminate].
  destruct (sqlite_integer entry_id) eqn:K; simpl.
  - destruct (get_entry d entry_id); [|discriminate].
    destruct stdin as [|answer stdin]; [discriminate|]. cbv zeta.
    destruct (Py.lower (Py.strip answer) =? "yes")%string; [|discriminate].
    destruct (delete_entry d entry_id) as [? []]; discriminate.
  - intros _. exists line, entry_id. auto.
Qed.

(** The search of the menu raises OperationalError only, and only on a
    term of more than 49998 bytes. *)
Lemma search_raised_typed (d : database) (e : store_error)
    (stdin rest : list string) :
  search_entry_menu d stdin = Some (search_raised e, rest) ->
  e = OperationalError /\ typed_for session_operational_error stdin.
Proof.
  unfold search_entry_menu, cli_bind, input, cli_ret.
  destruct stdin as [|line stdin]; [discriminate|]. cbv zeta.
  destruct (negb (Py.truthy (Py.strip line))); [discriminate|].
  unfold search_by_name_call. cbv zeta. rewrite search_pattern_length.
  unfold Sql.max_like_pattern_length.
  destruct (_ && (50000 <? Py.utf8_length (Py.strip line) + 2)) eqn:E.
  - intros H. inversion H. split; [reflexivity|].
    apply andb_true_iff in E. destruct E as [_ E]. apply Z.ltb_lt in E.
    exists line. split; [left; reflexivity|lia].
  - destruct (search_by_name d (Py.strip line)); discriminate.
Qed.

Lemma main_menu_runs (clock : nat -> Z) (fuel : nat) :
  forall n d stdin,
    (List.length stdin < fuel)%nat ->
    exists result,
      (forall fuel', (List.length stdin < fuel')%nat ->
         main_menu fuel' clock n d stdin = Some result)
      /\ typed_for (snd result) stdin.
Proof.
  induction fuel as [|f IH]; intros n d stdin Hlen; [lia|].
  destruct stdin as [|line rest].
  { exists (d, session_eof).
    split; [intros [|f'] H; [simpl in H; lia|reflexivity]|exact I]. }
  simpl in Hlen.
  assert (Hcont :
            forall n' d' rest',
              (exists read, rest = (read ++ rest')%list) ->
              exists result,
                (forall f', (List.length rest < f')%nat ->
                   main_menu f' clock n' d' rest' = Some result)
                /\ typed_for (snd result) (line :: rest)).
  { intros n' d' rest' Hread.
    assert (Hl : (List.length rest' <= List.length rest)%nat)
      by (destruct Hread as (read & E); rewrite E, length_app; lia).
    destruct (IH n' d' rest') as (result & H1 & H2); [lia|].
    exists result. split; [intros f' Hf'; apply H1; lia|].
    exact (typed_for_later _ line rest rest' Hread H2). }
  assert (Hstop :
            forall d' e, typed_for e (line :: rest) ->
              exists result : database * session_end,
                (forall f' : nat, (List.length rest < f')%nat ->
                   Some (d', e) = Some result)
                /\ typed_for (snd result) (line :: rest)).
  { intros d' e He. exists (d', e). split; [reflexivity|exact He]. }
  assert (Hlater : forall e, typed_for e rest -> typed_for e (line :: rest)).
  { intros e. apply typed_for_later. exists []. reflexivity. }
  cut (exists result,
         (forall f', (List.length rest < f')%nat ->
            main_menu (S f') clock n d (line :: rest) = Some result)
         /\ typed_for (snd result) (line :: rest)).
  { intros (result & H1 & H2). exists result. split; [|exact H2].
    intros [|f'] Hf'; simpl in Hf'; [lia|]. apply H1. lia. }
  cbn [main_menu input].
  destruct (Py.strip line =? "1")%string.
  { destruct (add_entry_menu_reading d (clock n) rest)
      as [[[d' o] rest']|] eqn:E;
      [|apply Hstop; exact I].
    apply Hcont. exact (reads_forward_add _ _ _ _ _ E). }
  destruct (Py.strip line =? "2")%string.
  { apply Hcont. exists []. reflexivity. }
  destruct (Py.strip line =? "3")%string.
  { destruct (view_entry_menu d rest) as [[o rest']|] eqn:E;
      [|apply Hstop; exact I].
    pose proof (reads_forward_view _ _ _ _ E) as Hr.
    destruct o;
      first [apply Hstop, Hlater; exact (view_overflow_typed _ _ _ E)
            | apply Hcont, Hr]. }
  destruct (Py.strip line =? "4")%string.
  { destruct (update_entry_menu_reading d (clock n) rest)
      as [[[d' o] rest']|] eqn:E;
      [|apply Hstop; exact I].
    pose proof (reads_forward_update _ _ _ _ _ E) as Hr.
    destruct o;
      first [apply Hstop, Hlater; exact (update_overflow_typed _ _ _ _ _ E)
            | apply Hcont, Hr]. }
  destruct (Py.strip line =? "5")%string.
  { destruct (delete_entry_menu_reading d rest)
      as [[[d' o] rest']|] eqn:E;
      [|apply Hstop; exact I].
    pose proof (reads_forward_delete _ _ _ _ E) as Hr.
    destruct o;
      first [apply Hstop, Hlater; exact (delete_overflow_typed _ _ _ _ E)
            | apply Hcont, Hr]. }
  destruct (Py.strip line =? "6")%string.
  { destruct (search_entry_menu d rest) as [[o rest']|] eqn:E;
      [|apply Hstop; exact I].
    pose proof (reads_forward_search _ _ _ _ E) as Hr.
    destruct o as [| | |e]; try (apply Hcont, Hr).
    destruct (search_raised_typed _ _ _ _ E) as [-> Ht].
    apply Hstop, Hlater, Ht. }
  destruct (Py.strip line =? "7")%string eqn:E7.
  { exists (d, session_exit). split; [reflexivity|].
    exists line. split; [left; reflexivity|apply String.eqb_eq, E7]. }
  apply Hcont. exists []. reflexivity.
Qed.

(** A run of [main_menu] on a finite input ends, whatever is typed:
    every turn of the loop reads a line, so as many turns as there are
    lines, and one more, are enough, and more turns change nothing.
    The run ends on option 7, or on an exception that no menu catches:
    EOFError when the input is exhausted, OverflowError when a typed
    key is outside the range [sqlite3] can bind, OperationalError when
    a search term is too long for [LIKE]. It ends on option 7 only if
    some line of the input is a 7 once stripped, on OverflowError only
    if some line reads as an integer outside the signed 64-bit range,
    and on OperationalError only if some line takes more than 49998
    bytes once stripped. *)
Theorem main_menu_ends (clock : nat -> Z) (n : nat) (d : database)
    (stdin : list string) :
  exists result,
    (forall fuel, (List.length stdin < fuel)%nat ->
       main_menu fuel clock n d stdin = Some result)
    /\ match snd result with
       | session_exit => exists line, In line stdin /\ Py.strip line = "7"
       | session_eof => True
       | session_overflow =>
           exists line entry_id,
             In line stdin /\ py_int line = Some entry_id
             /\ sqlite_integer entry_id = false
       | session_operational_error =>
           exists line,
             In line stdin /\ 49998 < Py.utf8_length (Py.strip line)
       end.
Proof. apply (main_menu_runs clock (S (List.length stdin))). lia. Qed.

Lemma main_menu_keeps (clock : nat -> Z) (fuel : nat) :
  forall n d stdin d' e,
    keyed_and_named d ->
    main_menu fuel clock n d stdin = Some (d', e) ->
    keyed_and_named d'.
Proof.
  induction fuel as [|f IH]; intros n d stdin d' e Hd H; [discriminate|].
  destruct stdin as [|line rest]; cbn [main_menu input] in H;
    [inversion H; subst; exact Hd|].
  assert (Hend : forall e', Some (d, e') = Some (d', e) -> keyed_and_named d')
    by (intros e' E; inversion E; subst; exact Hd).
  destruct (Py.strip line =? "1")%string.
  { pose proof (add_entry_menu_keeps d (clock n) rest Hd) as Hk.
    rewrite add_entry_menu_reading_agrees in Hk.
    destruct (add_entry_menu_reading d (clock n) rest)
      as [[[d1 o] rest']|]; [|exact (Hend _ H)].
    exact (IH _ _ _ _ _ Hk H). }
  destruct (Py.strip line =? "2")%string; [exact (IH _ _ _ _ _ Hd H)|].
  destruct (Py.strip line =? "3")%string.
  { destruct (view_entry_menu d rest) as [[o rest']|]; [|exact (Hend _ H)].
    destruct o; first [exact (Hend _ H) | exact (IH _ _ _ _ _ Hd H)]. }
  destruct (Py.strip line =? "4")%string.
  { pose proof (update_entry_menu_keeps d (clock n) rest Hd) as Hk.
    rewrite update_entry_menu_reading_agrees in Hk.
    destruct (update_entry_menu_reading d (clock n) rest)
      as [[[d1 o] rest']|]; [|exact (Hend _ H)].
    destruct o;
      first [exact (IH _ _ _ _ _ Hk H)
            | inversion H; subst; exact Hk]. }
  destruct (Py.strip line =? "5")%string.
  { pose proof (delete_entry_menu_keeps d rest Hd) as Hk.
    rewrite delete_entry_menu_reading_agrees in Hk.
    destruct (delete_entry_menu_reading d rest)
      as [[[d1 o] rest']|]; [|exact (Hend _ H)].
    destruct o;
      first [exact (IH _ _ _ _ _ Hk H)
            | inversion H; subst; exact Hk]. }
  destruct (Py.strip line =? "6")%string.
  { destruct (search_entry_menu d rest) as [[o rest']|]; [|exact (Hend _ H)].
    destruct o as [| | |[]];
      first [exact (Hend _ H) | exact (IH _ _ _ _ _ Hd H)]. }
  destruct (Py.strip line =? "7")%string; [exact (Hend _ H)|].
  exact (IH _ _ _ _ _ Hd H).
Qed.

(** A whole session at the command line keeps the keys and the names:
    from records with distinct keys within the counter and non-empty
    names, however the run of [main_menu] ends, the store it leaves has
    such records. No sequence of menu choices and answers stores an
    empty name. *)
Theorem main_menu_keeps_keys_and_names
    (clock : nat -> Z) (fuel n : nat) (d : database) (stdin : list string)
    (d' : database) (e : session_end) :
  well_formed d -> named d ->
  main_menu fuel clock n d stdin = Some (d', e) ->
  well_formed d' /\ named d'.
Proof.
  intros Hwf Hnamed H.
  exact (main_menu_keeps clock fuel n d stdin d' e (conj Hwf Hnamed) H).
Qed.

End Ledger.

(** * Concrete runs *)

(** The empty name goes through [add_entry]: a record is inserted and
    its key returned. *)
Lemma add_entry_accepts_the_empty_name :
  let result :=
    add_entry as_given empty_database 0 "" None None None None None None None None in
  blank "" = true
  /\ snd result = 1
  /\ table (fst result)
     = [mkRow 1 "" None None None None None None None None 0 0]
  /\ table (fst result) <> table empty_database.
Proof. cbv zeta. repeat split. discriminate. Qed.

(** The empty name goes through [update_entry_complete]: the call
    succeeds and the record's name is empty afterwards. *)
Lemma update_entry_complete_accepts_the_empty_name :
  let result :=
    update_entry_complete as_given ledger_with_bob 9 1 ""
      None None (Some 10%float) None None None None None in
  snd result = true
  /\ option_map name (get_entry (fst result) 1) = Some "".
Proof. cbv zeta. split; reflexivity. Qed.

(** No record has the key 2^63 and the mapping names a field, yet
    [update_entry] does not answer [False]: the call raises
    OverflowError. With the last key that can be bound it answers
    [False]. *)
Lemma update_entry_raises_on_an_unbindable_key :
  get_entry ledger_with_bob 9223372036854775808 = None
  /\ update_entry_call as_given ledger_with_bob 9 9223372036854775808
       (Some "Rob") None None None None None None None None
     = (ledger_with_bob, fails OverflowError)
  /\ update_entry_call as_given ledger_with_bob 9 9223372036854775807
       (Some "Rob") None None None None None None None None
     = (ledger_with_bob, answered false).
Proof. repeat split. Qed.

(** The same for [update_entry_complete]: on the key 2^63, which no
    record has, it does not answer [False] but raises OverflowError. *)
Lemma update_entry_complete_raises_on_an_unbindable_key :
  get_entry ledger_with_bob 9223372036854775808 = None
  /\ update_entry_complete_call as_given ledger_with_bob 9
       9223372036854775808 "Rob" None None None None None None None None
     = (ledger_with_bob, fails OverflowError)
  /\ update_entry_complete_call as_given ledger_with_bob 9
       9223372036854775807 "Rob" None None None None None None None None
     = (ledger_with_bob, answered false).
Proof. repeat split. Qed.

Lemma ledger_with_bob_well_formed : well_formed ledger_with_bob.
Proof.
  repeat split; simpl; try lia.
  - constructor; [intros []|constructor].
  - constructor; [simpl; lia|constructor].
Defined.

Lemma add_entry_inserts_any_name_witness :
  well_formed ledger_with_bob
  /\ exists r,
       get_entry
         (fst (add_entry as_given ledger_with_bob 9 " " None None None None
                 None None None None)) 2 = Some r
       /\ name r = " "
       /\ created_at r = updated_at r
       /\ seller_1 r = None.
Proof.
  split; [exact ledger_with_bob_well_formed|].
  destruct (add_entry_inserts_any_name as_given (fun _ => None)
              ledger_with_bob 9 " " None None None None None None None None
              ledger_with_bob_well_formed)
    as ((r & _ & Hget & _ & Hname & Hstamp & Hnone) & _).
  exists r. split; [exact Hget|]. split; [exact Hname|].
  split; [exact Hstamp|]. exact (Hnone col_seller_1 eq_refl).
Defined.

Lemma stored_name_is_the_callers_witness :
  well_formed ledger_with_bob
  /\ "Ann" <> ""
  /\ exists r,
       get_entry
         (fst (add_entry as_given ledger_with_bob 9 "Ann" None None None None
                 None None None None)) 2 = Some r
       /\ name r = "Ann".
Proof.
  assert (H : "Ann" <> "") by discriminate.
  split; [exact ledger_with_bob_well_formed|]. split; [exact H|].
  destruct (stored_name_is_the_callers as_given (fun _ => None)
              ledger_with_bob 9 1 "Ann" None None None None None None None None
              ledger_with_bob_well_formed H)
    as ((r & Hget & Hname & _) & _).
  exists r. split; [exact Hget|exact Hname].
Defined.

Lemma update_entry_changes_only_supplied_fields_witness :
  get_entry ledger_with_bob 1 = Some bob
  /\ (@None string <> None
      \/ exists c,
           argument c None None None (Some 5%float) None None None None <> None)
  /\ exists d' r',
       update_entry as_given ledger_with_bob 9 1 None
         None None None (Some 5%float) None None None None = (d', true)
       /\ get_entry d' 1 = Some r'
       /\ seller_1 r' = Some 10%float
       /\ seller_2 r' = Some 5%float
       /\ name r' = "Bob"
       /\ created_at r' = 5
       /\ updated_at r' = 9.
Proof.
  assert (H1 : get_entry ledger_with_bob 1 = Some bob) by reflexivity.
  assert (H2 : @None string <> None
               \/ exists c,
                    argument c None None None (Some 5%float) None None None None
                    <> None)
    by (right; exists col_seller_2; discriminate).
  split; [exact H1|]. split; [exact H2|].
  destruct (update_entry_changes_only_supplied_fields as_given ledger_with_bob
              9 1 None None None None (Some 5%float) None None None None bob
              H1 H2)
    as (d' & r' & Hu & Hg & _ & Hc & Hup & Hn & Hreal & _).
  exists d', r'. split; [exact Hu|]. split; [exact Hg|].
  split; [exact (Hreal col_seller_1)|]. split; [exact (Hreal col_seller_2)|].
  split; [exact Hn|]. split; [exact Hc|exact Hup].
Defined.

Lemma update_entry_stores_empty_name_witness :
  get_entry ledger_with_bob 1 = Some bob
  /\ exists d' r',
       update_entry as_given ledger_with_bob 9 1 (Some "")
         None None None None None None None None = (d', true)
       /\ get_entry d' 1 = Some r'
       /\ name r' = "".
Proof.
  assert (H1 : get_entry ledger_with_bob 1 = Some bob) by reflexivity.
  split; [exact H1|].
  exact (proj1 (update_entry_stores_empty_name as_given (fun _ => None)
                  (fun _ => "") (fun _ => "") (fun _ => "") (fun _ => "")
                  ledger_with_bob 9 1 bob H1)).
Defined.

Lemma search_by_name_without_wildcards_witness :
  no_wildcard "bob" = true
  /\ no_nul "bob" = true
  /\ exists entries,
       search_by_name_call three_shops "bob" = answered entries
       /\ Permutation entries
            (filter (fun r => contains_nocase "bob" (Sql.c_string (name r)))
               (table three_shops))
       /\ newest_first entries.
Proof.
  assert (H1 : no_wildcard "bob" = true) by reflexivity.
  assert (H2 : no_nul "bob" = true) by reflexivity.
  split; [exact H1|]. split; [exact H2|].
  pose proof (search_by_name_without_wildcards three_shops "bob" H1 H2) as H.
  change (search_by_name_call three_shops "bob")
    with (answered (search_by_name three_shops "bob")) in H.
  exists (search_by_name three_shops "bob").
  split; [reflexivity|]. exact (proj2 H).
Defined.

(** The search of the specification's example, most recent first. *)
Example search_bob :
  map name (search_by_name three_shops "bob") = ["bobby"; "Bob's Store"].
Proof. reflexivity. Qed.

(** A full replace with no amount clears the amount that was set. *)
Example full_replace_clears_seller_1 :
  option_map seller_1
    (get_entry
       (fst (update_entry_complete as_given ledger_with_bob 9 1 "Bob"
               None None None None None None None None)) 1)
  = Some None.
Proof. reflexivity. Qed.

(** ** Runs of the further properties *)

Lemma three_shops_well_formed : well_formed three_shops.
Proof.
  repeat split; simpl; try lia.
  - repeat constructor; simpl; intuition lia.
  - repeat constructor; simpl; lia.
Defined.

Lemma get_all_entries_lists_every_record_witness :
  well_formed three_shops
  /\ map id (get_all_entries three_shops) = [2; 3; 1]
  /\ Permutation (get_all_entries three_shops) (table three_shops)
  /\ newest_first (get_all_entries three_shops).
Proof.
  split; [exact three_shops_well_formed|]. split; [reflexivity|].
  destruct (get_all_entries_lists_every_record three_shops
              three_shops_well_formed) as (H1 & H2 & _).
  split; [exact H1|exact H2].
Defined.

Lemma the_record_just_written_is_listed_first_witness :
  well_formed three_shops
  /\ Forall (fun r => updated_at r < 10) (table three_shops)
  /\ (exists h rest,
        get_all_entries
          (fst (add_entry as_given three_shops 10 "Ann" None None None None
                  None None None None)) = h :: rest
        /\ id h = 4)
  /\ (exists h rest,
        get_all_entries
          (fst (update_entry as_given three_shops 10 1 (Some "Rob") None None
                  None None None None None None)) = h :: rest
        /\ id h = 1).
Proof.
  assert (H : Forall (fun r => updated_at r < 10) (table three_shops))
    by (repeat constructor).
  split; [exact three_shops_well_formed|]. split; [exact H|].
  destruct (the_record_just_written_is_listed_first as_given three_shops 10 1
              "Ann" (Some "Rob") None None None None None None None None
              three_shops_well_formed H)
    as ((h & rest & Hl & Hid & _) & Hupdate & _).
  split; [exists h, rest; split; [exact Hl|exact Hid]|].
  destruct (Hupdate eq_refl) as (h' & rest' & Hl' & Hid' & _).
  exists h', rest'. split; [exact Hl'|exact Hid'].
Defined.

Lemma bob_is_well_formed : well_formed ledger_with_bob.
Proof.
  repeat split; simpl; try lia.
  - constructor; [intros []|constructor].
  - constructor; [simpl; lia|constructor].
Defined.

Lemma created_at_is_never_rewritten_witness :
  well_formed ledger_with_bob
  /\ option_map created_at
       (get_entry
          (after_ops as_given ledger_with_bob
             [op_update_entry 9 1 (Some "Rob") (fun _ => None);
              op_add_entry 10 "Ann" (fun _ => None)]) 1)
     = Some 5
  /\ get_entry
       (after_ops as_given ledger_with_bob
          [op_delete_entry 1; op_add_entry 10 "Ann" (fun _ => None)]) 1
     = None.
Proof.
  split; [exact bob_is_well_formed|]. split.
  - pose proof (proj1 (created_at_is_never_rewritten as_given ledger_with_bob
                         [op_update_entry 9 1 (Some "Rob") (fun _ => None);
                          op_add_entry 10 "Ann" (fun _ => None)] 1
                         bob_is_well_formed) bob) as H.
    specialize (H (mkRow 1 "Rob" None None (Some 10%float) None None None
                     None None 5 9) eq_refl eq_refl).
    exact (f_equal Some H).
  - apply (proj2 (created_at_is_never_rewritten as_given
                    (fst (delete_entry ledger_with_bob 1))
                    [op_add_entry 10 "Ann" (fun _ => None)] 1
                    (delete_entry_well_formed ledger_with_bob 1
                       bob_is_well_formed)));
      [simpl; lia|reflexivity].
Defined.

Lemma bob_is_named : named ledger_with_bob.
Proof. repeat constructor. discriminate. Defined.

Lemma the_menus_keep_keys_and_names_witness :
  well_formed ledger_with_bob
  /\ named ledger_with_bob
  /\ keyed_and_named
       (fst (update_entry_menu as_given sample_float sample_int
               ledger_with_bob 9
               ["1"; " Rob "; ""; ""; "12.5"; ""; ""; ""; ""; ""])).
Proof.
  split; [exact bob_is_well_formed|]. split; [exact bob_is_named|].
  exact (proj1 (proj2 (the_menus_keep_keys_and_names as_given sample_float
                         sample_int ledger_with_bob 9
                         ["1"; " Rob "; ""; ""; "12.5"; ""; ""; ""; ""; ""]
                         bob_is_well_formed bob_is_named))).
Defined.

Lemma the_window_keeps_keys_and_names_witness :
  well_formed ledger_with_bob
  /\ named ledger_with_bob
  /\ named
       (db (handle_of
              (after_turns as_given sample_float sample_text sample_text
                 no_text no_text ledger_with_bob
                 (typing_name ++ [(9, deliver entry_return)])))).
Proof.
  split; [exact bob_is_well_formed|]. split; [exact bob_is_named|].
  exact (proj1 (proj2 (the_window_keeps_keys_and_names as_given sample_float
                         sample_text sample_text no_text no_text
                         ledger_with_bob
                         (typing_name ++ [(9, deliver entry_return)])
                         bob_is_well_formed bob_is_named))).
Defined.

Lemma reading_events_leave_the_records_witness :
  let s := after_turns as_given sample_float sample_text sample_text no_text
             no_text ledger_with_bob
             (typing_seller_1
              ++ [(8, deliver entry_focus_out); (8, deliver escape_key)]) in
  idle (tk s) = 1%nat
  /\ writes_nothing sample_float (add_pressed [press_cancel]) s = true
  /\ db (handle_of
           (take_turn as_given sample_float sample_text sample_text no_text
              no_text 9 (deliver (add_pressed [press_cancel])) s))
     = ledger_with_bob.
Proof.
  cbv zeta. split; [reflexivity|]. split; [reflexivity|].
  exact (reading_events_leave_the_records as_given sample_float sample_text
           sample_text no_text no_text 9 (add_pressed [press_cancel])
           (after_turns as_given sample_float sample_text sample_text
              no_text no_text ledger_with_bob
              (typing_seller_1
               ++ [(8, deliver entry_focus_out); (8, deliver escape_key)]))
           eq_refl).
Defined.

(** The case that is left out: Seller 1 of Bob is open with 12.5 typed,
    the focus has gone and its check waits; the Add button is clicked
    and the dialog cancelled. Building the dialog calls the check,
    which commits the 12.5. *)
Example add_calls_the_waiting_focus_check :
  let s := after_turns as_given sample_float sample_text sample_text no_text
             no_text ledger_with_bob
             (typing_seller_1
              ++ [(8, deliver (focus_moves (Some other_widget)));
                  (8, deliver entry_focus_out)]) in
  let s' := take_turn as_given sample_float sample_text sample_text no_text
              no_text 9 (deliver (add_pressed [press_cancel])) s in
  idle (tk s) = 1%nat
  /\ writes_nothing sample_float (add_pressed [press_cancel]) s = false
  /\ option_map seller_1 (get_entry (db (handle_of s)) 1)
     = Some (Some 10%float)
  /\ option_map seller_1 (get_entry (db (handle_of s')) 1)
     = Some (Some 12.5%float)
  /\ idle (tk s') = 0%nat
  /\ editing_entry (edit s') = None.
Proof. vm_compute. repeat split. Qed.

Lemma return_stores_the_typed_value_witness :
  let s := after_turns as_given sample_float sample_text sample_text no_text
             no_text ledger_with_bob typing_seller_1 in
  let it := mkItem 0 1 [""; "Bob"; ""; ""; "10.0"; ""; ""; ""; ""; ""] in
  let s' := take_turn as_given sample_float sample_text sample_text no_text
              no_text 9 (deliver entry_return) s in
  single_editor s
  /\ editing_entry (edit s) = Some 0%nat
  /\ editing_item (edit s) = Some 0%nat
  /\ editing_column (edit s) = Some "Seller 1"
  /\ editing_column_index (edit s) = Some 5%nat
  /\ find (fun it => (iid it =? 0)%nat) (items (tree s)) = Some it
  /\ get_entry (db (handle_of s)) (value_id it) = Some bob
  /\ faults (handle_of s) = []
  /\ exists r',
       get_entry (db (handle_of s')) 1 = Some r'
       /\ name r' = "Bob"
       /\ seller_1 r' = Some 12.5%float
       /\ seller_2 r' = None
       /\ updated_at r' = 9.
Proof.
  cbv zeta.
  set (s := after_turns as_given sample_float sample_text sample_text no_text
              no_text ledger_with_bob typing_seller_1).
  set (it := mkItem 0 1 [""; "Bob"; ""; ""; "10.0"; ""; ""; ""; ""; ""]).
  assert (Hs : single_editor s) by apply after_turns_single_editor.
  assert (He : editing_entry (edit s) = Some 0%nat) by reflexivity.
  assert (Hi : editing_item (edit s) = Some 0%nat) by reflexivity.
  assert (Hc : editing_column (edit s) = Some "Seller 1") by reflexivity.
  assert (Hx : editing_column_index (edit s) = Some 5%nat) by reflexivity.
  assert (Hit : find (fun it => (iid it =? 0)%nat) (items (tree s)) = Some it)
    by reflexivity.
  assert (Hr : get_entry (db (handle_of s)) (value_id it) = Some bob)
    by reflexivity.
  assert (Hf : faults (handle_of s) = []) by reflexivity.
  repeat (split; [assumption|]).
  destruct (proj2 (return_stores_the_typed_value as_given sample_float
                     sample_text sample_text no_text no_text 9 s it bob
                     0%nat 0%nat 5%nat "Seller 1" Hs He Hi Hc Hx Hit Hr Hf)
              col_seller_1 12.5%float eq_refl eq_refl)
    as (r' & (Hg & _ & Hup & _) & Hn & Hv & Hother).
  exists r'. split; [exact Hg|]. split; [exact Hn|]. split; [exact Hv|].
  split; [exact (Hother col_seller_2 ltac:(discriminate))|exact Hup].
Defined.

Lemma return_while_the_store_fails_witness :
  let s := after_turns as_given sample_float sample_text sample_text no_text
             no_text ledger_with_bob
             (typing_seller_1 ++ [(8, deliver (store_health [false; true]))]) in
  let it := mkItem 0 1 [""; "Bob"; ""; ""; "10.0"; ""; ""; ""; ""; ""] in
  let s' := take_turn as_given sample_float sample_text sample_text no_text
              no_text 9 (deliver entry_return) s in
  single_editor s
  /\ editing_entry (edit s) = Some 0%nat
  /\ editing_item (edit s) = Some 0%nat
  /\ editing_column (edit s) = Some "Seller 1"
  /\ editing_column_index (edit s) = Some 5%nat
  /\ find (fun it => (iid it =? 0)%nat) (items (tree s)) = Some it
  /\ (amount_of "Seller 1" <> None
      \/ "Seller 1" = "Name" /\ Py.strip (typed_text 0 s) <> "")
  /\ faults (handle_of s) = [false; true]
  /\ option_map seller_1 (get_entry (db (handle_of s')) 1)
     = Some (Some 12.5%float)
  /\ items (tree s') = []
  /\ boxes (tk s') = [(showerror, "Failed to update Seller 1: ")].
Proof.
  cbv zeta.
  set (s := after_turns as_given sample_float sample_text sample_text no_text
              no_text ledger_with_bob
              (typing_seller_1 ++ [(8, deliver (store_health [false; true]))])).
  set (it := mkItem 0 1 [""; "Bob"; ""; ""; "10.0"; ""; ""; ""; ""; ""]).
  assert (Hs : single_editor s) by apply after_turns_single_editor.
  assert (He : editing_entry (edit s) = Some 0%nat) by reflexivity.
  assert (Hi : editing_item (edit s) = Some 0%nat) by reflexivity.
  assert (Hc : editing_column (edit s) = Some "Seller 1") by reflexivity.
  assert (Hx : editing_column_index (edit s) = Some 5%nat) by reflexivity.
  assert (Hit : find (fun it => (iid it =? 0)%nat) (items (tree s)) = Some it)
    by reflexivity.
  assert (Ht : amount_of "Seller 1" <> None
               \/ "Seller 1" = "Name" /\ Py.strip (typed_text 0 s) <> "")
    by (left; discriminate).
  assert (Hf : faults (handle_of s) = [false; true]) by reflexivity.
  repeat (split; [assumption|]).
  pose proof (return_while_the_store_fails as_given sample_float sample_text
                sample_text no_text no_text 9 s it 0%nat 0%nat 5%nat
                "Seller 1" Hs He Hi Hc Hx Hit Ht) as H.
  cbv zeta in H. rewrite Hf in H. destruct H as (Hdb & Hitems & Hbox & _).
  split; [rewrite Hdb; reflexivity|]. split; [exact Hitems|].
  rewrite Hbox. reflexivity.
Defined.

Lemma the_dialog_replaces_the_whole_record_witness :
  let s := after_turns as_given sample_float sample_text sample_text no_text
             no_text ledger_with_bob selecting_first_row in
  let result := mkData "Ann" None None (Some 12.5%float) None None None None
                  None in
  let script := press_save (mkForm " " "" "" "" "" "" "" "" "") :: saving_ann in
  let s' := take_turn as_given sample_float sample_text sample_text no_text
              no_text 9 (deliver (edit_pressed script)) s in
  selected_key s = Some 1
  /\ 1 <> 0
  /\ get_entry (db (handle_of s)) 1 = Some bob
  /\ show sample_float script = Some result
  /\ faults (handle_of s) = []
  /\ editing_entry (edit s) = None
  /\ boxes (tk s')
     = [(showerror, "Name is required!");
        (showinfo, "Entry updated successfully!")]
  /\ exists r',
       get_entry (db (handle_of s')) 1 = Some r'
       /\ name r' = "Ann"
       /\ seller_1 r' = Some 12.5%float
       /\ seller_2 r' = None
       /\ created_at r' = 5.
Proof.
  cbv zeta.
  set (s := after_turns as_given sample_float sample_text sample_text no_text
              no_text ledger_with_bob selecting_first_row).
  set (result := mkData "Ann" None None (Some 12.5%float) None None None None
                   None).
  set (script := press_save (mkForm " " "" "" "" "" "" "" "" "") :: saving_ann).
  assert (Hsel : selected_key s = Some 1) by reflexivity.
  assert (Hkey : 1 <> 0) by discriminate.
  assert (Hr : get_entry (db (handle_of s)) 1 = Some bob) by reflexivity.
  assert (Hshow : show sample_float script = Some result) by reflexivity.
  assert (Hf : faults (handle_of s) = []) by reflexivity.
  assert (Hi : editing_entry (edit s) = None) by reflexivity.
  repeat (split; [assumption|]).
  destruct (the_dialog_replaces_the_whole_record as_given sample_float
              sample_text sample_text no_text no_text 9 s script 1 bob
              result Hsel Hkey Hr Hshow Hf Hi)
    as (r' & Hg & Hn & _ & Hreal & Hcr & _ & _ & _ & Hbox & _).
  split; [rewrite Hbox; reflexivity|].
  exists r'. split; [exact Hg|]. split; [exact Hn|].
  split; [exact (Hreal col_seller_1)|].
  split; [exact (Hreal col_seller_2)|exact Hcr].
Defined.

Lemma the_dialog_adds_one_record_witness :
  let s := after_turns as_given sample_float sample_text sample_text no_text
             no_text ledger_with_bob [] in
  let result := mkData "Ann" None None (Some 12.5%float) None None None None
                  None in
  let script := press_save (mkForm " " "" "" "" "" "" "" "" "") :: saving_ann in
  let s' := take_turn as_given sample_float sample_text sample_text no_text
              no_text 9 (deliver (add_pressed script)) s in
  show sample_float script = Some result
  /\ faults (handle_of s) = []
  /\ editing_entry (edit s) = None
  /\ boxes (tk s')
     = [(showerror, "Name is required!");
        (showinfo, "Entry added successfully!")]
  /\ exists r',
       table (db (handle_of s')) = [bob; r']
       /\ id r' = 2
       /\ name r' = "Ann"
       /\ seller_1 r' = Some 12.5%float
       /\ seller_2 r' = None.
Proof.
  cbv zeta.
  set (s := after_turns as_given sample_float sample_text sample_text no_text
              no_text ledger_with_bob []).
  set (result := mkData "Ann" None None (Some 12.5%float) None None None None
                   None).
  set (script := press_save (mkForm " " "" "" "" "" "" "" "" "") :: saving_ann).
  assert (Hshow : show sample_float script = Some result) by reflexivity.
  assert (Hf : faults (handle_of s) = []) by reflexivity.
  assert (Hi : editing_entry (edit s) = None) by reflexivity.
  repeat (split; [assumption|]).
  destruct (the_dialog_adds_one_record as_given sample_float sample_text
              sample_text no_text no_text 9 s script result Hshow Hf Hi)
    as (r' & Ht & Hid & _ & Hn & _ & Hreal & _ & _ & _ & Hbox & _).
  split; [rewrite Hbox; reflexivity|].
  exists r'. split; [exact Ht|]. split; [exact Hid|]. split; [exact Hn|].
  split; [exact (Hreal col_seller_1)|exact (Hreal col_seller_2)].
Defined.

Lemma the_delete_button_removes_the_selected_record_witness :
  let s := after_turns as_given sample_float sample_text sample_text no_text
             no_text ledger_with_bob selecting_first_row in
  let s' := take_turn as_given sample_float sample_text sample_text no_text
              no_text 9 (deliver (delete_pressed true)) s in
  selected_key s = Some 1
  /\ 1 <> 0
  /\ get_entry (db (handle_of s)) 1 = Some bob
  /\ faults (handle_of s) = []
  /\ get_entry (db (handle_of s')) 1 = None
  /\ items (tree s') = [].
Proof.
  cbv zeta.
  set (s := after_turns as_given sample_float sample_text sample_text no_text
              no_text ledger_with_bob selecting_first_row).
  assert (Hsel : selected_key s = Some 1) by reflexivity.
  assert (Hkey : 1 <> 0) by discriminate.
  assert (Hr : get_entry (db (handle_of s)) 1 = Some bob) by reflexivity.
  assert (Hf : faults (handle_of s) = []) by reflexivity.
  repeat (split; [assumption|]).
  destruct (the_delete_button_removes_the_selected_record as_given
              sample_float sample_text sample_text no_text no_text 9 s 1 bob
              Hsel Hkey Hr Hf) as (Hgone & _ & Hitems & _).
  split; [exact Hgone|]. rewrite Hitems. reflexivity.
Defined.

Lemma without_a_selection_the_store_is_not_asked_witness :
  let s := after_turns as_given sample_float sample_text sample_text no_text
             no_text ledger_with_bob [] in
  let s' := take_turn as_given sample_float sample_text sample_text no_text
              no_text 9 (deliver (delete_pressed true)) s in
  selection (tree s) = []
  /\ handle_of s' = handle_of s
  /\ boxes (tk s') = [(showwarning, "Please select an entry to delete.")].
Proof.
  cbv zeta.
  set (s := after_turns as_given sample_float sample_text sample_text no_text
              no_text ledger_with_bob []).
  assert (Hsel : selection (tree s) = []) by reflexivity.
  split; [exact Hsel|].
  destruct (proj2 (without_a_selection_the_store_is_not_asked as_given
                     sample_float sample_text sample_text no_text no_text 9 s
                     [] true Hsel)) as (Hh & _ & Hb & _).
  split; [exact Hh|]. rewrite Hb. reflexivity.
Defined.

Lemma main_menu_keeps_keys_and_names_witness :
  well_formed ledger_with_bob
  /\ named ledger_with_bob
  /\ exists d',
       main_menu as_given sample_float sample_int 30
         (fun n => 10 + Z.of_nat n) 0 ledger_with_bob sample_session
       = Some (d', session_exit)
       /\ map name (table d') = ["Ann"]
       /\ well_formed d'
       /\ named d'.
Proof.
  split; [exact bob_is_well_formed|]. split; [exact bob_is_named|].
  eexists. split; [vm_compute; reflexivity|]. split; [reflexivity|].
  exact (main_menu_keeps_keys_and_names as_given sample_float sample_int
           (fun n => 10 + Z.of_nat n) 30 0 ledger_with_bob sample_session
           _ session_exit bob_is_well_formed bob_is_named eq_refl).
Defined.

(** The amount that is answered with nan: [float] reads it, SQLite
    stores NULL for it, and the menu reports the update. *)
Example update_entry_menu_stores_null_for_nan :
  let result :=
    update_entry_menu sqlite_real sample_float_nan sample_int ledger_with_bob 9
      ["1"; ""; ""; ""; "nan"; "12.5"; ""; ""; ""; ""] in
  seller_1 bob = Some 10%float
  /\ snd result = entry_updated
  /\ option_map seller_1 (get_entry (fst result) 1) = Some None
  /\ option_map seller_2 (get_entry (fst result) 1) = Some (Some 12.5%float).
Proof. vm_compute. repeat split. Qed.

(** A search term of 49999 bytes ends the session when the table has a
    row, and finds nothing when it has none. *)
Example a_long_search_term_ends_the_session :
  Py.utf8_length (Py.strip long_term) = 49999
  /\ main_menu as_given sample_float sample_int 5 (fun n => Z.of_nat n) 0
       ledger_with_bob ["6"; long_term; "7"]
     = Some (ledger_with_bob, session_operational_error)
  /\ main_menu as_given sample_float sample_int 5 (fun n => Z.of_nat n) 0
       empty_database ["6"; long_term; "7"]
     = Some (empty_database, session_exit).
Proof. vm_compute. repeat split. Qed.
